(** * diy-home-repair-BE: the diagnostic engine of [services/geminiService.ts]

    A shallow embedding of [analyzeRepair], [buildUserPrompt] and
    [getConfidenceLevel], together with the parts of the JavaScript
    language the three functions rely on: strings of UTF-16 code units,
    IEEE-754 binary64 numbers, JSON values, truthiness and coercions,
    exceptions, the two regular expressions that locate the JSON payload
    and [JSON.parse]. *)

From Stdlib Require Import List ZArith QArith Qround Bool Ascii String Lia.
Import ListNotations.

Set Warnings "-register-all".

(* ================================================================== *)
(** ** Strings *)

(** A JavaScript string is a sequence of UTF-16 code units. *)
Definition jsstring := list N.

(** A source-level ASCII literal. *)
Fixpoint lit (s : string) : jsstring :=
  match s with
  | EmptyString => []
  | String c r => N_of_ascii c :: lit r
  end.

(** Characters that cannot be written inside a literal here. *)
Definition dq : N := 34.       (* the double quote *)
Definition nl : N := 10.       (* \n *)
Definition bslash : N := 92.   (* the backslash *)

Fixpoint str_eqb (a b : jsstring) : bool :=
  match a, b with
  | [], [] => true
  | x :: a', y :: b' => N.eqb x y && str_eqb a' b'
  | _, _ => false
  end.

(** [Array.prototype.join]. *)
Fixpoint join (sep : jsstring) (l : list jsstring) : jsstring :=
  match l with
  | [] => []
  | [x] => x
  | x :: r => x ++ sep ++ join sep r
  end.

(** [s] occurs in [t] as a contiguous run of code units. *)
Definition contains (t s : jsstring) : Prop :=
  exists pre post, t = pre ++ s ++ post.

(** WhiteSpace and LineTerminator of ECMA-262: what [\s] matches and what
    the string-to-number conversion trims. *)
Definition is_js_space (c : N) : bool :=
  ((9 <=? c) && (c <=? 13) || (c =? 32) || (c =? 160) || (c =? 5760)
   || (8192 <=? c) && (c <=? 8202) || (c =? 8232) || (c =? 8233)
   || (c =? 8239) || (c =? 8287) || (c =? 12288) || (c =? 65279))%N.

Definition is_digit (c : N) : bool := ((48 <=? c) && (c <=? 57))%N.

Definition digit_val (c : N) : Z := Z.of_N c - 48.

(** The longest prefix of decimal digits, and what follows it. *)
Fixpoint span_digits (s : jsstring) : list N * jsstring :=
  match s with
  | c :: r => if is_digit c
              then let (ds, rest) := span_digits r in (c :: ds, rest)
              else ([], s)
  | [] => ([], [])
  end.

Definition digits_val (ds : list N) : Z :=
  fold_left (fun acc c => 10 * acc + digit_val c)%Z ds 0%Z.

(** Decimal rendering of a natural number, as template literals print an
    integer-valued Number. *)
Fixpoint nat_digits (fuel n : nat) (acc : jsstring) : jsstring :=
  match fuel with
  | O => acc
  | S f =>
      let d := N.of_nat (48 + n mod 10) in
      if (n <? 10)%nat then d :: acc else nat_digits f (n / 10) (d :: acc)
  end.

Definition nat_to_string (n : nat) : jsstring := nat_digits (S n) n [].

(* ================================================================== *)
(** ** Numbers *)

(** A Number is a binary64 value: NaN, an infinity, or a finite double
    carried by its exact rational value.  Comparison, [Math.min] and
    [Math.max] on doubles are exact, so they are comparison, minimum and
    maximum of these values.  The two zeros are identified: they are
    equal under [<], [>=], truthiness, [Math.max(0, _)] and [Math.min]. *)
Inductive number : Type :=
| NaN
| PInf
| NInf
| Fin (q : Q).

Definition Qlt_bool (a b : Q) : bool := negb (Qle_bool b a).

(** [a < b] *)
Definition num_lt (a b : number) : bool :=
  match a, b with
  | NaN, _ | _, NaN => false
  | PInf, _ => false
  | _, NInf => false
  | NInf, _ => true
  | _, PInf => true
  | Fin x, Fin y => Qlt_bool x y
  end.

(** [a >= b], which is [b <= a]: false when either side is NaN. *)
Definition num_ge (a b : number) : bool :=
  match a, b with
  | NaN, _ | _, NaN => false
  | PInf, _ => true
  | _, NInf => true
  | NInf, _ => false
  | _, PInf => false
  | Fin x, Fin y => Qle_bool y x
  end.

(** [a > b] is [b < a]. *)
Definition num_gt (a b : number) : bool := num_lt b a.

(** [Math.max(a, b)] and [Math.min(a, b)] on Numbers. *)
Definition Math_max (a b : number) : number :=
  match a, b with
  | NaN, _ | _, NaN => NaN
  | _, _ => if num_lt a b then b else a
  end.

Definition Math_min (a b : number) : number :=
  match a, b with
  | NaN, _ | _, NaN => NaN
  | _, _ => if num_lt b a then b else a
  end.

(** Rounding of [n/d] (with [0 < d]) to the nearest integer, ties to even. *)
Definition round_half_even (n d : Z) : Z :=
  let q := (n / d)%Z in
  let r := (n mod d)%Z in
  if (2 * r <? d)%Z then q
  else if (d <? 2 * r)%Z then (q + 1)%Z
  else if Z.even q then q else (q + 1)%Z.

(** [scale_le a d e]: [d * 2^e <= a], for positive [a], [d] and any [e]. *)
Definition scale_le (a d e : Z) : bool :=
  if (0 <=? e)%Z then (d * 2 ^ e <=? a)%Z else (d <=? a * 2 ^ (- e))%Z.

(** The binary64 value nearest to a rational (round to nearest, ties to
    even, overflow to infinity, gradual underflow): the value of a numeric
    literal, in program text as in JSON text. *)
Definition double_of_Q (x : Q) : number :=
  let n := Qnum x in
  let d := Zpos (Qden x) in
  if (n =? 0)%Z then Fin 0
  else
    let a := Z.abs n in
    let e0 := (Z.log2 a - Z.log2 d)%Z in
    (* 2^e <= a/d < 2^(e+1) *)
    let e := if scale_le a d e0 then e0 else (e0 - 1)%Z in
    let ex := Z.max (e - 52) (-1074) in
    let m := if (0 <=? ex)%Z then round_half_even a (d * 2 ^ ex)
             else round_half_even (a * 2 ^ (- ex)) d in
    if (971 <=? ex)%Z && (2 ^ 53 <=? m * 2 ^ (ex - 971))%Z
    then (if (n <? 0)%Z then NInf else PInf)
    else
      let v := if (0 <=? ex)%Z then inject_Z (m * 2 ^ ex)
               else Qred (Qmake m (Z.to_pos (2 ^ (- ex)))) in
      Fin (if (n <? 0)%Z then Qopp v else v).

(** Numeric literals of the source. *)
Definition n0 : number := Fin 0.
Definition n1 : number := Fin 1.
Definition n0_5 : number := Eval vm_compute in double_of_Q (5 # 10).
Definition n0_6 : number := Eval vm_compute in double_of_Q (6 # 10).
Definition n0_7 : number := Eval vm_compute in double_of_Q (7 # 10).
Definition n0_8 : number := Eval vm_compute in double_of_Q (8 # 10).

(* ================================================================== *)
(** ** Exceptions *)

Inductive error : Type :=
| SyntaxError
| TypeError
| Error (msg : jsstring).

(** The outcome of running code that may throw. *)
Inductive Exc (A : Type) : Type :=
| Ok (a : A)
| Throw (e : error).

Arguments Ok {A} a.
Arguments Throw {A} e.

Definition bind {A B : Type} (m : Exc A) (f : A -> Exc B) : Exc B :=
  match m with
  | Ok a => f a
  | Throw e => Throw e
  end.

Notation "x <- m ;; k" := (bind m (fun x => k))
  (at level 61, m at next level, right associativity).

(** [xs.map(f)] where the callback may throw: stops at the first throw. *)
Fixpoint mapM {A B : Type} (f : A -> Exc B) (l : list A) : Exc (list B) :=
  match l with
  | [] => Ok []
  | x :: r => y <- f x ;; ys <- mapM f r ;; Ok (y :: ys)
  end.

(* ================================================================== *)
(** ** Values *)

(** The values [JSON.parse] can produce, and [undefined], which reading
    a missing property produces.  An object is its own properties, with
    distinct keys, listed in the order in which they were created.  The
    program reads properties by name and counts them; it never
    enumerates them, so the order in which the language would enumerate
    them (integer-like keys first) is not represented. *)
Inductive JsValue : Type :=
| JUndefined
| JNull
| JBool (b : bool)
| JNum (n : number)
| JStr (s : jsstring)
| JArr (items : list JsValue)
| JObj (props : list (jsstring * JsValue)).

Fixpoint lookup (k : jsstring) (props : list (jsstring * JsValue))
  : option JsValue :=
  match props with
  | [] => None
  | (k', v) :: r => if str_eqb k k' then Some v else lookup k r
  end.

(** [CreateDataProperty]: overwrite in place, or append. *)
Fixpoint set_prop (k : jsstring) (v : JsValue)
    (props : list (jsstring * JsValue)) : list (jsstring * JsValue) :=
  match props with
  | [] => [(k, v)]
  | (k', v') :: r =>
      if str_eqb k k' then (k', v) :: r else (k', v') :: set_prop k v r
  end.

Definition num_of_nat (n : nat) : number := Fin (inject_Z (Z.of_nat n)).

(** [v.k] for the property names this program reads ([length] and names
    that no built-in prototype defines): a TypeError on [undefined] and
    [null], the own property of an object, the length of a string or an
    array, [undefined] otherwise. *)
Definition get (v : JsValue) (k : string) : Exc JsValue :=
  match v with
  | JUndefined | JNull => Throw TypeError
  | JObj props =>
      match lookup (lit k) props with
      | Some x => Ok x
      | None => Ok JUndefined
      end
  | JStr s =>
      if String.eqb k "length" then Ok (JNum (num_of_nat (List.length s)))
      else Ok JUndefined
  | JArr l =>
      if String.eqb k "length" then Ok (JNum (num_of_nat (List.length l)))
      else Ok JUndefined
  | JBool _ | JNum _ => Ok JUndefined
  end.

(** ToBoolean. *)
Definition truthy (v : JsValue) : bool :=
  match v with
  | JUndefined | JNull => false
  | JBool b => b
  | JNum NaN => false
  | JNum (Fin q) => negb (Qeq_bool q 0)
  | JNum _ => true
  | JStr [] => false
  | JStr _ => true
  | JArr _ | JObj _ => true
  end.

(** [a || b] *)
Definition or_else (a b : JsValue) : JsValue := if truthy a then a else b.

(** [v === true] *)
Definition is_true (v : JsValue) : bool :=
  match v with
  | JBool true => true
  | _ => false
  end.

(** [typeof v === 'string'] *)
Definition is_string (v : JsValue) : bool :=
  match v with
  | JStr _ => true
  | _ => false
  end.

(** [v.map(f)]: only an array has a callable [map]. *)
Definition js_map {B : Type} (v : JsValue) (f : JsValue -> Exc B)
  : Exc (list B) :=
  match v with
  | JArr l => mapM f l
  | _ => Throw TypeError
  end.

(* ------------------------------------------------------------------ *)
(** *** ToNumber *)

Definition is_hex_digit (c : N) : bool :=
  (is_digit c || (65 <=? c) && (c <=? 70) || (97 <=? c) && (c <=? 102))%N.

Definition hex_val (c : N) : Z :=
  if is_digit c then digit_val c
  else if (c <=? 70)%N then Z.of_N c - 55 else Z.of_N c - 87.

(** All of [s] as digits of the given radix, if it is non-empty and has
    only such digits. *)
Definition radix_val (radix : Z) (s : jsstring) : option Z :=
  match s with
  | [] => None
  | _ =>
      if forallb (fun c => is_hex_digit c && (hex_val c <? radix)%Z) s
      then Some (fold_left (fun acc c => radix * acc + hex_val c)%Z s 0%Z)
      else None
  end.

(** The value [m * 10^e] of a decimal literal. *)
Definition decimal_Q (m e : Z) : Q :=
  if (0 <=? e)%Z then inject_Z (m * 10 ^ e)
  else Qmake m (Z.to_pos (10 ^ (- e))).

(** An optional exponent part [e|E (+|-)? digits] at the head of [s]:
    its value and what follows, or [None] when [s] starts with [e]/[E]
    but no exponent can be read. *)
Definition scan_exponent (s : jsstring) : option (Z * jsstring) :=
  match s with
  | c :: r =>
      if ((c =? 101) || (c =? 69))%N then
        let (neg, r') :=
          match r with
          | sg :: r1 => if (sg =? 45)%N then (true, r1)
                        else if (sg =? 43)%N then (false, r1)
                        else (false, r)
          | [] => (false, r)
          end in
        match span_digits r' with
        | ([], _) => None
        | (ds, rest) =>
            Some (if neg then (- digits_val ds)%Z else digits_val ds, rest)
        end
      else Some (0%Z, s)
  | [] => Some (0%Z, s)
  end.

(** StrUnsignedDecimalLiteral without [Infinity]: digits with an optional
    fraction and exponent, where either the integer or the fraction
    digits may be missing but not both; the whole string must be used. *)
Definition str_unsigned_decimal (s : jsstring) : option Q :=
  let (ip, r) := span_digits s in
  let '(fp, r1, dot) :=
    match r with
    | c :: r' => if (c =? 46)%N
                 then let (fp, r1) := span_digits r' in (fp, r1, true)
                 else ([], r, false)
    | [] => ([], r, false)
    end in
  match ip, fp with
  | [], [] => None
  | _, _ =>
      match scan_exponent r1 with
      | Some (e, []) =>
          Some (decimal_Q (digits_val (ip ++ fp)) (e - Z.of_nat (List.length fp)))
      | _ => None
      end
  end.

Fixpoint drop_space (s : jsstring) : jsstring :=
  match s with
  | c :: r => if is_js_space c then drop_space r else s
  | [] => []
  end.

Definition trim (s : jsstring) : jsstring :=
  rev (drop_space (rev (drop_space s))).

Definition neg_number (n : number) : number :=
  match n with
  | NaN => NaN
  | PInf => NInf
  | NInf => PInf
  | Fin q => Fin (Qopp q)
  end.

Definition str_unsigned (s : jsstring) : number :=
  if str_eqb s (lit "Infinity") then PInf
  else match str_unsigned_decimal s with
       | Some q => double_of_Q q
       | None => NaN
       end.

(** StringToNumber. *)
Definition StringToNumber (s : jsstring) : number :=
  match trim s with
  | [] => n0
  | c :: r =>
      if (c =? 45)%N then neg_number (str_unsigned r)
      else if (c =? 43)%N then str_unsigned r
      else
        let radix :=
          match r with
          | x :: _ =>
              if (c =? 48)%N then
                if ((x =? 120) || (x =? 88))%N then Some 16%Z
                else if ((x =? 111) || (x =? 79))%N then Some 8%Z
                else if ((x =? 98) || (x =? 66))%N then Some 2%Z
                else None
              else None
          | [] => None
          end in
        match radix with
        | Some b =>
            match radix_val b (tl r) with
            | Some z => double_of_Q (inject_Z z)
            | None => NaN
            end
        | None => str_unsigned (c :: r)
        end
  end.

Definition has_key (k : string) (props : list (jsstring * JsValue)) : bool :=
  match lookup (lit k) props with
  | Some _ => true
  | None => false
  end.

(** Whether ToString of a value returns: it throws a TypeError on an
    object whose own [toString] property hides the inherited method (a
    parsed property is never callable), also inside an array being
    joined. *)
Fixpoint stringifiable (v : JsValue) : bool :=
  match v with
  | JObj props => negb (has_key "toString" props)
  | JArr l => forallb stringifiable l
  | _ => true
  end.

(** ToNumber of a value whose ToString returns.  An array goes through
    its [join]: the empty string for no element or a single [null], the
    element's own string for a single element, and text with a comma,
    which is no number, for more.  Printing a Number and reading it back
    gives the same Number. *)
Fixpoint toNumber_value (v : JsValue) : number :=
  match v with
  | JUndefined => NaN
  | JNull => n0
  | JBool b => if b then n1 else n0
  | JNum n => n
  | JStr s => StringToNumber s
  | JObj _ => NaN
  | JArr [] => n0
  | JArr [x] =>
      match x with
      | JUndefined | JNull => n0
      | JBool _ | JObj _ => NaN
      | _ => toNumber_value x
      end
  | JArr _ => NaN
  end.

(** ToNumber. *)
Definition toNumber (v : JsValue) : Exc number :=
  if stringifiable v then Ok (toNumber_value v) else Throw TypeError.

(* ================================================================== *)
(** ** Regular expressions *)

(** The pieces the two patterns of [analyzeRepair] are made of: a
    character, a greedy or lazy star over a character class, and the
    parentheses of a capturing group. *)
Inductive rx : Type :=
| Chr (c : N)
| StarGreedy (cls : N -> bool)
| StarLazy (cls : N -> bool)
| GroupOpen
| GroupClose.

(** [[\s\S]]: any code unit. *)
Definition any_char (c : N) : bool := true.

(** Where a match ends and the span its group captured, both counted in
    code units from where the match starts. *)
Definition outcome : Type := (nat * option (nat * nat))%type.

(** A greedy star followed by the continuation [k]: the longest run
    first, giving code units back one at a time. *)
Fixpoint star_greedy (cls : N -> bool) (k : jsstring -> nat -> option outcome)
    (s : jsstring) (pos : nat) : option outcome :=
  match s with
  | x :: s' =>
      if cls x then
        match star_greedy cls k s' (S pos) with
        | Some r => Some r
        | None => k s pos
        end
      else k s pos
  | [] => k s pos
  end.

(** A lazy star followed by [k]: the shortest run first. *)
Fixpoint star_lazy (cls : N -> bool) (k : jsstring -> nat -> option outcome)
    (s : jsstring) (pos : nat) : option outcome :=
  match k s pos with
  | Some r => Some r
  | None =>
      match s with
      | x :: s' => if cls x then star_lazy cls k s' (S pos) else None
      | [] => None
      end
  end.

(** Backtracking match of a pattern at the head of [s].  [pos] counts
    the code units consumed so far, [gs] is where the group opened and
    [cap] the span it captured. *)
Fixpoint run (p : list rx) (s : jsstring) (pos gs : nat)
    (cap : option (nat * nat)) {struct p} : option outcome :=
  match p with
  | [] => Some (pos, cap)
  | Chr c :: p' =>
      match s with
      | x :: s' => if (x =? c)%N then run p' s' (S pos) gs cap else None
      | [] => None
      end
  | StarGreedy cls :: p' =>
      star_greedy cls (fun s pos => run p' s pos gs cap) s pos
  | StarLazy cls :: p' =>
      star_lazy cls (fun s pos => run p' s pos gs cap) s pos
  | GroupOpen :: p' => run p' s pos pos cap
  | GroupClose :: p' => run p' s pos gs (Some (gs, pos))
  end.

(** What [String.prototype.match] returns for a pattern without the [g]
    flag: the matched text as element 0, the captured text as element 1
    ([undefined] when the pattern has no group) and the index. *)
Record MatchResult : Type := {
  m_index : nat;
  m_0 : jsstring;
  m_1 : option jsstring
}.

Definition slice (s : jsstring) (a b : nat) : jsstring :=
  firstn (b - a) (skipn a s).

(** [s.match(p)]: the match at the leftmost position that has one. *)
Fixpoint str_match (p : list rx) (s : jsstring) (idx : nat)
  : option MatchResult :=
  match run p s 0 0 None with
  | Some (e, cap) =>
      Some {| m_index := idx;
              m_0 := firstn e s;
              m_1 := option_map (fun ab => slice s (fst ab) (snd ab)) cap |}
  | None =>
      match s with
      | [] => None
      | _ :: s' => str_match p s' (S idx)
      end
  end.

Definition chars (s : string) : list rx := map Chr (lit s).

(** [/```json\s*([\s\S]*?)\s*```/] *)
Definition fence_re : list rx :=
  chars "```json"
  ++ [StarGreedy is_js_space; GroupOpen; StarLazy any_char; GroupClose;
      StarGreedy is_js_space]
  ++ chars "```".

(** [/\{[\s\S]*\}/] *)
Definition brace_re : list rx :=
  chars "{" ++ [StarGreedy any_char] ++ chars "}".

(* ================================================================== *)
(** ** JSON.parse *)

Module JSON.

(** JSON white space: tab, line feed, carriage return, space. *)
Definition is_ws (c : N) : bool :=
  ((c =? 9) || (c =? 10) || (c =? 13) || (c =? 32))%N.

Fixpoint skip_ws (s : jsstring) : jsstring :=
  match s with
  | c :: r => if is_ws c then skip_ws r else s
  | [] => []
  end.

(** The characters of a string after its opening quote, up to the
    closing quote, with escapes decoded. *)
Fixpoint string_body (s : jsstring) : Exc (jsstring * jsstring) :=
  match s with
  | [] => Throw SyntaxError
  | c :: r =>
      if (c =? dq)%N then Ok ([], r)
      else if (c <? 32)%N then Throw SyntaxError
      else if (c =? bslash)%N then
        match r with
        | e :: r' =>
            let simple (u : N) :=
              p <- string_body r' ;; Ok (u :: fst p, snd p) in
            if (e =? dq)%N then simple dq
            else if (e =? bslash)%N then simple bslash
            else if (e =? 47)%N then simple 47%N
            else if (e =? 98)%N then simple 8%N
            else if (e =? 102)%N then simple 12%N
            else if (e =? 110)%N then simple 10%N
            else if (e =? 114)%N then simple 13%N
            else if (e =? 116)%N then simple 9%N
            else if (e =? 117)%N then
              match r' with
              | h1 :: h2 :: h3 :: h4 :: r'' =>
                  if forallb is_hex_digit [h1; h2; h3; h4] then
                    p <- string_body r'' ;;
                    Ok (Z.to_N (((hex_val h1 * 16 + hex_val h2) * 16
                                 + hex_val h3) * 16 + hex_val h4) :: fst p,
                        snd p)
                  else Throw SyntaxError
              | _ => Throw SyntaxError
              end
            else Throw SyntaxError
        | [] => Throw SyntaxError
        end
      else p <- string_body r ;; Ok (c :: fst p, snd p)
  end.

(** A number token at the head of [s]: [-? int frac? exp?]. *)
Definition parse_number (s : jsstring) : Exc (number * jsstring) :=
  let (neg, s1) :=
    match s with
    | c :: r => if (c =? 45)%N then (true, r) else (false, s)
    | [] => (false, s)
    end in
  let (ip, s2) :=
    match s1 with
    | c :: r => if (c =? 48)%N then ([c], r) else span_digits s1
    | [] => ([], s1)
    end in
  match ip with
  | [] => Throw SyntaxError
  | _ =>
      let frac :=
        match s2 with
        | c :: r =>
            if (c =? 46)%N then
              match span_digits r with
              | ([], _) => None
              | (fp, s3) => Some (fp, s3)
              end
            else Some ([], s2)
        | [] => Some ([], s2)
        end in
      match frac with
      | None => Throw SyntaxError
      | Some (fp, s3) =>
          match scan_exponent s3 with
          | None => Throw SyntaxError
          | Some (e, s4) =>
              let v := double_of_Q
                         (decimal_Q (digits_val (ip ++ fp))
                                    (e - Z.of_nat (List.length fp))) in
              Ok (if neg then neg_number v else v, s4)
          end
      end
  end.

(** [s] without the prefix [p], when it starts with it. *)
Fixpoint strip_prefix (p s : jsstring) : option jsstring :=
  match p, s with
  | [], _ => Some s
  | x :: p', y :: s' => if (x =? y)%N then strip_prefix p' s' else None
  | _ :: _, [] => None
  end.

Definition parse_word (w : string) (v : JsValue) (s : jsstring)
  : Exc (JsValue * jsstring) :=
  match strip_prefix (lit w) s with
  | Some r => Ok (v, r)
  | None => Throw SyntaxError
  end.

(** After white space, the character [c]: what follows it. *)
Definition expect (c : N) (s : jsstring) : option jsstring :=
  match skip_ws s with
  | x :: r => if (x =? c)%N then Some r else None
  | [] => None
  end.

Definition parser : Type := jsstring -> option (Exc (JsValue * jsstring)).

(** The members of an object after its opening brace, [value] reading
    each member's value.  [None]: the fuel [g] ran out. *)
Fixpoint members (value : parser) (g : nat) (r : jsstring)
    (acc : list (jsstring * JsValue)) : option (Exc (JsValue * jsstring)) :=
  match g with
  | O => None
  | S g' =>
      match expect dq r with
      | None => Some (Throw SyntaxError)
      | Some r0 =>
          match string_body r0 with
          | Throw e => Some (Throw e)
          | Ok (k, r1) =>
              match expect 58 r1 with                       (* : *)
              | None => Some (Throw SyntaxError)
              | Some r2 =>
                  match value r2 with
                  | None => None
                  | Some (Throw e) => Some (Throw e)
                  | Some (Ok (v, r3)) =>
                      match expect 44 r3 with                (* , *)
                      | Some r4 => members value g' r4 (set_prop k v acc)
                      | None =>
                          match expect 125 r3 with           (* } *)
                          | Some r4 =>
                              Some (Ok (JObj (set_prop k v acc), r4))
                          | None => Some (Throw SyntaxError)
                          end
                      end
                  end
              end
          end
      end
  end.

(** The elements of an array after its opening bracket. *)
Fixpoint elements (value : parser) (g : nat) (r : jsstring)
    (acc : list JsValue) : option (Exc (JsValue * jsstring)) :=
  match g with
  | O => None
  | S g' =>
      match value r with
      | None => None
      | Some (Throw e) => Some (Throw e)
      | Some (Ok (v, r1)) =>
          match expect 44 r1 with                            (* , *)
          | Some r2 => elements value g' r2 (acc ++ [v])
          | None =>
              match expect 93 r1 with                        (* ] *)
              | Some r2 => Some (Ok (JArr (acc ++ [v]), r2))
              | None => Some (Throw SyntaxError)
              end
          end
      end
  end.

(** A value at the head of [s], after white space.  [None]: the fuel,
    which bounds the nesting depth and the length of each member list,
    ran out. *)
Fixpoint parse_value (fuel : nat) (s : jsstring)
  : option (Exc (JsValue * jsstring)) :=
  match fuel with
  | O => None
  | S f =>
      match skip_ws s with
      | [] => Some (Throw SyntaxError)
      | c :: r =>
          if (c =? 123)%N then                               (* { *)
            match expect 125 r with
            | Some r' => Some (Ok (JObj [], r'))
            | None => members (parse_value f) f r []
            end
          else if (c =? 91)%N then                           (* [ *)
            match expect 93 r with
            | Some r' => Some (Ok (JArr [], r'))
            | None => elements (parse_value f) f r []
            end
          else if (c =? dq)%N then
            Some (p <- string_body r ;; Ok (JStr (fst p), snd p))
          else if (c =? 116)%N then
            Some (parse_word "true" (JBool true) (c :: r))
          else if (c =? 102)%N then
            Some (parse_word "false" (JBool false) (c :: r))
          else if (c =? 110)%N then
            Some (parse_word "null" JNull (c :: r))
          else Some (p <- parse_number (c :: r) ;; Ok (JNum (fst p), snd p))
      end
  end.

(** [JSON.parse(text)]: one value between optional white space, a
    SyntaxError otherwise.  The fuel given never runs out
    (see [parse_value_fuel]). *)
Definition parse (text : jsstring) : Exc JsValue :=
  match parse_value (S (List.length text)) text with
  | Some (Ok (v, rest)) =>
      match skip_ws rest with
      | [] => Ok v
      | _ => Throw SyntaxError
      end
  | Some (Throw e) => Throw e
  | None => Throw SyntaxError
  end.

End JSON.

(* ================================================================== *)
(** ** Data model ([types/index.ts]) *)

Record QuestionAnswer : Type := {
  qa_question : jsstring;
  qa_answer : jsstring
}.

(** Every attribute is optional: [None] is an absent key. *)
Record HomeProfile : Type := {
  email : option jsstring;
  nickname : option jsstring;
  homeType : option jsstring;
  yearBuilt : option jsstring;
  pipeType : option jsstring;
  waterHeaterType : option jsstring;
  hvacType : option jsstring;
  hvacAge : option jsstring;
  roofType : option jsstring;
  roofAge : option jsstring;
  mainFlooring : option jsstring
}.

(** The request metadata, with the fields the engine reads. *)
Record RepairMetadata : Type := {
  description : jsstring;
  conversationHistory : option (list QuestionAnswer);
  homeProfile : option HomeProfile
}.

Inductive ConfidenceLevel : Type := high | medium | low.

(** The records of the result.  A field the engine copies from the model
    output without looking at it holds whatever value was there. *)
Record ClarifyingQuestion : Type := {
  question : JsValue;
  suggestions : list JsValue
}.

Record MaterialItem : Type := {
  mat_item : JsValue;
  mat_spec : JsValue;
  mat_qty : JsValue;
  mat_description : JsValue;
  mat_howToUse : JsValue;
  mat_estimatedCost : JsValue
}.

Record ToolItem : Type := {
  tool_name : JsValue;
  tool_description : JsValue;
  tool_howToUse : JsValue
}.

Record FollowupQuestion : Type := {
  fu_question : jsstring;
  fu_whyItMatters : jsstring;
  fu_whatToUpload : jsstring
}.

Record AnalysisResult : Type := {
  needsMoreInfo : bool;
  questions : list ClarifyingQuestion;
  summary : JsValue;
  confidence : number;
  confidenceLevel : ConfidenceLevel;
  problemShort : JsValue;
  diyFriendly : JsValue;
  difficulty : JsValue;
  estimatedTime : JsValue;
  estimatedCost : JsValue;
  proEstimate : JsValue;
  immediateActions : JsValue;
  damage : JsValue;
  materials : list MaterialItem;
  tools : list ToolItem;
  steps : JsValue;
  cureTimeNotes : JsValue;
  warnings : JsValue;
  callAProIf : JsValue;
  youtubeSearchQuery : JsValue;
  proType : JsValue;
  suggestedQuestions : list JsValue;
  followups : list FollowupQuestion;
  additionalPhotosNeeded : bool
}.

(* ================================================================== *)
(** ** The result normalizer ([analyzeRepair], lines 336-409) *)

Definition getConfidenceLevel (confidence : number) : ConfidenceLevel :=
  if num_ge confidence n0_8 then high
  else if num_ge confidence n0_6 then medium
  else low.

Definition str (s : string) : JsValue := JStr (lit s).

(** [parsed.k || dflt] *)
Definition field_or (parsed : JsValue) (k : string) (dflt : JsValue)
  : Exc JsValue :=
  v <- get parsed k ;; Ok (or_else v dflt).

(** The callback of [(parsed.questions || []).map]; [suggestions] is
    [Array.isArray(q.suggestions) ? q.suggestions : []]. *)
Definition toQuestion (q : JsValue) : Exc ClarifyingQuestion :=
  qq <- field_or q "question" (str "") ;;
  sg <- get q "suggestions" ;;
  Ok {| question := qq;
        suggestions := match sg with JArr l => l | _ => [] end |}.

(** The callback of [(parsed.materials || []).map]. *)
Definition toMaterial (m : JsValue) : Exc MaterialItem :=
  i <- field_or m "item" (str "") ;;
  s <- field_or m "spec" (str "") ;;
  q <- field_or m "qty" (str "") ;;
  d <- field_or m "description" (str "") ;;
  h <- field_or m "howToUse" (str "") ;;
  c <- field_or m "estimatedCost" (str "") ;;
  Ok {| mat_item := i; mat_spec := s; mat_qty := q; mat_description := d;
        mat_howToUse := h; mat_estimatedCost := c |}.

(** The callback of [(parsed.tools || []).map]: a plain string is the
    name of the tool. *)
Definition toTool (t : JsValue) : Exc ToolItem :=
  n <- (if is_string t then Ok t else field_or t "name" (str "")) ;;
  d <- (if is_string t then Ok (str "") else field_or t "description" (str "")) ;;
  h <- (if is_string t then Ok (str "") else field_or t "howToUse" (str "")) ;;
  Ok {| tool_name := n; tool_description := d; tool_howToUse := h |}.

(** The callback of [parsed.suggestedQuestions.filter]:
    [q && q.length > 0], as a boolean. *)
Definition keepQuestion (q : JsValue) : Exc bool :=
  if truthy q then
    len <- get q "length" ;;
    n <- toNumber len ;;
    Ok (num_gt n n0)
  else Ok false.

Fixpoint filterM (f : JsValue -> Exc bool) (l : list JsValue)
  : Exc (list JsValue) :=
  match l with
  | [] => Ok []
  | x :: r =>
      b <- f x ;; ys <- filterM f r ;; Ok (if b then x :: ys else ys)
  end.

(** Lines 345-409: from the parsed model output to the result. *)
Definition normalize (parsed : JsValue) : Exc AnalysisResult :=
  c <- field_or parsed "confidence" (JNum n0_5) ;;
  c <- toNumber c ;;
  let confidence := Math_min n1 (Math_max n0 c) in
  let confidenceLevel := getConfidenceLevel confidence in
  flag <- get parsed "needsMoreInfo" ;;
  let needsMoreInfo := is_true flag || num_lt confidence n0_7 in
  qs <- field_or parsed "questions" (JArr []) ;;
  questions <- js_map qs toQuestion ;;
  summary <- field_or parsed "summary" (str "Unable to determine issue") ;;
  problemShort <- field_or parsed "problemShort" (str "") ;;
  diyFriendly <- field_or parsed "diyFriendly" (str "maybe") ;;
  difficulty <- field_or parsed "difficulty" (str "medium") ;;
  estimatedTime <- field_or parsed "estimatedTime" (str "") ;;
  estimatedCost <- field_or parsed "estimatedCost" (str "") ;;
  proEstimate <- field_or parsed "proEstimate" (str "") ;;
  immediateActions <- field_or parsed "immediateActions" (JArr []) ;;
  damage <- field_or parsed "damage"
              (JObj [(lit "type", str "Unknown");
                     (lit "severity", str "moderate");
                     (lit "affectedArea", str "Unknown")]) ;;
  ms <- field_or parsed "materials" (JArr []) ;;
  materials <- js_map ms toMaterial ;;
  ts <- field_or parsed "tools" (JArr []) ;;
  tools <- js_map ts toTool ;;
  steps <- field_or parsed "steps" (JArr []) ;;
  cureTimeNotes <- field_or parsed "cureTimeNotes" (str "") ;;
  warnings <- field_or parsed "warnings" (JArr []) ;;
  callAProIf <- field_or parsed "callAProIf" (JArr []) ;;
  youtubeSearchQuery <- field_or parsed "youtubeSearchQuery" (str "") ;;
  proType <- field_or parsed "proType" (str "") ;;
  sq <- get parsed "suggestedQuestions" ;;
  suggestedQuestions <-
    match sq with
    | JArr l => filterM keepQuestion l
    | _ => Ok []
    end ;;
  Ok {| needsMoreInfo := needsMoreInfo;
        questions := questions;
        summary := summary;
        confidence := confidence;
        confidenceLevel := confidenceLevel;
        problemShort := problemShort;
        diyFriendly := diyFriendly;
        difficulty := difficulty;
        estimatedTime := estimatedTime;
        estimatedCost := estimatedCost;
        proEstimate := proEstimate;
        immediateActions := immediateActions;
        damage := damage;
        materials := materials;
        tools := tools;
        steps := steps;
        cureTimeNotes := cureTimeNotes;
        warnings := warnings;
        callAProIf := callAProIf;
        youtubeSearchQuery := youtubeSearchQuery;
        proType := proType;
        suggestedQuestions := suggestedQuestions;
        followups := [];
        additionalPhotosNeeded := needsMoreInfo |}.

(** [text.match(/```json.../) || text.match(/\{...\}/)] *)
Definition jsonMatch (text : jsstring) : option MatchResult :=
  match str_match fence_re text 0 with
  | Some m => Some m
  | None => str_match brace_re text 0
  end.

(** [jsonMatch[1] || jsonMatch[0]]: an empty capture is falsy. *)
Definition jsonStr (m : MatchResult) : jsstring :=
  match m_1 m with
  | Some (c :: r) => c :: r
  | _ => m_0 m
  end.

(** Lines 336-409: the body of the [try] block once the response text is
    there. *)
Definition parseResponse (text : jsstring) : Exc AnalysisResult :=
  match jsonMatch text with
  | None => Throw (Error (lit "Failed to parse JSON from Gemini response"))
  | Some m =>
      parsed <- JSON.parse (jsonStr m) ;;
      normalize parsed
  end.

(** [try { ... } catch (error) { throw new Error('Failed to analyze
    images with AI') }]: every failure leaves as the same error. *)
Definition try_catch {A : Type} (body : Exc A) : Exc A :=
  match body with
  | Ok a => Ok a
  | Throw _ => Throw (Error (lit "Failed to analyze images with AI"))
  end.

(* ================================================================== *)
(** ** The prompt composer ([buildUserPrompt], lines 416-487) *)

(** Truthiness of an optional string property. *)
Definition present (o : option jsstring) : option jsstring :=
  match o with
  | Some (c :: r) => Some (c :: r)
  | _ => None
  end.

(** [metadata.conversationHistory && metadata.conversationHistory.length > 0] *)
Definition hasConversation (metadata : RepairMetadata) : bool :=
  match conversationHistory metadata with
  | Some (_ :: _) => true
  | _ => false
  end.

Definition history (metadata : RepairMetadata) : list QuestionAnswer :=
  match conversationHistory metadata with
  | Some h => h
  | None => []
  end.

(** [Math.ceil(n / 3)] for an array length [n]: the quotient of two
    integers below 2^32 is rounded to a double that lies on the same
    side of every integer, so the ceiling is that of the exact
    quotient. *)
Definition ceil_third (n : nat) : nat :=
  Z.to_nat (Qceiling (inject_Z (Z.of_nat n) / 3)).

Definition roundNumber (metadata : RepairMetadata) : nat :=
  if hasConversation metadata
  then ceil_third (List.length (history metadata)) + 1
  else 1.

Definition maxRounds : nat := 3.

(** One line when the attribute is truthy. *)
Definition line (label : jsstring) (o : option jsstring) : list jsstring :=
  match present o with
  | Some v => [label ++ v]
  | None => []
  end.

(** A line with an optional age in parentheses. *)
Definition aged_line (label : jsstring) (o age : option jsstring)
  : list jsstring :=
  match present o with
  | Some v =>
      [label ++ v ++ match present age with
                     | Some a => lit " (" ++ a ++ lit " old)"
                     | None => []
                     end]
  | None => []
  end.

Definition profileLines (profile : HomeProfile) : list jsstring :=
  line (lit "- Home Type: ") (homeType profile)
  ++ line (lit "- Year Built: ") (yearBuilt profile)
  ++ line (lit "- Pipe Type: ") (pipeType profile)
  ++ line (lit "- Water Heater: ") (waterHeaterType profile)
  ++ aged_line (lit "- HVAC: ") (hvacType profile) (hvacAge profile)
  ++ aged_line (lit "- Roof: ") (roofType profile) (roofAge profile)
  ++ line (lit "- Main Flooring: ") (mainFlooring profile).

(** [Object.keys(profile).length > 0] *)
Definition has_keys (p : HomeProfile) : bool :=
  existsb (fun o : option jsstring => match o with Some _ => true | None => false end)
    [email p; nickname p; homeType p; yearBuilt p; pipeType p;
     waterHeaterType p; hvacType p; hvacAge p; roofType p; roofAge p;
     mainFlooring p].

Definition profileSection (metadata : RepairMetadata) : jsstring :=
  match homeProfile metadata with
  | Some profile =>
      if has_keys profile then
        match profileLines profile with
        | [] => []
        | ls =>
            [nl] ++ lit "HOME PROFILE:" ++ [nl]
            ++ join [nl] ls ++ [nl]
            ++ lit "(Use this info to personalize advice - e.g., old galvanized pipes need different approach than PEX, older homes may have lead paint, etc.)"
            ++ [nl]
        end
      else []
  | None => []
  end.

(** [`Q: ${qa.question}\nA: ${qa.answer || "(skipped)"}`] *)
Definition qaLine (qa : QuestionAnswer) : jsstring :=
  lit "Q: " ++ qa_question qa ++ [nl] ++ lit "A: "
  ++ match qa_answer qa with
     | [] => lit "(skipped)"
     | a => a
     end.

Definition conversationSection (metadata : RepairMetadata) : jsstring :=
  if hasConversation metadata then
    [nl] ++ lit "PREVIOUS CONVERSATION:" ++ [nl]
    ++ join [nl; nl] (map qaLine (history metadata)) ++ [nl]
  else [].

Definition imageNote (hasImages : bool) : jsstring :=
  if hasImages then lit "(User provided photos)"
  else lit "(No photos provided)".

Definition finalInstruction (round : nat) : jsstring :=
  lit "This is round " ++ nat_to_string round ++ lit "/"
  ++ nat_to_string maxRounds
  ++ lit " (final). Provide your best analysis now based on all available information. Do NOT ask more questions.".

Definition continuationInstruction (round : nat) : jsstring :=
  lit "Round " ++ nat_to_string round ++ lit "/" ++ nat_to_string maxRounds
  ++ lit ". Review ALL information above (description + answers). Assess your DIAGNOSTIC CONFIDENCE based on how clearly you can identify the problem - not just because questions were answered. If the answers helped clarify the diagnosis, confidence should be higher. If answers were vague or unhelpful, confidence may still be low.".

Definition initialInstruction : jsstring :=
  lit "Round 1/" ++ nat_to_string maxRounds
  ++ lit ". Assess your diagnostic confidence. Can you identify the specific problem? If unclear, ask 2-3 questions to help diagnose.".

Definition instruction (metadata : RepairMetadata) : jsstring :=
  if (maxRounds <=? roundNumber metadata)%nat
  then finalInstruction (roundNumber metadata)
  else if hasConversation metadata
  then continuationInstruction (roundNumber metadata)
  else initialInstruction.

Definition buildUserPrompt (metadata : RepairMetadata) (hasImages : bool)
  : jsstring :=
  [nl] ++ lit "USER'S PROBLEM:" ++ [nl]
  ++ [dq] ++ description metadata ++ [dq] ++ [nl]
  ++ imageNote hasImages ++ [nl]
  ++ profileSection metadata ++ conversationSection metadata ++ [nl]
  ++ lit "---" ++ [nl]
  ++ instruction metadata ++ [nl]
  ++ [nl]
  ++ lit "Base your confidence on DIAGNOSTIC CLARITY - how well you can identify and fix the problem."
  ++ [nl].

(* ================================================================== *)
(** ** The engine ([analyzeRepair], lines 305-414) *)

(** One part of a generation request. *)
Inductive Part : Type :=
| TextPart (text : jsstring)
| InlineData (data : jsstring) (mimeType : jsstring).

Section Engine.

(** The fixed instruction text of lines 183-303. *)
Variable SYSTEM_PROMPT : jsstring.

(** [buffer.toString('base64')] *)
Variable Buffer : Type.
Variable base64 : Buffer -> jsstring.

(** The generation call [model.generateContent(parts)] followed by
    [response.text()]: it returns text or throws. *)
Variable generateContent : list Part -> Exc jsstring.

(** [process.env.GEMINI_API_KEY] *)
Variable GEMINI_API_KEY : option jsstring.

(** [getGenAI]: [genAI] tells whether the client was created before;
    returns whether it is afterwards. *)
Definition getGenAI (genAI : bool) : Exc bool :=
  if genAI then Ok true
  else match present GEMINI_API_KEY with
       | Some _ => Ok true
       | None =>
           Throw (Error (lit "GEMINI_API_KEY environment variable is not set"))
       end.

Fixpoint imageParts (imageBuffers : list Buffer)
    (imageMimeTypes : list jsstring) (index : nat) : list Part :=
  match imageBuffers with
  | [] => []
  | buffer :: rest =>
      InlineData (base64 buffer)
        (match present (nth_error imageMimeTypes index) with
         | Some t => t
         | None => lit "image/jpeg"
         end)
      :: imageParts rest imageMimeTypes (S index)
  end.

(** [analyzeRepair] on metadata of the declared type: the state of the
    lazily created client after the call, and the result or the error
    thrown.  [Untyped.analyzeRepair] below takes the metadata as the
    route passes it. *)
Definition analyzeRepair (genAI : bool) (imageBuffers : list Buffer)
    (imageMimeTypes : list jsstring) (metadata : RepairMetadata)
  : bool * Exc AnalysisResult :=
  match getGenAI genAI with
  | Throw e => (genAI, Throw e)
  | Ok genAI' =>
      let hasImages := (0 <? List.length imageBuffers)%nat in
      let userPrompt := buildUserPrompt metadata hasImages in
      let parts :=
        [TextPart SYSTEM_PROMPT]
        ++ imageParts imageBuffers imageMimeTypes 0
        ++ [TextPart userPrompt] in
      (genAI',
       try_catch (text <- generateContent parts ;; parseResponse text))
  end.

End Engine.

(* ================================================================== *)
(** ** The chat responder ([services/chatService.ts]) *)

(** ['user' | 'assistant'] *)
Inductive ChatRole : Type := role_user | role_assistant.

Record ChatMessageDTO : Type := {
  msg_role : ChatRole;
  msg_content : jsstring
}.

Record AnalysisContext : Type := {
  ctx_problemShort : jsstring;
  ctx_summary : jsstring;
  ctx_materials : list jsstring;
  ctx_tools : list jsstring;
  ctx_steps : list jsstring;
  ctx_warnings : list jsstring
}.

(** [xs.map((x, i) => f(x, i))], [i] counting from [start]. *)
Fixpoint map_index {A B : Type} (f : A -> nat -> B) (l : list A) (start : nat)
  : list B :=
  match l with
  | [] => []
  | x :: r => f x start :: map_index f r (S start)
  end.

(** [`${i + 1}. ${s}`] *)
Definition numberedStep (s : jsstring) (i : nat) : jsstring :=
  nat_to_string (i + 1) ++ lit ". " ++ s.

(** One part when the text is truthy. *)
Definition textPart (label : jsstring) (text : jsstring) : list jsstring :=
  match text with
  | [] => []
  | _ => [label ++ text]
  end.

(** One part when the list is there and not empty. *)
Definition listPart (label : jsstring) (sep : jsstring)
    (items : list jsstring) : list jsstring :=
  match items with
  | [] => []
  | _ => [label ++ join sep items]
  end.

Definition analysisParts (context : AnalysisContext) : list jsstring :=
  textPart (lit "Problem: ") (ctx_problemShort context)
  ++ textPart (lit "Summary: ") (ctx_summary context)
  ++ listPart (lit "Materials needed: ") (lit ", ") (ctx_materials context)
  ++ listPart (lit "Tools needed: ") (lit ", ") (ctx_tools context)
  ++ listPart (lit "Steps: ") (lit " ")
       (map_index numberedStep (ctx_steps context) 0)
  ++ listPart (lit "Warnings: ") (lit "; ") (ctx_warnings context).

Definition buildAnalysisSection (context : AnalysisContext) : jsstring :=
  join [nl] (analysisParts context).

(** [`${role}: ${msg.content}`] *)
Definition historyLine (msg : ChatMessageDTO) : jsstring :=
  match msg_role msg with
  | role_user => lit "User"
  | role_assistant => lit "You"
  end ++ lit ": " ++ msg_content msg.

Definition buildHistorySection (history : list ChatMessageDTO) : jsstring :=
  match history with
  | [] => []
  | _ =>
      lit "CONVERSATION SO FAR:" ++ [nl]
      ++ join [nl] (map historyLine history) ++ [nl]
  end.

Section Chat.

(** The fixed instruction text of lines 31-46. *)
Variable CHAT_SYSTEM_PROMPT : jsstring.

(** [model.generateContent(prompt)] followed by [response.text()]. *)
Variable generateText : jsstring -> Exc jsstring.

(** [process.env.GEMINI_API_KEY]; the module has its own copy of
    [getGenAI], with the text of the engine's. *)
Variable GEMINI_API_KEY : option jsstring.

Definition chatPrompt (originalDescription : jsstring)
    (analysisContext : AnalysisContext)
    (conversationHistory : list ChatMessageDTO) (newMessage : jsstring)
  : jsstring :=
  CHAT_SYSTEM_PROMPT ++ [nl] ++ [nl]
  ++ lit "---" ++ [nl] ++ [nl]
  ++ lit "ORIGINAL PROBLEM:" ++ [nl]
  ++ [dq] ++ originalDescription ++ [dq] ++ [nl] ++ [nl]
  ++ lit "ANALYSIS YOU PROVIDED:" ++ [nl]
  ++ buildAnalysisSection analysisContext ++ [nl] ++ [nl]
  ++ buildHistorySection conversationHistory ++ [nl] ++ [nl]
  ++ lit "USER'S NEW QUESTION:" ++ [nl]
  ++ [dq] ++ newMessage ++ [dq] ++ [nl] ++ [nl]
  ++ lit "Respond helpfully and conversationally:".

(** [chatWithExpert] on arguments of the declared types: the state of
    the lazily created client after the call, and the trimmed response
    or the error thrown.  [Untyped.chatWithExpert] below takes the
    arguments as the route passes them. *)
Definition chatWithExpert (genAI : bool) (originalDescription : jsstring)
    (analysisContext : AnalysisContext)
    (conversationHistory : list ChatMessageDTO) (newMessage : jsstring)
  : bool * Exc jsstring :=
  match getGenAI GEMINI_API_KEY genAI with
  | Throw e => (genAI, Throw e)
  | Ok genAI' =>
      let prompt := chatPrompt originalDescription analysisContext
                      conversationHistory newMessage in
      (genAI',
       match (text <- generateText prompt ;; Ok (trim text)) with
       | Ok t => Ok t
       | Throw _ => Throw (Error (lit "Failed to get chat response"))
       end)
  end.

End Chat.

(* ================================================================== *)
(** ** The client key of the rate limiter and the request log
       ([middleware/rateLimiter.ts], [middleware/logger.ts]) *)

(** [s.split(',')[0]]: what comes before the first comma. *)
Fixpoint before_comma (s : jsstring) : jsstring :=
  match s with
  | [] => []
  | c :: r => if (c =? 44)%N then [] else c :: before_comma r
  end.

(** [(req.headers['x-forwarded-for'] as string)?.split(',')[0]?.trim()
    || req.ip || 'unknown'] *)
Definition clientKey (forwardedFor ip : option jsstring) : jsstring :=
  match present (option_map (fun h => trim (before_comma h)) forwardedFor) with
  | Some k => k
  | None =>
      match present ip with
      | Some a => a
      | None => lit "unknown"
      end
  end.

(* ================================================================== *)
(** ** Image checks and processing ([utils/imageUtils.ts]) *)

(** [a * b] on Numbers: the exact product rounded to binary64. *)
Definition num_mul (a b : number) : number :=
  match a, b with
  | NaN, _ | _, NaN => NaN
  | Fin x, Fin y => double_of_Q (x * y)
  | Fin x, PInf | PInf, Fin x =>
      if Qeq_bool x 0 then NaN else if Qle_bool 0 x then PInf else NInf
  | Fin x, NInf | NInf, Fin x =>
      if Qeq_bool x 0 then NaN else if Qle_bool 0 x then NInf else PInf
  | PInf, PInf | NInf, NInf => PInf
  | PInf, NInf | NInf, PInf => NInf
  end.

(** [a <= b] *)
Definition num_le (a b : number) : bool := num_ge b a.

(** A byte count as a Number. *)
Definition num_of_N (n : N) : number := Fin (inject_Z (Z.of_N n)).

Definition n20 : number := Fin 20.
Definition n1024 : number := Fin 1024.

(** [isValidFileSize(sizeBytes, maxMB = 20)]: [None] is an argument
    left out. *)
Definition isValidFileSize (sizeBytes : number) (maxMB : option number)
  : bool :=
  let maxMB := match maxMB with Some m => m | None => n20 end in
  num_le sizeBytes (num_mul (num_mul maxMB n1024) n1024).

Definition validTypes : list jsstring :=
  [lit "image/jpeg"; lit "image/jpg"; lit "image/png"; lit "image/webp";
   lit "image/heic"; lit "image/heif"].

Definition MAX_DIMENSION : nat := 1600.
Definition JPEG_QUALITY : nat := 75.

(** The calls made on a [sharp] pipeline. *)
Inductive SharpOp : Type :=
| OpRotate
| OpResizeInside (width height : nat)   (* fit inside, withoutEnlargement *)
| OpJpeg (quality : nat).               (* mozjpeg *)

(** What a handler sends: the status and the body, without its
    timestamp. *)
Record Response (D : Type) : Type := {
  res_status : nat;
  res_success : bool;
  res_error : option jsstring;
  res_data : option D
}.

Arguments res_status {D} _.
Arguments res_success {D} _.
Arguments res_error {D} _.
Arguments res_data {D} _.

Definition failure {D : Type} (status : nat) (message : jsstring)
  : Response D :=
  {| res_status := status; res_success := false;
     res_error := Some message; res_data := None |}.

Definition sent {D : Type} (d : D) : Response D :=
  {| res_status := 200%nat; res_success := true;
     res_error := None; res_data := Some d |}.

Section ImageUtils.

(** [String.prototype.toLowerCase] *)
Variable toLowerCase : jsstring -> jsstring.

Definition isValidImageType (mimeType : jsstring) : bool :=
  existsb (str_eqb (toLowerCase mimeType)) validTypes.

Variable Buffer : Type.

(** [sharp(buffer).metadata()], as the width and height it reports. *)
Variable sharp_metadata : Buffer -> Exc (option nat * option nat).

(** [pipeline. ... .toBuffer()] for the calls made on the pipeline. *)
Variable sharp_toBuffer : list SharpOp -> Buffer -> Exc Buffer.

Record ProcessedImage : Type := {
  img_buffer : Buffer;
  img_mimeType : jsstring
}.

(** The pipeline [processImage] builds for an image of the reported
    size; a missing dimension counts as 0. *)
Definition pipelineOps (size : option nat * option nat) : list SharpOp :=
  let width := match fst size with Some w => w | None => 0%nat end in
  let height := match snd size with Some h => h | None => 0%nat end in
  let maxDim := Nat.max width height in
  [OpRotate]
  ++ (if (MAX_DIMENSION <? maxDim)%nat
      then [OpResizeInside MAX_DIMENSION MAX_DIMENSION]
      else [])
  ++ [OpJpeg JPEG_QUALITY].

Definition processImage (buffer : Buffer) : Exc ProcessedImage :=
  match (metadata <- sharp_metadata buffer ;;
         processedBuffer <- sharp_toBuffer (pipelineOps metadata) buffer ;;
         Ok {| img_buffer := processedBuffer;
               img_mimeType := lit "image/jpeg" |}) with
  | Ok p => Ok p
  | Throw _ => Throw (Error (lit "Failed to process image"))
  end.

(* ------------------------------------------------------------------ *)
(** *** The analyze endpoint ([routes/analyze.ts]) *)

Record UploadedFile : Type := {
  file_mimetype : jsstring;
  file_size : N;
  file_buffer : Buffer
}.

(** The loop over the files: the response for the first file that fails
    a check, its type before its size. *)
Fixpoint validateFiles {D : Type} (files : list UploadedFile)
  : option (Response D) :=
  match files with
  | [] => None
  | file :: rest =>
      if negb (isValidImageType (file_mimetype file)) then
        Some (failure 400
                (lit "Invalid file type: " ++ file_mimetype file
                 ++ lit ". Only images are allowed."))
      else if negb (isValidFileSize (num_of_N (file_size file)) None) then
        Some (failure 400 (lit "File too large. Maximum 20MB per image."))
      else validateFiles rest
  end.

(** [v.trim()]: only a string has the method. *)
Definition js_trim (v : JsValue) : Exc jsstring :=
  match v with
  | JStr s => Ok (trim s)
  | _ => Throw TypeError
  end.

(** [!v || v.trim().length === 0] *)
Definition blank (v : JsValue) : Exc bool :=
  if truthy v then
    t <- js_trim v ;;
    Ok (match t with [] => true | _ => false end)
  else Ok true.

(** [analyzeRepair], as the handler calls it: with the metadata as
    parsed. *)
Variable analyzeRepair_call :
  list Buffer -> list jsstring -> JsValue -> Exc AnalysisResult.

(** The handler of [POST /analyze], for the files multer hands over
    ([None]: no [req.files]) and the [metadata] field of the form
    ([None]: no such field). *)
Definition analyzeHandler (files : option (list UploadedFile))
    (metadataStr : option jsstring) : Response AnalysisResult :=
  let fs := match files with Some l => l | None => [] end in
  if (4 <? List.length fs)%nat then
    failure 400 (lit "Maximum 4 images allowed")
  else
    match validateFiles fs with
    | Some r => r
    | None =>
        match JSON.parse (match metadataStr with
                          | Some s => s
                          | None => lit "undefined"
                          end) with
        | Throw _ => failure 400 (lit "Invalid metadata format")
        | Ok metadata =>
            match (d <- get metadata "description" ;;
                   b <- blank d ;;
                   if b then Ok (failure 400 (lit "Description is required"))
                   else
                     processedImages <-
                       mapM (fun file => processImage (file_buffer file)) fs ;;
                     result <- analyzeRepair_call
                                 (map img_buffer processedImages)
                                 (map img_mimeType processedImages)
                                 metadata ;;
                     Ok (sent result)) with
            | Ok r => r
            | Throw _ => failure 500 (lit "Analysis failed. Please try again.")
            end
        end
    end.

End ImageUtils.

Arguments img_buffer {Buffer} _.
Arguments img_mimeType {Buffer} _.
Arguments file_mimetype {Buffer} _.
Arguments file_size {Buffer} _.
Arguments file_buffer {Buffer} _.
Arguments processImage {Buffer} _ _ _.
Arguments validateFiles _ {Buffer D} _.
Arguments analyzeHandler _ {Buffer} _ _ _ _ _.

(* ================================================================== *)
(** ** The chat endpoint ([routes/chat.ts]) *)

Section ChatRoute.

(** [chatWithExpert], as the handler calls it: with the fields of the
    body as they came. *)
Variable chatWithExpert_call :
  JsValue -> JsValue -> JsValue -> JsValue -> Exc jsstring.


End ChatRoute.

(* ================================================================== *)
(** ** The database switch ([database/db.ts], [routes/users.ts]) *)

(** The module variables [pool] (created or not) and [dbEnabled]. *)
Record DbState : Type := {
  pool : bool;
  dbEnabled : bool
}.

Definition db_initial : DbState := {| pool := false; dbEnabled := true |}.

(** [isDatabaseEnabled()] for the value of [process.env.DB_HOST]. *)
Definition isDatabaseEnabled (DB_HOST : option jsstring) (st : DbState)
  : bool :=
  dbEnabled st && match present DB_HOST with Some _ => true | None => false end.

(** [getPool()]: the state afterwards, and whether it returned the pool
    or threw.  [mysql.createPool] only records its options; connections
    are opened when a statement is executed. *)
Definition getPool (DB_HOST : option jsstring) (st : DbState)
  : DbState * Exc unit :=
  match present DB_HOST with
  | None =>
      ({| pool := pool st; dbEnabled := false |},
       Throw (Error (lit "Database not configured")))
  | Some _ => ({| pool := true; dbEnabled := dbEnabled st |}, Ok tt)
  end.

(** [testConnection()], [ping] being the outcome of
    [db.execute('SELECT 1')]. *)
Definition testConnection (DB_HOST : option jsstring) (ping : Exc unit)
    (st : DbState) : DbState * bool :=
  match getPool DB_HOST st with
  | (st', Ok _) => (st', match ping with Ok _ => true | Throw _ => false end)
  | (st', Throw _) => (st', false)
  end.

(** The [database] field of [GET /health]. *)
Definition healthDatabase (DB_HOST : option jsstring) (ping : Exc unit)
    (st : DbState) : DbState * jsstring :=
  if isDatabaseEnabled DB_HOST st then
    let (st', dbConnected) := testConnection DB_HOST ping st in
    (st', if dbConnected then lit "connected" else lit "disconnected")
  else (st, lit "disabled").

(** The middleware [requireDatabase]: the response it sends instead of
    calling [next], if any. *)
Definition requireDatabase (DB_HOST : option jsstring) (st : DbState)
  : option (Response unit) :=
  if isDatabaseEnabled DB_HOST st then None
  else Some (failure 503
               (lit "Database not configured. User features are disabled.")).

(* ================================================================== *)
(** ** The two services on values as they arrive

    The routes hand [analyzeRepair] and [chatWithExpert] what
    [JSON.parse] and the body parser returned, without checking it
    against the declared types.  Here the two functions are taken on
    arbitrary values, with the coercions and the errors of the
    language: reading a property of [undefined] or [null], calling a
    method a value does not have and converting an object that hides
    [toString] throw a TypeError. *)

Module Untyped.

(** [a / d] for a positive integer literal [d]. *)
Definition num_div (a : number) (d : positive) : number :=
  match a with
  | Fin q => double_of_Q (q / inject_Z (Zpos d))
  | other => other
  end.

(** [Math.ceil] *)
Definition Math_ceil (a : number) : number :=
  match a with
  | Fin q => Fin (inject_Z (Qceiling q))
  | other => other
  end.

(** [a + b] *)
Definition num_add (a b : number) : number :=
  match a, b with
  | NaN, _ | _, NaN => NaN
  | PInf, NInf | NInf, PInf => NaN
  | PInf, _ | _, PInf => PInf
  | NInf, _ | _, NInf => NInf
  | Fin x, Fin y => double_of_Q (x + y)
  end.

(** [v.length > 0] *)
Definition length_positive (v : JsValue) : Exc bool :=
  len <- get v "length" ;;
  n <- toNumber len ;;
  Ok (num_gt n n0).

(** [v && v.length > 0], as a condition. *)
Definition nonempty (v : JsValue) : Exc bool :=
  if truthy v then length_positive v else Ok false.

(** [Object.keys(v).length]: the own properties of an object, the
    indices of an array or of a string. *)
Definition keys_length (v : JsValue) : Exc nat :=
  match v with
  | JUndefined | JNull => Throw TypeError
  | JObj props => Ok (List.length props)
  | JArr l => Ok (List.length l)
  | JStr s => Ok (List.length s)
  | JBool _ | JNum _ => Ok 0%nat
  end.

(** [xs.map((x, i) => f(x, i))] on a value: only an array has a
    callable [map]. *)
Fixpoint mapM_index {B : Type} (f : JsValue -> nat -> Exc B)
    (l : list JsValue) (start : nat) : Exc (list B) :=
  match l with
  | [] => Ok []
  | x :: r => y <- f x start ;; ys <- mapM_index f r (S start) ;; Ok (y :: ys)
  end.

Definition js_map_index {B : Type} (v : JsValue)
    (f : JsValue -> nat -> Exc B) : Exc (list B) :=
  match v with
  | JArr l => mapM_index f l 0
  | _ => Throw TypeError
  end.

(** The strings of the elements of an array being joined: [undefined]
    and [null] give the empty string. *)
Definition elements (toString : JsValue -> Exc jsstring)
  : list JsValue -> Exc (list jsstring) :=
  fix items (l : list JsValue) : Exc (list jsstring) :=
    match l with
    | [] => Ok []
    | x :: r =>
        s <- match x with
             | JUndefined | JNull => Ok []
             | _ => toString x
             end ;;
        ss <- items r ;;
        Ok (s :: ss)
    end.

Section Coercions.

(** [Number::toString], for the Numbers that are no natural number
    below 2^53. *)
Variable Number_toString : number -> jsstring.

(** ToString of a Number: a natural number below 2^53 is printed in
    its decimal digits. *)
Definition number_to_string (n : number) : jsstring :=
  match n with
  | Fin q =>
      let r := Qred q in
      if (Zpos (Qden r) =? 1)%Z && (0 <=? Qnum r)%Z
         && (Qnum r <? 2 ^ 53)%Z
      then nat_to_string (Z.to_nat (Qnum r))
      else Number_toString n
  | _ => Number_toString n
  end.

(** ToString, as a template literal applies it.  An array goes through
    its [join] with a comma; an object gives "[object Object]" unless
    an own property hides [toString], and a parsed property is never
    callable. *)
Fixpoint ToString (v : JsValue) : Exc jsstring :=
  match v with
  | JUndefined => Ok (lit "undefined")
  | JNull => Ok (lit "null")
  | JBool b => Ok (if b then lit "true" else lit "false")
  | JNum n => Ok (number_to_string n)
  | JStr s => Ok s
  | JArr l => ss <- elements ToString l ;; Ok (join (lit ",") ss)
  | JObj props =>
      if has_key "toString" props then Throw TypeError
      else Ok (lit "[object Object]")
  end.

(** [v.join(sep)]: only an array has a callable [join]. *)
Definition js_join (v : JsValue) (sep : jsstring) : Exc jsstring :=
  match v with
  | JArr l => ss <- elements ToString l ;; Ok (join sep ss)
  | _ => Throw TypeError
  end.

(* ------------------------------------------------------------------ *)
(** *** [buildUserPrompt] *)

(** [if (profile.k) profileLines.push(`label${profile.k}`)] *)
Definition line (label : jsstring) (profile : JsValue) (k : string)
  : Exc (list jsstring) :=
  v <- get profile k ;;
  if truthy v then s <- ToString v ;; Ok [label ++ s] else Ok [].

(** A line with an optional age in parentheses. *)
Definition aged_line (label : jsstring) (profile : JsValue) (k age : string)
  : Exc (list jsstring) :=
  v <- get profile k ;;
  if truthy v then
    s <- ToString v ;;
    a <- get profile age ;;
    t <- (if truthy a
          then x <- ToString a ;; Ok (lit " (" ++ x ++ lit " old)")
          else Ok []) ;;
    Ok [label ++ s ++ t]
  else Ok [].

Definition profileLines (profile : JsValue) : Exc (list jsstring) :=
  l1 <- line (lit "- Home Type: ") profile "homeType" ;;
  l2 <- line (lit "- Year Built: ") profile "yearBuilt" ;;
  l3 <- line (lit "- Pipe Type: ") profile "pipeType" ;;
  l4 <- line (lit "- Water Heater: ") profile "waterHeaterType" ;;
  l5 <- aged_line (lit "- HVAC: ") profile "hvacType" "hvacAge" ;;
  l6 <- aged_line (lit "- Roof: ") profile "roofType" "roofAge" ;;
  l7 <- line (lit "- Main Flooring: ") profile "mainFlooring" ;;
  Ok (l1 ++ l2 ++ l3 ++ l4 ++ l5 ++ l6 ++ l7).

Definition profileSection (metadata : JsValue) : Exc jsstring :=
  profile <- get metadata "homeProfile" ;;
  if truthy profile then
    n <- keys_length profile ;;
    if (0 <? n)%nat then
      ls <- profileLines profile ;;
      match ls with
      | [] => Ok []
      | _ =>
          Ok ([nl] ++ lit "HOME PROFILE:" ++ [nl]
              ++ join [nl] ls ++ [nl]
              ++ lit "(Use this info to personalize advice - e.g., old galvanized pipes need different approach than PEX, older homes may have lead paint, etc.)"
              ++ [nl])
      end
    else Ok []
  else Ok [].

(** [`Q: ${qa.question}\nA: ${qa.answer || "(skipped)"}`] *)
Definition qaLine (qa : JsValue) : Exc jsstring :=
  q <- get qa "question" ;;
  qs <- ToString q ;;
  a <- get qa "answer" ;;
  ans <- ToString (or_else a (str "(skipped)")) ;;
  Ok (lit "Q: " ++ qs ++ [nl] ++ lit "A: " ++ ans).

Definition conversationSection (history : JsValue) (hasConversation : bool)
  : Exc jsstring :=
  if hasConversation then
    blocks <- js_map history qaLine ;;
    Ok ([nl] ++ lit "PREVIOUS CONVERSATION:" ++ [nl]
        ++ join [nl; nl] blocks ++ [nl])
  else Ok [].

(** [hasConversation ? Math.ceil(history.length / 3) + 1 : 1] *)
Definition roundNumber (history : JsValue) (hasConversation : bool)
  : Exc number :=
  if hasConversation then
    len <- get history "length" ;;
    n <- toNumber len ;;
    Ok (num_add (Math_ceil (num_div n 3)) n1)
  else Ok n1.

Definition instruction (roundNumber : number) (hasConversation : bool)
  : jsstring :=
  if num_ge roundNumber (num_of_nat maxRounds) then
    lit "This is round " ++ number_to_string roundNumber ++ lit "/"
    ++ nat_to_string maxRounds
    ++ lit " (final). Provide your best analysis now based on all available information. Do NOT ask more questions."
  else if hasConversation then
    lit "Round " ++ number_to_string roundNumber ++ lit "/"
    ++ nat_to_string maxRounds
    ++ lit ". Review ALL information above (description + answers). Assess your DIAGNOSTIC CONFIDENCE based on how clearly you can identify the problem - not just because questions were answered. If the answers helped clarify the diagnosis, confidence should be higher. If answers were vague or unhelpful, confidence may still be low."
  else initialInstruction.

(** Lines 416-487 in the order they run. *)
Definition buildUserPrompt (metadata : JsValue) (hasImages : bool)
  : Exc jsstring :=
  history <- get metadata "conversationHistory" ;;
  hasConversation <- nonempty history ;;
  roundNumber <- roundNumber history hasConversation ;;
  profileSection <- profileSection metadata ;;
  conversationSection <- conversationSection history hasConversation ;;
  description <- get metadata "description" ;;
  description <- ToString description ;;
  Ok ([nl] ++ lit "USER'S PROBLEM:" ++ [nl]
      ++ [dq] ++ description ++ [dq] ++ [nl]
      ++ imageNote hasImages ++ [nl]
      ++ profileSection ++ conversationSection ++ [nl]
      ++ lit "---" ++ [nl]
      ++ instruction roundNumber hasConversation ++ [nl]
      ++ [nl]
      ++ lit "Base your confidence on DIAGNOSTIC CLARITY - how well you can identify and fix the problem."
      ++ [nl]).

(* ------------------------------------------------------------------ *)
(** *** [buildAnalysisSection] and [buildHistorySection] *)

(** [if (context.k) parts.push(`label${context.k}`)] *)
Definition textPart (label : jsstring) (context : JsValue) (k : string)
  : Exc (list jsstring) :=
  v <- get context k ;;
  if truthy v then s <- ToString v ;; Ok [label ++ s] else Ok [].

(** [if (context.k && context.k.length > 0)
     parts.push(`label${context.k.join(sep)}`)] *)
Definition listPart (label sep : jsstring) (context : JsValue) (k : string)
  : Exc (list jsstring) :=
  v <- get context k ;;
  b <- nonempty v ;;
  if b then s <- js_join v sep ;; Ok [label ++ s] else Ok [].

(** [`${i + 1}. ${s}`] *)
Definition numberedStep (s : JsValue) (i : nat) : Exc jsstring :=
  t <- ToString s ;;
  Ok (nat_to_string (i + 1) ++ lit ". " ++ t).

Definition stepsPart (context : JsValue) : Exc (list jsstring) :=
  v <- get context "steps" ;;
  b <- nonempty v ;;
  if b then
    items <- js_map_index v numberedStep ;;
    Ok [lit "Steps: " ++ join (lit " ") items]
  else Ok [].

Definition buildAnalysisSection (context : JsValue) : Exc jsstring :=
  p1 <- textPart (lit "Problem: ") context "problemShort" ;;
  p2 <- textPart (lit "Summary: ") context "summary" ;;
  p3 <- listPart (lit "Materials needed: ") (lit ", ") context "materials" ;;
  p4 <- listPart (lit "Tools needed: ") (lit ", ") context "tools" ;;
  p5 <- stepsPart context ;;
  p6 <- listPart (lit "Warnings: ") (lit "; ") context "warnings" ;;
  Ok (join [nl] (p1 ++ p2 ++ p3 ++ p4 ++ p5 ++ p6)).

(** [v === 0] *)
Definition is_zero (v : JsValue) : bool :=
  match v with
  | JNum (Fin q) => Qeq_bool q 0
  | _ => false
  end.

(** [v === 'user'] *)
Definition is_user (v : JsValue) : bool :=
  match v with
  | JStr s => str_eqb s (lit "user")
  | _ => false
  end.

Definition historyLine (msg : JsValue) : Exc jsstring :=
  r <- get msg "role" ;;
  c <- get msg "content" ;;
  cs <- ToString c ;;
  Ok ((if is_user r then lit "User" else lit "You") ++ lit ": " ++ cs).

Definition buildHistorySection (history : JsValue) : Exc jsstring :=
  if negb (truthy history) then Ok []
  else
    len <- get history "length" ;;
    if is_zero len then Ok []
    else
      lines <- js_map history historyLine ;;
      Ok (lit "CONVERSATION SO FAR:" ++ [nl] ++ join [nl] lines ++ [nl]).

End Coercions.

(* ------------------------------------------------------------------ *)
(** *** The two services *)

Section Services.

Variable Number_toString : number -> jsstring.

(** The library functions and constants, as for the typed services. *)
Variable SYSTEM_PROMPT : jsstring.
Variable Buffer : Type.
Variable base64 : Buffer -> jsstring.
Variable generateContent : list Part -> Exc jsstring.
Variable CHAT_SYSTEM_PROMPT : jsstring.
Variable generateText : jsstring -> Exc jsstring.
Variable GEMINI_API_KEY : option jsstring.

(** [analyzeRepair]: the client and the prompt are made before the
    [try] block is entered. *)
Definition analyzeRepair (genAI : bool) (imageBuffers : list Buffer)
    (imageMimeTypes : list jsstring) (metadata : JsValue)
  : bool * Exc AnalysisResult :=
  match getGenAI GEMINI_API_KEY genAI with
  | Throw e => (genAI, Throw e)
  | Ok genAI' =>
      let hasImages := (0 <? List.length imageBuffers)%nat in
      match buildUserPrompt Number_toString metadata hasImages with
      | Throw e => (genAI', Throw e)
      | Ok userPrompt =>
          let parts :=
            [TextPart SYSTEM_PROMPT]
            ++ imageParts Buffer base64 imageBuffers imageMimeTypes 0
            ++ [TextPart userPrompt] in
          (genAI',
           try_catch (text <- generateContent parts ;; parseResponse text))
      end
  end.

(** Lines 56-76 of [chatWithExpert]: the two sections, then the
    template. *)
Definition chatPrompt (originalDescription analysisContext
    conversationHistory newMessage : JsValue) : Exc jsstring :=
  analysisSection <- buildAnalysisSection Number_toString analysisContext ;;
  historySection <- buildHistorySection Number_toString conversationHistory ;;
  originalDescription <- ToString Number_toString originalDescription ;;
  newMessage <- ToString Number_toString newMessage ;;
  Ok (CHAT_SYSTEM_PROMPT ++ [nl] ++ [nl]
      ++ lit "---" ++ [nl] ++ [nl]
      ++ lit "ORIGINAL PROBLEM:" ++ [nl]
      ++ [dq] ++ originalDescription ++ [dq] ++ [nl] ++ [nl]
      ++ lit "ANALYSIS YOU PROVIDED:" ++ [nl]
      ++ analysisSection ++ [nl] ++ [nl]
      ++ historySection ++ [nl] ++ [nl]
      ++ lit "USER'S NEW QUESTION:" ++ [nl]
      ++ [dq] ++ newMessage ++ [dq] ++ [nl] ++ [nl]
      ++ lit "Respond helpfully and conversationally:").

(** [chatWithExpert]: the client and the prompt are made before the
    [try] block is entered. *)
Definition chatWithExpert (genAI : bool) (originalDescription analysisContext
    conversationHistory newMessage : JsValue) : bool * Exc jsstring :=
  match getGenAI GEMINI_API_KEY genAI with
  | Throw e => (genAI, Throw e)
  | Ok genAI' =>
      match chatPrompt originalDescription analysisContext
              conversationHistory newMessage with
      | Throw e => (genAI', Throw e)
      | Ok prompt =>
          (genAI',
           match (text <- generateText prompt ;; Ok (trim text)) with
           | Ok t => Ok t
           | Throw _ => Throw (Error (lit "Failed to get chat response"))
           end)
      end
  end.

End Services.

End Untyped.

(* ================================================================== *)
(** ** Vocabulary of the statements *)

(** The computation returns, and what it returns satisfies [P]. *)
Definition returns {A : Type} (m : Exc A) (P : A -> Prop) : Prop :=
  match m with
  | Ok a => P a
  | Throw _ => False
  end.

Definition throws {A : Type} (m : Exc A) : Prop :=
  match m with
  | Ok _ => False
  | Throw _ => True
  end.

(** Text written with an apostrophe wherever the text meant has a double
    quote. *)
Definition quoted (s : string) : jsstring :=
  map (fun c => if (c =? 39)%N then dq else c) (lit s).

(** The text has a fenced block labelled as JSON. *)
Definition fenced (text : jsstring) : Prop :=
  exists a b c, text = a ++ lit "```json" ++ b ++ lit "```" ++ c.

(** The text has an opening brace with a closing brace after it. *)
Definition braced (text : jsstring) : Prop :=
  exists a b c, text = a ++ lit "{" ++ b ++ lit "}" ++ c.

(** The words a pattern denotes, as the prefixes of [s] it accepts. *)
Fixpoint accepts (p : list rx) (s : jsstring) : Prop :=
  match p with
  | [] => True
  | Chr c :: p' => exists s', s = c :: s' /\ accepts p' s'
  | StarGreedy cls :: p' | StarLazy cls :: p' =>
      exists w s', s = w ++ s' /\ forallb cls w = true /\ accepts p' s'
  | GroupOpen :: p' | GroupClose :: p' => accepts p' s
  end.

(** The clamped confidence is a number between 0 and 1. *)
Definition in_unit_interval (n : number) : Prop :=
  num_ge n n0 = true /\ num_ge n1 n = true.

(** A parser step that does not throw has used up part of its input,
    and the only error a parser throws is a SyntaxError. *)
Definition consumed {A : Type} (s : jsstring) (m : Exc (A * jsstring)) : Prop :=
  match m with
  | Ok (_, r) => (List.length r < List.length s)%nat
  | Throw e => e = SyntaxError
  end.

Definition consumed_opt {A : Type} (s : jsstring)
    (m : option (Exc (A * jsstring))) : Prop :=
  match m with
  | Some x => consumed s x
  | None => True
  end.

(** The only error the computation can throw is a TypeError. *)
Definition type_errors {A : Type} (m : Exc A) : Prop :=
  forall e, m = Throw e -> e = TypeError.

(** The shapes the mapping of the normalizer expects of the fields it
    traverses, where the model output has them: a numeric confidence,
    arrays of objects for questions and materials, an array of strings
    or objects for tools, an array of strings for suggestedQuestions. *)
Definition is_object (v : JsValue) : bool :=
  match v with
  | JObj _ => true
  | _ => false
  end.

Definition is_number (v : JsValue) : bool :=
  match v with
  | JNum _ => true
  | _ => false
  end.

Definition array_of (P : JsValue -> bool) (v : JsValue) : bool :=
  match v with
  | JArr l => forallb P l
  | _ => false
  end.

Definition shaped (k : string) (P : JsValue -> bool)
    (props : list (jsstring * JsValue)) : bool :=
  match lookup (lit k) props with
  | Some v => P v
  | None => true
  end.

Definition well_shaped (props : list (jsstring * JsValue)) : bool :=
  shaped "confidence" is_number props
  && shaped "questions" (array_of is_object) props
  && shaped "materials" (array_of is_object) props
  && shaped "tools" (array_of (fun t => is_string t || is_object t)) props
  && shaped "suggestedQuestions" (array_of is_string) props.

(** Sample inputs. *)
Definition low_confidence_text : jsstring :=
  quoted "{'confidence':0.4,'summary':'Water under the sink'}".

Definition incomplete_object : jsstring :=
  quoted "{'summary':'Leaking trap','tools':['wrench']}".

Definition sink_request : RepairMetadata :=
  {| description := lit "Water under the kitchen sink";
     conversationHistory := None;
     homeProfile := None |}.

Definition six_answers : RepairMetadata :=
  {| description := lit "Water on my floor somewhere";
     conversationHistory :=
       Some (repeat {| qa_question := lit "Where is the water?";
                       qa_answer := lit "Kitchen" |} 6);
     homeProfile := None |}.

Definition skipped_answer : RepairMetadata :=
  {| description := lit "Water on my floor somewhere";
     conversationHistory :=
       Some [{| qa_question := lit "Where is the water?";
                qa_answer := [] |};
             {| qa_question := lit "Since when?";
                qa_answer := lit "Yesterday" |}];
     homeProfile := None |}.
(** A string without white space at either end. *)
Definition trimmed (s : jsstring) : Prop :=
  (forall c r, s = c :: r -> is_js_space c = false)
  /\ (forall c r, s = r ++ [c] -> is_js_space c = false).

Definition sample_context : AnalysisContext :=
  {| ctx_problemShort := lit "Leaking trap";
     ctx_summary := [];
     ctx_materials := [lit "Plumber's tape"];
     ctx_tools := [];
     ctx_steps := [lit "Turn off the water"; lit "Tighten the nut"];
     ctx_warnings := [] |}.

Definition sample_chat : list ChatMessageDTO :=
  [{| msg_role := role_user; msg_content := lit "Is it urgent?" |};
   {| msg_role := role_assistant; msg_content := lit "Not very." |}].

(** [undefined] or [null]. *)
Definition nullish (v : JsValue) : bool :=
  match v with
  | JUndefined | JNull => true
  | _ => false
  end.

(** The levels in increasing order. *)
Definition level_rank (l : ConfidenceLevel) : nat :=
  match l with
  | low => 0%nat
  | medium => 1%nat
  | high => 2%nat
  end.

(** Two home profiles with the same attributes of the home, whatever
    their [email] and [nickname]. *)
Definition same_home (p p' : HomeProfile) : Prop :=
  homeType p = homeType p' /\ yearBuilt p = yearBuilt p'
  /\ pipeType p = pipeType p' /\ waterHeaterType p = waterHeaterType p'
  /\ hvacType p = hvacType p' /\ hvacAge p = hvacAge p'
  /\ roofType p = roofType p' /\ roofAge p = roofAge p'
  /\ mainFlooring p = mainFlooring p'.

Definition same_request (m m' : RepairMetadata) : Prop :=
  description m = description m'
  /\ conversationHistory m = conversationHistory m'
  /\ match homeProfile m, homeProfile m' with
     | Some p, Some p' => same_home p p'
     | None, None => True
     | _, _ => False
     end.

Definition sample_profile (e n : option jsstring) : HomeProfile :=
  {| email := e; nickname := n;
     homeType := Some (lit "House"); yearBuilt := Some (lit "1985");
     pipeType := None; waterHeaterType := None;
     hvacType := None; hvacAge := Some (lit "5 years");
     roofType := Some (lit "Shingle"); roofAge := Some (lit "10 years");
     mainFlooring := None |}.

Definition sample_request (e n : option jsstring) : RepairMetadata :=
  {| description := lit "Water under the kitchen sink";
     conversationHistory := None;
     homeProfile := Some (sample_profile e n) |}.

(** Lower case of an ASCII code unit. *)
Definition ascii_lower (c : N) : N :=
  if ((65 <=? c) && (c <=? 90))%N then (c + 32)%N else c.

Definition is_ascii (s : jsstring) : bool := forallb (fun c => (c <? 128)%N) s.

(** What ECMA-262 says of [toLowerCase] on a string of ASCII code
    units: the letters A-Z become a-z and nothing else changes. *)
Definition lowers_ascii (toLowerCase : jsstring -> jsstring) : Prop :=
  forall s, is_ascii s = true -> toLowerCase s = map ascii_lower s.

(** 20 MB, as the size check counts them. *)
Definition max_bytes : N := 20971520.

(** The state after a run of [getPool] calls, one per value of
    [DB_HOST] at the time of the call. *)
Fixpoint getPool_run (hosts : list (option jsstring)) (st : DbState)
  : DbState :=
  match hosts with
  | [] => st
  | h :: rest => getPool_run rest (fst (getPool h st))
  end.

(** A model that answers every prompt with the same padded text. *)
Definition padded_reply (prompt : jsstring) : Exc jsstring :=
  Ok ([nl] ++ lit "Yes, tape works. " ++ [nl]).
(** A model output that asks for more at confidence 0.9. *)
Definition flagged_text : jsstring :=
  quoted "{'needsMoreInfo':true,'confidence':0.9,'questions':[{'question':'Where?'}]}".

(** A fenced model output. *)
Definition fenced_text : jsstring :=
  lit "Here you are: ```json" ++ [nl] ++ quoted "{'confidence':0.4}" ++ [nl]
  ++ lit "``` Anything else?".

(** After white space, the text goes on with the closing fence. *)
Definition closing (s : jsstring) : Prop :=
  exists ws rest,
    s = ws ++ lit "```" ++ rest /\ forallb is_js_space ws = true.

(** The text starts with a fence labelled as JSON that is closed later. *)
Definition opening (s : jsstring) : Prop :=
  exists b c, s = lit "```json" ++ b ++ lit "```" ++ c.

(** [p] is the shortest start of [p ++ s] after which [P] holds. *)
Definition shortest (P : jsstring -> Prop) (p s : jsstring) : Prop :=
  P s /\ forall p1 p2, p = p1 ++ p2 -> p2 <> [] -> ~ P (p2 ++ s).

(** The fence pattern from the end of its group on, and from the group
    on. *)
Definition fence_close : list rx :=
  [GroupClose; StarGreedy is_js_space] ++ chars "```".

Definition fence_group : list rx :=
  [GroupOpen; StarLazy any_char] ++ fence_close.

(** The object has no property of that name. *)
Definition missing (k : string) (props : list (jsstring * JsValue)) : Prop :=
  lookup (lit k) props = None.

(** Every key the object leaves out has its default in the result. *)
Definition defaulted (props : list (jsstring * JsValue)) (r : AnalysisResult)
  : Prop :=
  (missing "confidence" props ->
   confidence r = n0_5 /\ confidenceLevel r = low /\ needsMoreInfo r = true)
  /\ (missing "needsMoreInfo" props ->
      needsMoreInfo r = num_lt (confidence r) n0_7)
  /\ (missing "questions" props -> questions r = [])
  /\ (missing "summary" props -> summary r = str "Unable to determine issue")
  /\ (missing "problemShort" props -> problemShort r = str "")
  /\ (missing "diyFriendly" props -> diyFriendly r = str "maybe")
  /\ (missing "difficulty" props -> difficulty r = str "medium")
  /\ (missing "estimatedTime" props -> estimatedTime r = str "")
  /\ (missing "estimatedCost" props -> estimatedCost r = str "")
  /\ (missing "proEstimate" props -> proEstimate r = str "")
  /\ (missing "immediateActions" props -> immediateActions r = JArr [])
  /\ (missing "damage" props ->
      damage r = JObj [(lit "type", str "Unknown");
                       (lit "severity", str "moderate");
                       (lit "affectedArea", str "Unknown")])
  /\ (missing "materials" props -> materials r = [])
  /\ (missing "tools" props -> tools r = [])
  /\ (missing "steps" props -> steps r = JArr [])
  /\ (missing "cureTimeNotes" props -> cureTimeNotes r = str "")
  /\ (missing "warnings" props -> warnings r = JArr [])
  /\ (missing "callAProIf" props -> callAProIf r = JArr [])
  /\ (missing "youtubeSearchQuery" props -> youtubeSearchQuery r = str "")
  /\ (missing "proType" props -> proType r = str "")
  /\ (missing "suggestedQuestions" props -> suggestedQuestions r = []).

(** The normalizer works on [payload]: this is the text the two patterns
    locate; it fails when [JSON.parse] rejects it and otherwise
    normalizes the parsed value; an object whose traversed fields have
    the expected shapes gives a result with the defaults for the keys
    it leaves out. *)
Definition decoded (text payload : jsstring) : Prop :=
  (exists m, jsonMatch text = Some m /\ jsonStr m = payload)
  /\ (throws (JSON.parse payload) -> parseResponse text = Throw SyntaxError)
  /\ (forall parsed,
        JSON.parse payload = Ok parsed ->
        parseResponse text = normalize parsed)
  /\ (forall props,
        JSON.parse payload = Ok (JObj props) ->
        well_shaped props = true ->
        exists r, parseResponse text = Ok r /\ defaulted props r).

(** The values of the declared types, as the JSON values a client
    sends: a missing attribute is a missing key. *)
Definition opt_prop (k : string) (o : option jsstring)
  : list (jsstring * JsValue) :=
  match o with
  | Some s => [(lit k, JStr s)]
  | None => []
  end.

Definition encode_profile (p : HomeProfile) : JsValue :=
  JObj (opt_prop "email" (email p) ++ opt_prop "nickname" (nickname p)
        ++ opt_prop "homeType" (homeType p)
        ++ opt_prop "yearBuilt" (yearBuilt p)
        ++ opt_prop "pipeType" (pipeType p)
        ++ opt_prop "waterHeaterType" (waterHeaterType p)
        ++ opt_prop "hvacType" (hvacType p) ++ opt_prop "hvacAge" (hvacAge p)
        ++ opt_prop "roofType" (roofType p) ++ opt_prop "roofAge" (roofAge p)
        ++ opt_prop "mainFlooring" (mainFlooring p)).

Definition encode_qa (qa : QuestionAnswer) : JsValue :=
  JObj [(lit "question", JStr (qa_question qa));
        (lit "answer", JStr (qa_answer qa))].

Definition encode_metadata (m : RepairMetadata) : JsValue :=
  JObj ([(lit "description", JStr (description m))]
        ++ match conversationHistory m with
           | Some h => [(lit "conversationHistory", JArr (map encode_qa h))]
           | None => []
           end
        ++ match homeProfile m with
           | Some p => [(lit "homeProfile", encode_profile p)]
           | None => []
           end).

Definition encode_context (c : AnalysisContext) : JsValue :=
  JObj [(lit "problemShort", JStr (ctx_problemShort c));
        (lit "summary", JStr (ctx_summary c));
        (lit "materials", JArr (map JStr (ctx_materials c)));
        (lit "tools", JArr (map JStr (ctx_tools c)));
        (lit "steps", JArr (map JStr (ctx_steps c)));
        (lit "warnings", JArr (map JStr (ctx_warnings c)))].

Definition encode_message (msg : ChatMessageDTO) : JsValue :=
  JObj [(lit "role",
         JStr (match msg_role msg with
               | role_user => lit "user"
               | role_assistant => lit "assistant"
               end));
        (lit "content", JStr (msg_content msg))].

Definition encode_history (h : list ChatMessageDTO) : JsValue :=
  JArr (map encode_message h).

(** What reading an attribute of an encoded profile gives. *)
Definition attribute (o : option jsstring) : JsValue :=
  match o with
  | Some s => JStr s
  | None => JUndefined
  end.

(** Metadata whose history has a [null] entry; the analyze route lets
    it through, as it only looks at the description. *)
Definition null_history : JsValue :=
  JObj [(lit "description", str "Water under the sink");
        (lit "conversationHistory", JArr [JNull])].

(** A stand-in for [Number::toString] where no Number is printed. *)
Definition no_digits (n : number) : jsstring := [].

(* ================================================================== *)
(** * Properties *)

Local Open Scope nat_scope.

(** ** Numbers *)

Lemma Qlt_bool_iff (a b : Q) : Qlt_bool a b = true <-> (a < b)%Q.
Proof.
  unfold Qlt_bool. rewrite negb_true_iff.
  destruct (Qle_bool b a) eqn:E.
  - apply Qle_bool_iff in E. split; [discriminate |].
    intro H. exfalso. exact (Qlt_not_le _ _ H E).
  - split; [intros _ | reflexivity].
    apply Qnot_le_lt. intro H. apply Qle_bool_iff in H. congruence.
Qed.

(** On numbers that are not NaN, [<] is the negation of [>=]. *)
Lemma num_lt_ge (a b : number) :
  a <> NaN -> b <> NaN -> num_lt a b = negb (num_ge a b).
Proof.
  intros Ha Hb. destruct a, b; try reflexivity; congruence.
Qed.

Lemma num_ge_not_NaN (a b : number) : num_ge a b = true -> a <> NaN.
Proof. destruct a; simpl; congruence. Qed.

Lemma num_ge_trans (a b c : number) :
  num_ge a b = true -> num_ge b c = true -> num_ge a c = true.
Proof.
  destruct a, b, c; simpl; try congruence.
  rewrite !Qle_bool_iff. intros H1 H2. exact (Qle_trans _ _ _ H2 H1).
Qed.

(** What the clamp [Math.min(1, Math.max(0, c))] returns. *)
Lemma clamp_cases (c : number) :
  (c = NaN /\ Math_min n1 (Math_max n0 c) = NaN)
  \/ (num_ge n0 c = true /\ Math_min n1 (Math_max n0 c) = n0)
  \/ (num_ge c n1 = true /\ Math_min n1 (Math_max n0 c) = n1)
  \/ (num_lt n0 c = true /\ num_lt c n1 = true
      /\ Math_min n1 (Math_max n0 c) = c).
Proof.
  destruct c as [| | | q].
  - left. split; reflexivity.
  - right. right. left. split; reflexivity.
  - right. left. split; reflexivity.
  - unfold Math_max, Math_min, n0, n1, num_lt, num_ge, Qlt_bool.
    destruct (Qle_bool q 0) eqn:E0; simpl.
    + right. left. split; reflexivity.
    + unfold Qlt_bool. destruct (Qle_bool 1 q) eqn:E1; simpl.
      * right. right. left. split; reflexivity.
      * right. right. right. repeat split; reflexivity.
Qed.

(** The clamped confidence lies in [0,1], unless the coercion of the
    supplied value gave NaN. *)
Lemma clamp_range (c : number) :
  c <> NaN -> in_unit_interval (Math_min n1 (Math_max n0 c)).
Proof.
  intros Hc.
  destruct (clamp_cases c) as [[H _] | [[_ H] | [[_ H] | [H0 [H1 H]]]]];
    [congruence | | |]; rewrite H; unfold in_unit_interval.
  - split; reflexivity.
  - split; reflexivity.
  - destruct c as [| | | q]; try discriminate; simpl in *.
    unfold Qlt_bool in H0, H1.
    rewrite negb_true_iff in H0. rewrite negb_true_iff in H1.
    split; apply Qle_bool_iff; apply Qlt_le_weak; apply Qnot_le_lt;
      intro X; apply Qle_bool_iff in X; simpl in *; congruence.
Qed.

(** ** The result normalizer *)

Lemma bind_Ok {A B : Type} (m : Exc A) (f : A -> Exc B) (b : B) :
  bind m f = Ok b -> exists a, m = Ok a /\ f a = Ok b.
Proof.
  destruct m as [a | e]; simpl; [| discriminate].
  intros H. exists a. split; [reflexivity | exact H].
Qed.

(** Peels the successful binds off a hypothesis [H : ... = Ok r]. *)
Ltac peel H :=
  repeat
    (let x := fresh "x" in
     let E := fresh "E" in
     apply bind_Ok in H; destruct H as [x [E H]]).

(** What a successful run of the normalizer computed, on the way to the
    fields the contract is about. *)
Lemma normalize_Ok (parsed : JsValue) (r : AnalysisResult) :
  normalize parsed = Ok r ->
  exists supplied c flag,
    get parsed "confidence" = Ok supplied
    /\ toNumber (or_else supplied (JNum n0_5)) = Ok c
    /\ get parsed "needsMoreInfo" = Ok flag
    /\ confidence r = Math_min n1 (Math_max n0 c)
    /\ confidenceLevel r = getConfidenceLevel (confidence r)
    /\ needsMoreInfo r = is_true flag || num_lt (confidence r) n0_7
    /\ followups r = []
    /\ additionalPhotosNeeded r = needsMoreInfo r.
Proof.
  unfold normalize. intros H.
  apply bind_Ok in H. destruct H as [cv [Ecv H]].
  apply bind_Ok in H. destruct H as [c [Ec H]].
  apply bind_Ok in H. destruct H as [flag [Eflag H]].
  peel H. injection H as <-. simpl.
  unfold field_or in Ecv.
  apply bind_Ok in Ecv. destruct Ecv as [supplied [Es Ecv]].
  injection Ecv as <-.
  exists supplied, c, flag. repeat split; assumption.
Qed.

Lemma parseResponse_Ok (text : jsstring) (r : AnalysisResult) :
  parseResponse text = Ok r ->
  exists m parsed,
    jsonMatch text = Some m
    /\ JSON.parse (jsonStr m) = Ok parsed
    /\ normalize parsed = Ok r.
Proof.
  unfold parseResponse. destruct (jsonMatch text) as [m |]; [| discriminate].
  intros H. apply bind_Ok in H. destruct H as [parsed [E H]].
  exists m, parsed. repeat split; assumption.
Qed.

(** C2. For every parsed model output the normalizer accepts, the
    [needsMoreInfo] flag of the result is the logical OR of "the
    model-supplied [needsMoreInfo] is exactly [true]" and "the clamped
    confidence is below 0.7". *)
Theorem needsMoreInfo_is_or (parsed : JsValue) (r : AnalysisResult) :
  normalize parsed = Ok r ->
  exists flag supplied c,
    get parsed "needsMoreInfo" = Ok flag
    /\ get parsed "confidence" = Ok supplied
    /\ toNumber (or_else supplied (JNum n0_5)) = Ok c
    /\ confidence r = Math_min n1 (Math_max n0 c)
    /\ needsMoreInfo r = is_true flag || num_lt (confidence r) n0_7.
Proof.
  intros H.
  destruct (normalize_Ok _ _ H)
    as (s & c & flag & Hs & Hc & Hf & Hr & _ & Hn & _).
  exists flag, s, c. repeat split; assumption.
Qed.

Lemma needsMoreInfo_is_or_witness :
  exists r,
    normalize (JObj [(lit "needsMoreInfo", JBool true);
                     (lit "confidence", JNum (double_of_Q (9 # 10)))]) = Ok r
    /\ exists flag supplied c,
      get (JObj [(lit "needsMoreInfo", JBool true);
                 (lit "confidence", JNum (double_of_Q (9 # 10)))])
          "needsMoreInfo" = Ok flag
      /\ get (JObj [(lit "needsMoreInfo", JBool true);
                    (lit "confidence", JNum (double_of_Q (9 # 10)))])
             "confidence" = Ok supplied
      /\ toNumber (or_else supplied (JNum n0_5)) = Ok c
      /\ confidence r = Math_min n1 (Math_max n0 c)
      /\ needsMoreInfo r = is_true flag || num_lt (confidence r) n0_7.
Proof.
  eexists. split; [vm_compute; reflexivity |].
  apply needsMoreInfo_is_or. vm_compute. reflexivity.
Defined.

Lemma mapM_Forall2 {A B : Type} (f : A -> Exc B) (l : list A) :
  forall ys, mapM f l = Ok ys -> Forall2 (fun x y => f x = Ok y) l ys.
Proof.
  induction l as [| x l IH]; simpl; intros ys H.
  - injection H as <-. constructor.
  - apply bind_Ok in H. destruct H as [y [Hy H]].
    apply bind_Ok in H. destruct H as [ys' [Hys H]].
    injection H as <-. constructor; [exact Hy | exact (IH _ Hys)].
Qed.

(** The lists of a result, as the mapping made them. *)
Lemma normalize_lists (parsed : JsValue) (r : AnalysisResult) :
  normalize parsed = Ok r ->
  exists qs ms ts sq,
    field_or parsed "questions" (JArr []) = Ok qs
    /\ js_map qs toQuestion = Ok (questions r)
    /\ field_or parsed "materials" (JArr []) = Ok ms
    /\ js_map ms toMaterial = Ok (materials r)
    /\ field_or parsed "tools" (JArr []) = Ok ts
    /\ js_map ts toTool = Ok (tools r)
    /\ get parsed "suggestedQuestions" = Ok sq
    /\ match sq with
       | JArr l => filterM keepQuestion l
       | _ => Ok []
       end = Ok (suggestedQuestions r).
Proof.
  unfold normalize. intros H. peel H. injection H as <-. simpl.
  repeat eexists; eassumption.
Qed.

Lemma field_or_array (p : JsValue) (k : string) (l : list JsValue)
    (v : JsValue) :
  get p k = Ok (JArr l) -> field_or p k (JArr []) = Ok v -> v = JArr l.
Proof.
  intros Hg H. unfold field_or in H. rewrite Hg in H. simpl in H.
  injection H as <-. reflexivity.
Qed.

(** What the mapping of line 351 makes of the questions. *)
Lemma questions_mapped (parsed : JsValue) (r : AnalysisResult) :
  normalize parsed = Ok r ->
  exists qs,
    get parsed "questions" = Ok qs
    /\ (truthy qs = false -> questions r = [])
    /\ (forall l, qs = JArr l ->
          Forall2 (fun q c => toQuestion q = Ok c) l (questions r))
    /\ (truthy qs = false \/ exists l, qs = JArr l).
Proof.
  intros H.
  destruct (normalize_lists _ _ H) as (v & _ & _ & _ & Eq & Hq & _).
  unfold field_or in Eq. apply bind_Ok in Eq. destruct Eq as [qs [Eg Eq]].
  injection Eq as <-. exists qs. split; [exact Eg |].
  unfold or_else in Hq. destruct (truthy qs) eqn:T.
  - split; [discriminate |]. split.
    + intros l ->. simpl in Hq. exact (mapM_Forall2 _ _ _ Hq).
    + right. destruct qs; try discriminate. eauto.
  - simpl in Hq. injection Hq as <-. split; [reflexivity |]. split.
    + intros l ->. discriminate.
    + left. reflexivity.
Qed.

(** C1, as amended.  For every raw model output from which a JSON value
    is extracted and normalized, [needsMoreInfo] is the logical OR of
    "the model's own flag is exactly [true]" and "the clamped confidence
    is below 0.7": it is true whenever the confidence is below 0.7, a
    model flag of [true] keeps it true at any confidence, and without
    such a flag it equals [confidence < 0.7].  The questions of the
    result are those of the model output at any confidence: none when
    the model output has none, and otherwise one per entry the model
    sent, in order. *)
Theorem needsMoreInfo_contract (text : jsstring) (r : AnalysisResult) :
  parseResponse text = Ok r ->
  exists m parsed flag qs,
    jsonMatch text = Some m
    /\ JSON.parse (jsonStr m) = Ok parsed
    /\ get parsed "needsMoreInfo" = Ok flag
    /\ needsMoreInfo r = is_true flag || num_lt (confidence r) n0_7
    /\ (num_lt (confidence r) n0_7 = true -> needsMoreInfo r = true)
    /\ (is_true flag = true -> needsMoreInfo r = true)
    /\ (is_true flag = false
        -> needsMoreInfo r = num_lt (confidence r) n0_7)
    /\ get parsed "questions" = Ok qs
    /\ (truthy qs = false \/ exists l, qs = JArr l)
    /\ (truthy qs = false -> questions r = [])
    /\ (forall l, qs = JArr l ->
          List.length (questions r) = List.length l
          /\ Forall2 (fun q c => toQuestion q = Ok c) l (questions r)).
Proof.
  intros H.
  destruct (parseResponse_Ok _ _ H) as (m & parsed & Hm & Hp & Hn).
  destruct (normalize_Ok _ _ Hn)
    as (s & c & flag & _ & _ & Hf & _ & _ & Hor & _).
  destruct (questions_mapped _ _ Hn) as (qs & Hq & Hnone & Hall & Hshape).
  exists m, parsed, flag, qs.
  split; [exact Hm |]. split; [exact Hp |]. split; [exact Hf |].
  split; [exact Hor |].
  split; [intros Hlt; rewrite Hor, Hlt; apply orb_true_r |].
  split; [intros Hflag; rewrite Hor, Hflag; reflexivity |].
  split; [intros Hflag; rewrite Hor, Hflag; reflexivity |].
  split; [exact Hq |]. split; [exact Hshape |]. split; [exact Hnone |].
  intros l Hl. pose proof (Hall l Hl) as F.
  split; [symmetry; exact (Forall2_length F) | exact F].
Qed.

Lemma needsMoreInfo_contract_witness :
  exists r,
    parseResponse flagged_text = Ok r
    /\ needsMoreInfo r = true
    /\ num_lt (confidence r) n0_7 = false
    /\ List.length (questions r) = 1.
Proof.
  eexists. split; [vm_compute; reflexivity |].
  destruct (needsMoreInfo_contract flagged_text _ eq_refl)
    as (m & parsed & flag & qs & Hm & Hp & Hf & Hor & _ & Ht & _ & Hq & _ & _
        & Hl).
  vm_compute in Hm. injection Hm as <-.
  vm_compute in Hp. injection Hp as <-.
  vm_compute in Hf. injection Hf as <-.
  vm_compute in Hq. injection Hq as <-.
  split; [apply Ht; reflexivity |].
  split; [vm_compute; reflexivity |].
  exact (proj1 (Hl _ eq_refl)).
Defined.

(** C1, as stated, fails on three outputs.  A model flag of [true] at
    confidence 0.9 gives [needsMoreInfo] although the confidence is not
    below 0.7; steps sent along with confidence 0.4 stay in the result;
    questions sent along with confidence 0.9 stay in the result. *)
Lemma needsMoreInfo_not_threshold :
  returns (parseResponse (quoted "{'needsMoreInfo':true,'confidence':0.9}"))
    (fun r => needsMoreInfo r = true
              /\ num_lt (confidence r) n0_7 = false)
  /\ returns (parseResponse
                (quoted "{'confidence':0.4,'steps':['Turn off the water']}"))
       (fun r => num_lt (confidence r) n0_7 = true
                 /\ needsMoreInfo r = true
                 /\ steps r <> JArr [])
  /\ returns (parseResponse
                (quoted "{'confidence':0.9,'questions':[{'question':'Where?'}]}"))
       (fun r => num_lt (confidence r) n0_7 = false
                 /\ needsMoreInfo r = false
                 /\ questions r <> []).
Proof.
  vm_compute. repeat split; discriminate.
Qed.

(** C7, at the failing input: a supplied confidence of 0 does not stay 0,
    the result carries the default 0.5, although a supplied -0.1 is
    clamped to 0; and a supplied confidence that is a non-empty string
    without a numeric reading leaves NaN, which is neither the default
    nor within [0,1]. *)
Theorem confidence_zero_replaced :
  returns (parseResponse (quoted "{'confidence':0}"))
    (fun r => confidence r = n0_5 /\ confidence r <> n0)
  /\ returns (parseResponse (quoted "{'confidence':-0.1}"))
       (fun r => confidence r = n0)
  /\ returns (parseResponse (quoted "{'confidence':'high'}"))
       (fun r => confidence r = NaN).
Proof.
  vm_compute. repeat split. discriminate.
Qed.

(** X10. What does hold of the confidence of every result: it is the
    clamp of the number the supplied value (or the default 0.5, when
    that value is falsy) coerces to, hence within [0,1] unless the
    coercion gives NaN; and a number the model supplies strictly
    between 0 and 1 is kept. *)
Lemma confidence_clamped (parsed : JsValue) (r : AnalysisResult) :
  normalize parsed = Ok r ->
  exists supplied c,
    get parsed "confidence" = Ok supplied
    /\ toNumber (or_else supplied (JNum n0_5)) = Ok c
    /\ confidence r = Math_min n1 (Math_max n0 c)
    /\ (truthy supplied = false -> confidence r = n0_5)
    /\ (c <> NaN -> in_unit_interval (confidence r))
    /\ (forall n, supplied = JNum n -> num_lt n0 n = true ->
        num_lt n n1 = true -> confidence r = n).
Proof.
  intros H.
  destruct (normalize_Ok _ _ H) as (s & c & flag & Hs & Hc & _ & Hr & _).
  exists s, c. repeat split; try assumption.
  - intros Hf. unfold or_else in Hc. rewrite Hf in Hc.
    injection Hc as <-. rewrite Hr. reflexivity.
  - rewrite Hr. apply clamp_range. assumption.
  - rewrite Hr. apply clamp_range. assumption.
  - intros n -> H0 H1. unfold or_else in Hc.
    assert (Ht : truthy (JNum n) = true).
    { destruct n as [| | | q]; try reflexivity; try discriminate.
      simpl in *. unfold Qlt_bool in H0. rewrite negb_true_iff in *.
      destruct (Qeq_bool q 0) eqn:E; [| reflexivity].
      apply Qeq_bool_iff in E. rewrite E in H0. discriminate. }
    rewrite Ht in Hc. injection Hc as <-. rewrite Hr.
    destruct (clamp_cases n) as [[X _] | [[X _] | [[X _] | [_ [_ X]]]]].
    + subst n. discriminate.
    + rewrite num_lt_ge in H0; [| discriminate |].
      * rewrite X in H0. discriminate.
      * intros ->. discriminate.
    + rewrite num_lt_ge in H1; [| | discriminate].
      * rewrite X in H1. discriminate.
      * intros ->. discriminate.
    + exact X.
Qed.

Lemma num_ge_0_8_0_6 (c : number) :
  num_ge c n0_8 = true -> num_ge c n0_6 = true.
Proof.
  intros H. apply (num_ge_trans c n0_8 n0_6 H). reflexivity.
Qed.

Lemma getConfidenceLevel_cases (c : number) :
  (getConfidenceLevel c = high <-> num_ge c n0_8 = true)
  /\ (getConfidenceLevel c = medium
      <-> num_ge c n0_6 = true /\ num_lt c n0_8 = true)
  /\ (getConfidenceLevel c = low <-> num_ge c n0_6 = false).
Proof.
  unfold getConfidenceLevel.
  destruct (num_ge c n0_8) eqn:E8.
  - pose proof (num_ge_0_8_0_6 c E8) as E6. rewrite E6.
    assert (Hlt : num_lt c n0_8 = false).
    { rewrite num_lt_ge; [rewrite E8; reflexivity | | discriminate].
      exact (num_ge_not_NaN _ _ E8). }
    rewrite Hlt.
    repeat split; try congruence; intros []; congruence.
  - destruct (num_ge c n0_6) eqn:E6.
    + assert (Hlt : num_lt c n0_8 = true).
      { rewrite num_lt_ge; [rewrite E8; reflexivity | | discriminate].
        exact (num_ge_not_NaN _ _ E6). }
      rewrite Hlt.
      repeat split; congruence.
    + repeat split; try congruence; intros []; congruence.
Qed.

Lemma str_eqb_refl (a : jsstring) : str_eqb a a = true.
Proof.
  induction a as [| x a IH]; simpl; [reflexivity |].
  rewrite N.eqb_refl. exact IH.
Qed.

Lemma str_eqb_eq (a b : jsstring) : str_eqb a b = true -> a = b.
Proof.
  revert b. induction a as [| x a IH]; intros [| y b]; simpl;
    try discriminate; [reflexivity |].
  intros H. apply andb_true_iff in H. destruct H as [H1 H2].
  apply N.eqb_eq in H1. rewrite H1, (IH _ H2). reflexivity.
Qed.

(** Writing one property leaves the others as they were. *)
Lemma lookup_set_prop_other (k k' : jsstring) (v : JsValue)
    (props : list (jsstring * JsValue)) :
  str_eqb k k' = false ->
  lookup k (set_prop k' v props) = lookup k props.
Proof.
  intros Hk. induction props as [| [k0 v0] props IH]; simpl.
  - rewrite Hk. reflexivity.
  - destruct (str_eqb k' k0) eqn:E0; simpl.
    + destruct (str_eqb k k0) eqn:E1; [| reflexivity].
      apply str_eqb_eq in E0. apply str_eqb_eq in E1. subst.
      rewrite str_eqb_refl in Hk. discriminate.
    + rewrite IH. reflexivity.
Qed.

(** C9. In every normalized result [confidenceLevel] is recomputed from
    the clamped confidence: "high" when confidence >= 0.8, "medium" when
    0.6 <= confidence < 0.8, otherwise "low"; a [confidenceLevel] the
    model supplies does not change the result. *)
Theorem confidenceLevel_recomputed (parsed : JsValue) (r : AnalysisResult) :
  normalize parsed = Ok r ->
  confidenceLevel r = getConfidenceLevel (confidence r)
  /\ (confidenceLevel r = high <-> num_ge (confidence r) n0_8 = true)
  /\ (confidenceLevel r = medium
      <-> num_ge (confidence r) n0_6 = true
          /\ num_lt (confidence r) n0_8 = true)
  /\ (confidenceLevel r = low <-> num_ge (confidence r) n0_6 = false)
  /\ (forall props supplied,
        parsed = JObj props ->
        normalize (JObj (set_prop (lit "confidenceLevel") supplied props))
        = Ok r).
Proof.
  intros H.
  destruct (normalize_Ok _ _ H) as (s & c & flag & _ & _ & _ & _ & Hl & _).
  split; [exact Hl |].
  rewrite Hl.
  pose proof (getConfidenceLevel_cases (confidence r)) as (A & B & C).
  split; [exact A |]. split; [exact B |]. split; [exact C |].
  intros props supplied ->. rewrite <- H.
  unfold normalize, field_or, get.
  rewrite !lookup_set_prop_other by reflexivity. reflexivity.
Qed.

Lemma confidenceLevel_recomputed_witness :
  exists r,
    normalize (JObj [(lit "confidence", JNum (double_of_Q (65 # 100)));
                     (lit "confidenceLevel", str "high")]) = Ok r
    /\ confidenceLevel r = medium.
Proof.
  eexists. split; [vm_compute; reflexivity |].
  apply (confidenceLevel_recomputed
           (JObj [(lit "confidence", JNum (double_of_Q (65 # 100)));
                  (lit "confidenceLevel", str "high")]) _ eq_refl).
  vm_compute. split; reflexivity.
Defined.

(** C8. Given raw model text that is exactly the JSON object
    [{"confidence":0.9}], the normalizer returns a result with
    confidenceLevel "high", needsMoreInfo false, materials, tools and
    steps empty, diyFriendly "maybe", difficulty "medium", and no field
    absent: every free-text field is a string, every array field an
    empty sequence, and [damage] the default assessment. *)
Theorem minimal_object_defaults :
  returns (parseResponse (quoted "{'confidence':0.9}"))
    (fun r =>
       confidenceLevel r = high
       /\ needsMoreInfo r = false
       /\ materials r = [] /\ tools r = [] /\ steps r = JArr []
       /\ diyFriendly r = str "maybe"
       /\ difficulty r = str "medium"
       /\ confidence r = double_of_Q (9 # 10)
       /\ summary r = str "Unable to determine issue"
       /\ problemShort r = str "" /\ estimatedTime r = str ""
       /\ estimatedCost r = str "" /\ proEstimate r = str ""
       /\ cureTimeNotes r = str "" /\ youtubeSearchQuery r = str ""
       /\ proType r = str ""
       /\ questions r = [] /\ immediateActions r = JArr []
       /\ warnings r = JArr [] /\ callAProIf r = JArr []
       /\ suggestedQuestions r = [] /\ followups r = []
       /\ damage r = JObj [(lit "type", str "Unknown");
                           (lit "severity", str "moderate");
                           (lit "affectedArea", str "Unknown")]
       /\ additionalPhotosNeeded r = false).
Proof.
  vm_compute. repeat split.
Qed.

(** The same text inside a fenced block gives the same result. *)
Lemma minimal_object_fenced :
  parseResponse (lit "```json" ++ [nl] ++ quoted "{'confidence':0.9}"
                 ++ [nl] ++ lit "```")
  = parseResponse (quoted "{'confidence':0.9}").
Proof. vm_compute. reflexivity. Qed.

(** The fenced example of the specification: confidence 0.4, level
    "low", more information needed, one question with three
    suggestions. *)
Lemma fenced_question_example :
  returns
    (parseResponse
       (lit "```json" ++ [nl]
        ++ quoted "{'confidence':0.4,'questions':[{'question':'Where is the leak?','suggestions':['Sink','Toilet','Wall']}]}"
        ++ [nl] ++ lit "```"))
    (fun r =>
       confidence r = double_of_Q (4 # 10)
       /\ confidenceLevel r = low
       /\ needsMoreInfo r = true
       /\ questions r
          = [{| question := str "Where is the leak?";
                suggestions := [str "Sink"; str "Toilet"; str "Wall"] |}]).
Proof. vm_compute. repeat split. Qed.

(** Plain strings and structured objects both become tools with every
    key present. *)
Lemma heterogeneous_tools :
  returns
    (parseResponse
       (quoted "{'tools':['sponge',{'name':'wrench','description':'loosen fitting'}]}"))
    (fun r =>
       tools r
       = [{| tool_name := str "sponge"; tool_description := str "";
             tool_howToUse := str "" |};
          {| tool_name := str "wrench";
             tool_description := str "loosen fitting";
             tool_howToUse := str "" |}]).
Proof. vm_compute. reflexivity. Qed.

(** ** The engine *)

Lemma try_catch_Ok {A : Type} (body : Exc A) (a : A) :
  try_catch body = Ok a -> body = Ok a.
Proof. destruct body; simpl; [trivial | discriminate]. Qed.

(** A result of [analyzeRepair] is the normalized form of the text the
    generation call returned. *)
Lemma analyzeRepair_Ok (SYSTEM_PROMPT : jsstring) (Buffer : Type)
    (base64 : Buffer -> jsstring) (generateContent : list Part -> Exc jsstring)
    (GEMINI_API_KEY : option jsstring) (genAI genAI' : bool)
    (imageBuffers : list Buffer) (imageMimeTypes : list jsstring)
    (metadata : RepairMetadata) (r : AnalysisResult) :
  analyzeRepair SYSTEM_PROMPT Buffer base64 generateContent GEMINI_API_KEY genAI
    imageBuffers imageMimeTypes metadata = (genAI', Ok r) ->
  exists parts text,
    generateContent parts = Ok text /\ parseResponse text = Ok r.
Proof.
  unfold analyzeRepair.
  destruct (getGenAI GEMINI_API_KEY genAI) as [g | e]; [| discriminate].
  intros H. injection H as _ H.
  apply try_catch_Ok in H. apply bind_Ok in H. destruct H as [text [Ht Hr]].
  eexists. exists text. split; eassumption.
Qed.

(** C10. For every model output, the result the engine returns has the
    legacy field [followups] empty and the legacy field
    [additionalPhotosNeeded] equal to the computed [needsMoreInfo]. *)
Theorem legacy_fields (SYSTEM_PROMPT : jsstring) (Buffer : Type)
    (base64 : Buffer -> jsstring) (generateContent : list Part -> Exc jsstring)
    (GEMINI_API_KEY : option jsstring) (genAI genAI' : bool)
    (imageBuffers : list Buffer) (imageMimeTypes : list jsstring)
    (metadata : RepairMetadata) (r : AnalysisResult) :
  analyzeRepair SYSTEM_PROMPT Buffer base64 generateContent GEMINI_API_KEY genAI
    imageBuffers imageMimeTypes metadata = (genAI', Ok r) ->
  followups r = [] /\ additionalPhotosNeeded r = needsMoreInfo r.
Proof.
  intros H.
  destruct (analyzeRepair_Ok _ _ _ _ _ _ _ _ _ _ _ H) as (parts & text & _ & Hr).
  destruct (parseResponse_Ok _ _ Hr) as (m & parsed & _ & _ & Hn).
  destruct (normalize_Ok _ _ Hn) as (s & c & f & _ & _ & _ & _ & _ & _ & A & B).
  split; assumption.
Qed.

Lemma legacy_fields_witness :
  exists r,
    analyzeRepair [] jsstring (fun b : jsstring => b)
      (fun _ => Ok (quoted "{'confidence':0.4,'followups':[1]}"))
      (Some (lit "key")) false [] [] sink_request = (true, Ok r)
    /\ followups r = [] /\ additionalPhotosNeeded r = needsMoreInfo r.
Proof.
  eexists. split; [vm_compute; reflexivity |].
  apply (legacy_fields [] jsstring (fun b : jsstring => b)
           (fun _ => Ok (quoted "{'confidence':0.4,'followups':[1]}"))
           (Some (lit "key")) false true [] [] sink_request).
  vm_compute. reflexivity.
Defined.

(** ** The prompt composer *)

Lemma contains_refl (t : jsstring) : contains t t.
Proof. exists [], []. rewrite app_nil_r. reflexivity. Qed.

Lemma contains_trans (t s u : jsstring) :
  contains t s -> contains s u -> contains t u.
Proof.
  intros (a & b & ->) (c & d & ->).
  exists (a ++ c), (d ++ b). rewrite <- !app_assoc. reflexivity.
Qed.

Lemma contains_app_l (a t s : jsstring) : contains t s -> contains (a ++ t) s.
Proof.
  intros (p & q & ->). exists (a ++ p), q. rewrite <- app_assoc. reflexivity.
Qed.

Lemma contains_app_r (a t s : jsstring) : contains t s -> contains (t ++ a) s.
Proof.
  intros (p & q & ->). exists p, (q ++ a). rewrite <- !app_assoc. reflexivity.
Qed.

Lemma contains_head (s a : jsstring) : contains (s ++ a) s.
Proof. apply contains_app_r, contains_refl. Qed.

(** [ceil_third n] is the least [k] with [n <= 3k]. *)
Lemma ceil_third_spec (n : nat) :
  n <= 3 * ceil_third n /\ 3 * ceil_third n < n + 3.
Proof.
  unfold ceil_third, Qceiling, Qfloor, Qdiv, Qmult, Qinv, Qopp, inject_Z.
  simpl Qnum. simpl Qden.
  change (Z.pos (1 * 3)) with 3%Z.
  pose proof (Z.div_mod (- (Z.of_nat n * 1)) 3 ltac:(discriminate)) as D.
  pose proof (Z.mod_pos_bound (- (Z.of_nat n * 1)) 3 ltac:(reflexivity)) as B.
  lia.
Qed.

Lemma hasConversation_length (m : RepairMetadata) :
  hasConversation m = negb (List.length (history m) =? 0).
Proof.
  unfold hasConversation, history.
  destruct (conversationHistory m) as [[| qa h] |]; reflexivity.
Qed.

Lemma roundNumber_eq (m : RepairMetadata) :
  roundNumber m = ceil_third (List.length (history m)) + 1.
Proof.
  unfold roundNumber. rewrite hasConversation_length.
  destruct (List.length (history m)) as [| n]; reflexivity.
Qed.

Lemma instruction_final (m : RepairMetadata) :
  3 <= roundNumber m -> instruction m = finalInstruction (roundNumber m).
Proof.
  intros H. unfold instruction, maxRounds.
  destruct (Nat.leb_spec 3 (roundNumber m)); [reflexivity | lia].
Qed.

Lemma instruction_in_prompt (m : RepairMetadata) (hasImages : bool) :
  contains (buildUserPrompt m hasImages) (instruction m).
Proof.
  unfold buildUserPrompt.
  do 14 apply contains_app_l.
  apply contains_head.
Qed.

Lemma continuation_in_prompt (m : RepairMetadata) (hasImages : bool) :
  hasConversation m = true -> roundNumber m < 3 ->
  contains (buildUserPrompt m hasImages)
    (continuationInstruction (roundNumber m)).
Proof.
  intros Hc Hr. pose proof (instruction_in_prompt m hasImages) as P.
  unfold instruction, maxRounds in P.
  destruct (Nat.leb_spec 3 (roundNumber m)); [lia |].
  rewrite Hc in P. exact P.
Qed.

(** C3. The round number is a function of the history length alone:
    round 1 for an empty (or absent) history, otherwise
    ceil(length/3)+1.  Length 0 gives round 1, length 3 round 2,
    length 6 round 3, which is final, and length 9 is still final. *)
Theorem roundNumber_of_length (m : RepairMetadata) :
  let n := List.length (history m) in
  (n = 0 -> roundNumber m = 1)
  /\ (exists k, roundNumber m = k + 1 /\ n <= 3 * k /\ 3 * k < n + 3)
  /\ (forall m', List.length (history m') = n ->
                 roundNumber m' = roundNumber m)
  /\ (n = 3 -> roundNumber m = 2)
  /\ (n = 6 ->
      roundNumber m = 3 /\ instruction m = finalInstruction (roundNumber m))
  /\ (n = 9 ->
      3 <= roundNumber m
      /\ instruction m = finalInstruction (roundNumber m)).
Proof.
  intros n. subst n.
  pose proof (roundNumber_eq m) as E.
  pose proof (ceil_third_spec (List.length (history m))) as [L U].
  split; [| split; [| split; [| split; [| split]]]].
  - intros H. rewrite H in *. lia.
  - exists (ceil_third (List.length (history m))). repeat split; assumption.
  - intros m' H. rewrite (roundNumber_eq m'), H, E. reflexivity.
  - intros H. rewrite H in *. lia.
  - intros H. rewrite H in *.
    assert (R : roundNumber m = 3) by lia.
    split; [exact R |]. apply instruction_final. lia.
  - intros H. rewrite H in *.
    assert (R : 3 <= roundNumber m) by lia.
    split; [exact R |]. apply instruction_final. exact R.
Qed.

Lemma roundNumber_of_length_witness :
  roundNumber six_answers = 3
  /\ instruction six_answers = finalInstruction (roundNumber six_answers).
Proof.
  apply (roundNumber_of_length six_answers). reflexivity.
Defined.

(** The prompt ends with a rule, the instruction and the closing
    reminder. *)
Lemma prompt_ends_with_instruction (m : RepairMetadata) (hasImages : bool) :
  exists head,
    buildUserPrompt m hasImages
    = head ++ lit "---" ++ [nl] ++ instruction m ++ [nl] ++ [nl]
      ++ lit "Base your confidence on DIAGNOSTIC CLARITY - how well you can identify and fix the problem."
      ++ [nl].
Proof.
  exists ([nl] ++ lit "USER'S PROBLEM:" ++ [nl]
          ++ [dq] ++ description m ++ [dq] ++ [nl]
          ++ imageNote hasImages ++ [nl]
          ++ profileSection m ++ conversationSection m ++ [nl]).
  unfold buildUserPrompt. rewrite <- !app_assoc. reflexivity.
Qed.

(** C4. The mode of the instruction.  The prompt ends with a rule, one
    instruction and the closing reminder, and the instruction is
    selected by the round: with a round number of at least 3 it is the
    final-round instruction, which tells the model to provide its best
    analysis now and not to ask more questions; with a history and a
    round below 3, which is round 2, it is the continuation instruction;
    with an empty history, which is round 1, it is the round-1
    instruction.  In each case the instruction is the one text given
    here and nothing else. *)
Theorem instruction_mode (m : RepairMetadata) (hasImages : bool) :
  (exists head,
     buildUserPrompt m hasImages
     = head ++ lit "---" ++ [nl] ++ instruction m ++ [nl] ++ [nl]
       ++ lit "Base your confidence on DIAGNOSTIC CLARITY - how well you can identify and fix the problem."
       ++ [nl])
  /\ (3 <= roundNumber m ->
      instruction m
      = lit "This is round " ++ nat_to_string (roundNumber m)
        ++ lit "/3 (final). Provide your best analysis now based on all available information. Do NOT ask more questions.")
  /\ (hasConversation m = true -> roundNumber m < 3 ->
      roundNumber m = 2
      /\ instruction m
         = lit "Round 2/3. Review ALL information above (description + answers). Assess your DIAGNOSTIC CONFIDENCE based on how clearly you can identify the problem - not just because questions were answered. If the answers helped clarify the diagnosis, confidence should be higher. If answers were vague or unhelpful, confidence may still be low.")
  /\ (hasConversation m = false ->
      roundNumber m = 1
      /\ instruction m
         = lit "Round 1/3. Assess your diagnostic confidence. Can you identify the specific problem? If unclear, ask 2-3 questions to help diagnose.").
Proof.
  split; [apply prompt_ends_with_instruction |].
  split; [| split].
  - intros H. rewrite (instruction_final m H). reflexivity.
  - intros Hc Hr.
    assert (R : roundNumber m = 2).
    { pose proof (roundNumber_eq m) as E.
      pose proof (ceil_third_spec (List.length (history m))) as [L U].
      rewrite hasConversation_length in Hc.
      destruct (List.length (history m)); [discriminate | lia]. }
    split; [exact R |].
    unfold instruction, maxRounds. rewrite R, Hc. reflexivity.
  - intros Hc.
    assert (R : roundNumber m = 1)
      by (unfold roundNumber; rewrite Hc; reflexivity).
    split; [exact R |].
    unfold instruction, maxRounds. rewrite R, Hc. reflexivity.
Qed.

Lemma instruction_mode_witness :
  instruction six_answers
  = lit "This is round " ++ nat_to_string (roundNumber six_answers)
    ++ lit "/3 (final). Provide your best analysis now based on all available information. Do NOT ask more questions."
  /\ (roundNumber skipped_answer = 2
      /\ instruction skipped_answer
         = lit "Round 2/3. Review ALL information above (description + answers). Assess your DIAGNOSTIC CONFIDENCE based on how clearly you can identify the problem - not just because questions were answered. If the answers helped clarify the diagnosis, confidence should be higher. If answers were vague or unhelpful, confidence may still be low.")
  /\ (roundNumber sink_request = 1
      /\ instruction sink_request
         = lit "Round 1/3. Assess your diagnostic confidence. Can you identify the specific problem? If unclear, ask 2-3 questions to help diagnose.").
Proof.
  split; [| split].
  - destruct (instruction_mode six_answers true) as (_ & F & _).
    apply F. vm_compute. lia.
  - destruct (instruction_mode skipped_answer true) as (_ & _ & C & _).
    apply C; [reflexivity | vm_compute; lia].
  - destruct (instruction_mode sink_request true) as (_ & _ & _ & I).
    apply I. reflexivity.
Defined.

Lemma conversation_in_prompt (m : RepairMetadata) (hasImages : bool) :
  contains (buildUserPrompt m hasImages) (conversationSection m).
Proof.
  unfold buildUserPrompt.
  do 10 apply contains_app_l.
  apply contains_head.
Qed.

Lemma qaLine_cases (qa : QuestionAnswer) :
  (qa_answer qa = [] ->
   qaLine qa = lit "Q: " ++ qa_question qa ++ [nl] ++ lit "A: (skipped)")
  /\ (qa_answer qa <> [] ->
      qaLine qa = lit "Q: " ++ qa_question qa ++ [nl] ++ lit "A: "
                  ++ qa_answer qa).
Proof.
  unfold qaLine. destruct (qa_answer qa) as [| c a].
  - split; [reflexivity | congruence].
  - split; [discriminate | reflexivity].
Qed.

(** C5. For every conversation history with entries, the prompt has the
    block of Q&A pairs, one rendering per entry in the original order,
    an entry whose answer is empty rendered as "A: (skipped)"; and in a
    continuation round (round below 3) the instruction cautions that
    confidence is assessed on how clearly the problem can be identified,
    not just because questions were answered. *)
Theorem history_rendered (m : RepairMetadata) (hasImages : bool) :
  history m <> [] ->
  (exists blocks,
     contains (buildUserPrompt m hasImages)
       (lit "PREVIOUS CONVERSATION:" ++ [nl] ++ join [nl; nl] blocks ++ [nl])
     /\ List.length blocks = List.length (history m)
     /\ forall i qa,
          nth_error (history m) i = Some qa ->
          exists block,
            nth_error blocks i = Some block
            /\ (qa_answer qa = [] ->
                block = lit "Q: " ++ qa_question qa ++ [nl]
                        ++ lit "A: (skipped)")
            /\ (qa_answer qa <> [] ->
                block = lit "Q: " ++ qa_question qa ++ [nl] ++ lit "A: "
                        ++ qa_answer qa))
  /\ (roundNumber m < 3 ->
      contains (buildUserPrompt m hasImages)
        (continuationInstruction (roundNumber m))
      /\ contains (continuationInstruction (roundNumber m))
           (lit "Assess your DIAGNOSTIC CONFIDENCE based on how clearly you can identify the problem - not just because questions were answered.")).
Proof.
  intros Hh.
  assert (Hc : hasConversation m = true).
  { rewrite hasConversation_length.
    destruct (history m); [congruence | reflexivity]. }
  split.
  - exists (map qaLine (history m)). split; [| split].
    + apply (contains_trans _ (conversationSection m)).
      * apply conversation_in_prompt.
      * unfold conversationSection. rewrite Hc.
        apply contains_app_l, contains_refl.
    + apply length_map.
    + intros i qa Hi. exists (qaLine qa). split.
      * rewrite nth_error_map, Hi. reflexivity.
      * apply qaLine_cases.
  - intros Hr. split.
    + apply continuation_in_prompt; assumption.
    + exists (lit "Round " ++ nat_to_string (roundNumber m) ++ lit "/"
              ++ nat_to_string maxRounds
              ++ lit ". Review ALL information above (description + answers). "),
        (lit " If the answers helped clarify the diagnosis, confidence should be higher. If answers were vague or unhelpful, confidence may still be low.").
      unfold continuationInstruction. rewrite <- !app_assoc. reflexivity.
Qed.

Lemma history_rendered_witness :
  (exists blocks,
     contains (buildUserPrompt skipped_answer false)
       (lit "PREVIOUS CONVERSATION:" ++ [nl] ++ join [nl; nl] blocks ++ [nl])
     /\ List.length blocks = 2
     /\ forall i qa,
          nth_error (history skipped_answer) i = Some qa ->
          exists block,
            nth_error blocks i = Some block
            /\ (qa_answer qa = [] ->
                block = lit "Q: " ++ qa_question qa ++ [nl]
                        ++ lit "A: (skipped)")
            /\ (qa_answer qa <> [] ->
                block = lit "Q: " ++ qa_question qa ++ [nl] ++ lit "A: "
                        ++ qa_answer qa))
  /\ (roundNumber skipped_answer < 3 ->
      contains (buildUserPrompt skipped_answer false)
        (continuationInstruction (roundNumber skipped_answer))
      /\ contains (continuationInstruction (roundNumber skipped_answer))
           (lit "Assess your DIAGNOSTIC CONFIDENCE based on how clearly you can identify the problem - not just because questions were answered.")).
Proof.
  apply (history_rendered skipped_answer false). discriminate.
Defined.

(** ** The two patterns *)

Lemma star_greedy_sound (cls : N -> bool)
    (k : jsstring -> nat -> option outcome) (s : jsstring) :
  forall pos r,
    star_greedy cls k s pos = Some r ->
    exists w s' pos',
      s = w ++ s' /\ forallb cls w = true /\ k s' pos' = Some r.
Proof.
  induction s as [| x s IH]; intros pos r; simpl.
  - intros H. exists [], [], pos. auto.
  - destruct (cls x) eqn:Ex.
    + destruct (star_greedy cls k s (S pos)) as [r' |] eqn:E.
      * intros H. injection H as <-.
        destruct (IH _ _ E) as (w & s' & pos' & -> & Hw & Hk).
        exists (x :: w), s', pos'. simpl. rewrite Ex, Hw. auto.
      * intros H. exists [], (x :: s), pos. auto.
    + intros H. exists [], (x :: s), pos. auto.
Qed.

Lemma star_lazy_sound (cls : N -> bool)
    (k : jsstring -> nat -> option outcome) (s : jsstring) :
  forall pos r,
    star_lazy cls k s pos = Some r ->
    exists w s' pos',
      s = w ++ s' /\ forallb cls w = true /\ k s' pos' = Some r.
Proof.
  induction s as [| x s IH]; intros pos r; simpl.
  - destruct (k [] pos) as [r' |] eqn:E; [| discriminate].
    intros H. injection H as <-. exists [], [], pos. auto.
  - destruct (k (x :: s) pos) as [r' |] eqn:E.
    + intros H. injection H as <-. exists [], (x :: s), pos. auto.
    + destruct (cls x) eqn:Ex; [| discriminate].
      intros H. destruct (IH _ _ H) as (w & s' & pos' & -> & Hw & Hk).
      exists (x :: w), s', pos'. simpl. rewrite Ex, Hw. auto.
Qed.

Lemma star_greedy_complete (cls : N -> bool)
    (k : jsstring -> nat -> option outcome) (w s' : jsstring) :
  forallb cls w = true ->
  (forall pos, k s' pos <> None) ->
  forall pos, star_greedy cls k (w ++ s') pos <> None.
Proof.
  intros Hw Hk. induction w as [| x w IH]; intros pos; simpl.
  - destruct s' as [| y s']; simpl; [apply Hk |].
    destruct (cls y); [| apply Hk].
    destruct (star_greedy cls k s' (S pos)); [discriminate | apply Hk].
  - simpl in Hw. apply andb_true_iff in Hw. destruct Hw as [Hx Hw].
    rewrite Hx.
    destruct (star_greedy cls k (w ++ s') (S pos)) eqn:E; [discriminate |].
    exfalso. exact (IH Hw _ E).
Qed.

Lemma star_lazy_complete (cls : N -> bool)
    (k : jsstring -> nat -> option outcome) (w s' : jsstring) :
  forallb cls w = true ->
  (forall pos, k s' pos <> None) ->
  forall pos, star_lazy cls k (w ++ s') pos <> None.
Proof.
  intros Hw Hk. induction w as [| x w IH]; intros pos.
  - simpl. destruct s' as [| y s']; simpl.
    + destruct (k [] pos) eqn:E; [discriminate | exfalso; exact (Hk _ E)].
    + destruct (k (y :: s') pos) eqn:E; [discriminate | exfalso; exact (Hk _ E)].
  - simpl in Hw. apply andb_true_iff in Hw. destruct Hw as [Hx Hw].
    simpl. destruct (k (x :: w ++ s') pos); [discriminate |].
    rewrite Hx. apply IH. exact Hw.
Qed.

(** The matcher finds only what the pattern denotes... *)
Lemma run_sound (p : list rx) :
  forall s pos gs cap r, run p s pos gs cap = Some r -> accepts p s.
Proof.
  induction p as [| [c | cls | cls | |] p IH]; intros s pos gs cap r; simpl.
  - trivial.
  - destruct s as [| x s]; [discriminate |].
    destruct (N.eqb_spec x c) as [-> |]; [| discriminate].
    intros H. exists s. split; [reflexivity | exact (IH _ _ _ _ _ H)].
  - intros H. apply star_greedy_sound in H.
    destruct H as (w & s' & pos' & -> & Hw & Hk).
    exists w, s'. repeat split; [exact Hw | exact (IH _ _ _ _ _ Hk)].
  - intros H. apply star_lazy_sound in H.
    destruct H as (w & s' & pos' & -> & Hw & Hk).
    exists w, s'. repeat split; [exact Hw | exact (IH _ _ _ _ _ Hk)].
  - apply IH.
  - apply IH.
Qed.

(** ... and finds a match whenever the pattern denotes one. *)
Lemma run_complete (p : list rx) :
  forall s, accepts p s -> forall pos gs cap, run p s pos gs cap <> None.
Proof.
  induction p as [| [c | cls | cls | |] p IH]; intros s; simpl.
  - discriminate.
  - intros (s' & -> & H) pos gs cap. rewrite N.eqb_refl. apply IH. exact H.
  - intros (w & s' & -> & Hw & H) pos gs cap.
    apply star_greedy_complete; [exact Hw |].
    intros pos'. apply IH. exact H.
  - intros (w & s' & -> & Hw & H) pos gs cap.
    apply star_lazy_complete; [exact Hw |].
    intros pos'. apply IH. exact H.
  - intros H pos gs cap. apply IH. exact H.
  - intros H pos gs cap. apply IH. exact H.
Qed.

(** [s.match(p)] is not [null] exactly when some suffix of [s] starts
    with a word of the pattern. *)
Lemma str_match_spec (p : list rx) (s : jsstring) :
  forall idx,
    str_match p s idx <> None
    <-> exists a rest, s = a ++ rest /\ accepts p rest.
Proof.
  induction s as [| x s IH]; intros idx; simpl.
  - destruct (run p [] 0 0 None) as [[e cap] |] eqn:E.
    + split; [intros _ | discriminate].
      exists [], []. split; [reflexivity | exact (run_sound _ _ _ _ _ _ E)].
    + split; [congruence |].
      intros (a & rest & Hs & Ha).
      symmetry in Hs. apply app_eq_nil in Hs. destruct Hs as [-> ->].
      exfalso. exact (run_complete _ _ Ha _ _ _ E).
  - destruct (run p (x :: s) 0 0 None) as [[e cap] |] eqn:E.
    + split; [intros _ | discriminate].
      exists [], (x :: s). split; [reflexivity | exact (run_sound _ _ _ _ _ _ E)].
    + rewrite IH. split.
      * intros (a & rest & -> & Ha). exists (x :: a), rest. auto.
      * intros (a & rest & Hs & Ha). destruct a as [| y a]; simpl in Hs.
        -- subst rest. exfalso. exact (run_complete _ _ Ha _ _ _ E).
        -- injection Hs as -> ->. exists a, rest. auto.
Qed.

Lemma forallb_any_char (w : jsstring) : forallb any_char w = true.
Proof. induction w; simpl; [reflexivity | assumption]. Qed.

Lemma fence_re_spec (text : jsstring) :
  str_match fence_re text 0 <> None <-> fenced text.
Proof.
  rewrite str_match_spec. unfold fenced. split.
  - intros (a & rest & -> & H). cbn in H.
    destruct H as (s1 & -> & s2 & -> & s3 & -> & s4 & -> & s5 & -> & s6 & ->
                   & s7 & -> & w1 & t1 & -> & _ & w2 & t2 & -> & _
                   & w3 & t3 & -> & _ & t4 & -> & t5 & -> & t6 & -> & _).
    exists a, (w1 ++ w2 ++ w3), t6. cbn. rewrite <- !app_assoc. reflexivity.
  - intros (a & b & c & ->).
    exists a, (lit "```json" ++ b ++ lit "```" ++ c). split; [reflexivity |].
    cbn. repeat (eexists; split; [reflexivity |]).
    exists [], (b ++ lit "```" ++ c).
    split; [reflexivity |]. split; [reflexivity |].
    exists b, (lit "```" ++ c).
    split; [reflexivity |]. split; [apply forallb_any_char |].
    exists [], (lit "```" ++ c).
    split; [reflexivity |]. split; [reflexivity |].
    cbn. repeat (eexists; split; [reflexivity |]). trivial.
Qed.

Lemma brace_re_spec (text : jsstring) :
  str_match brace_re text 0 <> None <-> braced text.
Proof.
  rewrite str_match_spec. unfold braced. split.
  - intros (a & rest & -> & H). cbn in H.
    destruct H as (s1 & -> & w & t1 & -> & _ & t2 & -> & _).
    exists a, w, t2. reflexivity.
  - intros (a & b & c & ->).
    exists a, (lit "{" ++ b ++ lit "}" ++ c). split; [reflexivity |].
    cbn. eexists; split; [reflexivity |].
    exists b, (lit "}" ++ c).
    split; [reflexivity |]. split; [apply forallb_any_char |].
    cbn. eexists; split; [reflexivity |]. trivial.
Qed.

(** No payload is located exactly when the text has neither a fenced
    block labelled as JSON nor a brace span. *)
Lemma jsonMatch_None (text : jsstring) :
  jsonMatch text = None <-> ~ fenced text /\ ~ braced text.
Proof.
  unfold jsonMatch.
  rewrite <- fence_re_spec, <- brace_re_spec.
  destruct (str_match fence_re text 0) as [m |].
  - split; [discriminate |]. intros [H _]. exfalso. apply H. discriminate.
  - destruct (str_match brace_re text 0) as [m |].
    + split; [discriminate |]. intros [_ H]. exfalso. apply H. discriminate.
    + split; [| reflexivity]. intros _. split; intros H; apply H; reflexivity.
Qed.

(** ** Where a match starts and where it ends *)

Lemma last_occurrence (x : N) (s : jsstring) :
  In x s -> exists w c, s = w ++ x :: c /\ ~ In x c.
Proof.
  induction s as [| y s IH]; simpl; [contradiction |].
  intros H. destruct (in_dec N.eq_dec x s) as [Hin | Hout].
  - destruct (IH Hin) as (w & c & -> & Hc). exists (y :: w), c. auto.
  - destruct H as [-> | H]; [| contradiction].
    exists [], s. auto.
Qed.

(** The greedy star of the brace pattern stops at the last closing
    brace. *)
Lemma greedy_no_brace (gs : nat) (cap : option (nat * nat)) (s : jsstring) :
  ~ In 125%N s ->
  forall pos,
    star_greedy any_char (fun s pos => run [Chr 125] s pos gs cap) s pos
    = None.
Proof.
  induction s as [| x s IH]; intros Hs pos; [reflexivity |].
  cbn [star_greedy].
  rewrite IH by (intros X; apply Hs; right; exact X).
  simpl. destruct (N.eqb_spec x 125) as [-> |]; [| reflexivity].
  exfalso. apply Hs. left. reflexivity.
Qed.

Lemma greedy_to_last_brace (gs : nat) (cap : option (nat * nat))
    (w c : jsstring) :
  ~ In 125%N c ->
  forall pos,
    star_greedy any_char (fun s pos => run [Chr 125] s pos gs cap)
      (w ++ 125%N :: c) pos
    = Some (pos + List.length w + 1, cap).
Proof.
  intros Hc. induction w as [| x w IH]; intros pos.
  - cbn [app star_greedy]. rewrite (greedy_no_brace gs cap c Hc).
    simpl. f_equal. f_equal. lia.
  - cbn [app star_greedy]. rewrite (IH (S pos)).
    simpl. f_equal. f_equal. lia.
Qed.

Lemma run_brace_cons (x : N) (s : jsstring) :
  run brace_re (x :: s) 0 0 None
  = if (x =? 123)%N
    then star_greedy any_char (fun s pos => run [Chr 125] s pos 0 None) s 1
    else None.
Proof. reflexivity. Qed.

Lemma run_brace_re (s : jsstring) :
  (forall e cap, run brace_re s 0 0 None = Some (e, cap) ->
     exists w c,
       s = 123%N :: w ++ 125%N :: c /\ ~ In 125%N c
       /\ e = List.length w + 2 /\ cap = None)
  /\ (run brace_re s 0 0 None = None ->
      forall t, s = 123%N :: t -> ~ In 125%N t).
Proof.
  destruct s as [| x s]; [split; [discriminate | discriminate] |].
  rewrite run_brace_cons. destruct (N.eqb_spec x 123) as [-> | Hx].
  - destruct (in_dec N.eq_dec 125%N s) as [Hin | Hout].
    + destruct (last_occurrence _ _ Hin) as (w & c & -> & Hc).
      rewrite (greedy_to_last_brace 0 None w c Hc 1).
      split; [| discriminate].
      intros e cap H. injection H as <- <-. exists w, c.
      repeat split; [exact Hc | lia].
    + rewrite (greedy_no_brace 0 None s Hout 1).
      split; [discriminate |].
      intros _ t H. injection H as <-. exact Hout.
  - split; [discriminate |]. intros _ t H. congruence.
Qed.

Lemma firstn_app_exact {A : Type} (a b : list A) :
  firstn (List.length a) (a ++ b) = a.
Proof.
  induction a as [| x a IH]; simpl; [destruct b; reflexivity |].
  rewrite IH. reflexivity.
Qed.

Lemma str_match_brace (s : jsstring) :
  forall idx m,
    str_match brace_re s idx = Some m ->
    exists a w c,
      s = a ++ [123%N] ++ w ++ [125%N] ++ c
      /\ ~ In 123%N a /\ ~ In 125%N c
      /\ m_index m = idx + List.length a
      /\ m_0 m = [123%N] ++ w ++ [125%N]
      /\ m_1 m = None.
Proof.
  induction s as [| x s IH]; intros idx m.
  - cbn [str_match]. destruct (run_brace_re []) as [R _].
    destruct (run brace_re [] 0 0 None) as [[e cap] |]; [| discriminate].
    destruct (R e cap eq_refl) as (w & c & H & _). discriminate.
  - cbn [str_match]. destruct (run_brace_re (x :: s)) as [R RN].
    destruct (run brace_re (x :: s) 0 0 None) as [[e cap] |].
    + destruct (R e cap eq_refl) as (w & c & Hs & Hc & -> & ->).
      intros H. injection H as <-. exists [], w, c. cbn [m_index m_0 m_1].
      rewrite Hs. split; [reflexivity |]. split; [intros [] |].
      split; [exact Hc |]. split; [simpl; lia |]. split; [| reflexivity].
      * replace (List.length w + 2) with (List.length (123%N :: w ++ [125%N]))
          by (simpl; rewrite length_app; simpl; lia).
        replace (123%N :: w ++ 125%N :: c) with ((123%N :: w ++ [125%N]) ++ c)
          by (simpl; rewrite <- app_assoc; reflexivity).
        apply firstn_app_exact.
    + intros H. destruct (IH _ _ H) as (a & w & c & -> & Ha & Hc & Hi & H0 & H1).
      exists (x :: a), w, c. split; [reflexivity |]. split.
      * intros [-> | Hin]; [| exact (Ha Hin)].
        apply (RN eq_refl _ eq_refl).
        apply in_or_app. right. simpl. right.
        apply in_or_app. right. left. reflexivity.
      * split; [exact Hc |]. split; [simpl; rewrite Hi; lia |].
        split; assumption.
Qed.

Lemma star_greedy_None (cls : N -> bool)
    (k : jsstring -> nat -> option outcome) (s : jsstring) (pos : nat) :
  star_greedy cls k s pos = None -> k s pos = None.
Proof.
  destruct s as [| x s]; simpl; [trivial |].
  destruct (cls x); [| trivial].
  destruct (star_greedy cls k s (S pos)); [discriminate | trivial].
Qed.

(** A greedy star takes the longest run of the class when what follows
    the star cannot start inside such a run without also matching one
    step further on. *)
Lemma star_greedy_longest (cls : N -> bool)
    (k : jsstring -> nat -> option outcome) :
  (forall x s pos, cls x = true -> k (x :: s) pos <> None ->
                   forall pos', k s pos' <> None) ->
  forall s pos out,
    star_greedy cls k s pos = Some out ->
    exists w r,
      s = w ++ r /\ forallb cls w = true
      /\ (forall x r', r = x :: r' -> cls x = false)
      /\ k r (pos + List.length w) = Some out.
Proof.
  intros Hk. induction s as [| x s IH]; intros pos out H.
  - exists [], []. simpl in *. rewrite Nat.add_0_r.
    repeat split; [discriminate | exact H].
  - cbn [star_greedy] in H. destruct (cls x) eqn:Ex.
    + destruct (star_greedy cls k s (S pos)) as [out' |] eqn:E.
      * injection H as <-.
        destruct (IH _ _ E) as (w & r & -> & Hw & Hr & Ho).
        exists (x :: w), r. simpl. rewrite Ex, Hw.
        replace (pos + S (List.length w)) with (S pos + List.length w) by lia.
        auto.
      * exfalso. apply star_greedy_None in E.
        refine (Hk x s pos Ex _ (S pos) E). congruence.
    + exists [], (x :: s). simpl. rewrite Nat.add_0_r.
      repeat split; [| exact H].
      intros y r' Hy. injection Hy as <- <-. exact Ex.
Qed.

(** A lazy star takes the shortest run after which what follows the
    star matches. *)
Lemma star_lazy_shortest (cls : N -> bool)
    (k : jsstring -> nat -> option outcome) :
  forall s pos out,
    star_lazy cls k s pos = Some out ->
    exists g s',
      s = g ++ s' /\ forallb cls g = true
      /\ k s' (pos + List.length g) = Some out
      /\ forall g1 g2, g = g1 ++ g2 -> g2 <> [] ->
                       k (g2 ++ s') (pos + List.length g1) = None.
Proof.
  induction s as [| x s IH]; intros pos out H.
  - cbn [star_lazy] in H. destruct (k [] pos) as [o |] eqn:E; [| discriminate].
    injection H as <-. exists [], []. simpl. rewrite Nat.add_0_r.
    repeat split; [exact E |].
    intros g1 g2 Hg Hn. symmetry in Hg. apply app_eq_nil in Hg.
    destruct Hg as [_ ->]. congruence.
  - cbn [star_lazy] in H. destruct (k (x :: s) pos) as [o |] eqn:E.
    + injection H as <-. exists [], (x :: s). simpl. rewrite Nat.add_0_r.
      repeat split; [exact E |].
      intros g1 g2 Hg Hn. symmetry in Hg. apply app_eq_nil in Hg.
      destruct Hg as [_ ->]. congruence.
    + destruct (cls x) eqn:Ex; [| discriminate].
      destruct (IH _ _ H) as (g & s' & -> & Hg & Ho & Hmin).
      exists (x :: g), s'. simpl. rewrite Ex, Hg.
      replace (pos + S (List.length g)) with (S pos + List.length g) by lia.
      repeat split; [exact Ho |].
      intros g1 g2 Hsplit Hn. destruct g1 as [| y g1]; simpl in Hsplit.
      * subst g2. simpl. rewrite Nat.add_0_r. exact E.
      * injection Hsplit as <- ->. simpl.
        replace (pos + S (List.length g1)) with (S pos + List.length g1) by lia.
        apply Hmin; [reflexivity | exact Hn].
Qed.

Lemma run_Chr (c : N) (p : list rx) (s : jsstring) (pos gs : nat)
    (cap : option (nat * nat)) (out : outcome) :
  run (Chr c :: p) s pos gs cap = Some out ->
  exists s', s = c :: s' /\ run p s' (S pos) gs cap = Some out.
Proof.
  simpl. destruct s as [| x s]; [discriminate |].
  destruct (N.eqb_spec x c) as [-> |]; [| discriminate].
  intros H. exists s. auto.
Qed.

Lemma run_ticks (s : jsstring) (pos gs : nat) (cap : option (nat * nat))
    (out : outcome) :
  run (chars "```") s pos gs cap = Some out ->
  exists c, s = lit "```" ++ c /\ out = (pos + 3, cap).
Proof.
  intros H. change (chars "```") with [Chr 96; Chr 96; Chr 96] in H.
  apply run_Chr in H. destruct H as (s1 & -> & H).
  apply run_Chr in H. destruct H as (s2 & -> & H).
  apply run_Chr in H. destruct H as (s3 & -> & H).
  simpl in H. injection H as <-. exists s3. split; [reflexivity |].
  f_equal. lia.
Qed.

Lemma closing_accepts (s : jsstring) : closing s <-> accepts fence_close s.
Proof.
  split.
  - intros (ws & rest & -> & Hws). cbn.
    exists ws, (lit "```" ++ rest). split; [reflexivity |]. split; [exact Hws |].
    cbn. repeat (eexists; split; [reflexivity |]). trivial.
  - cbn. intros (ws & s' & -> & Hws & t1 & -> & t2 & -> & t3 & -> & _).
    exists ws, t3. split; [reflexivity | exact Hws].
Qed.

Lemma run_fence_close (s : jsstring) (pos gs : nat) (cap : option (nat * nat))
    (out : outcome) :
  run fence_close s pos gs cap = Some out ->
  exists ws c,
    s = ws ++ lit "```" ++ c /\ forallb is_js_space ws = true
    /\ out = (pos + List.length ws + 3, Some (gs, pos)).
Proof.
  unfold fence_close. cbn [app run]. intros H.
  apply star_greedy_longest in H.
  - destruct H as (ws & r & -> & Hws & _ & H).
    apply run_ticks in H. destruct H as (c & -> & ->).
    exists ws, c. auto.
  - intros x t p Hx Hr. exfalso.
    destruct (run (chars "```") (x :: t) p gs (Some (gs, pos))) as [o |] eqn:E;
      [| congruence].
    apply run_ticks in E. destruct E as (c & E & _).
    injection E as -> _. discriminate.
Qed.

Lemma run_fence_group (s : jsstring) (pos gs : nat) (cap : option (nat * nat))
    (out : outcome) :
  run fence_group s pos gs cap = Some out ->
  exists g ws c,
    s = g ++ ws ++ lit "```" ++ c /\ forallb is_js_space ws = true
    /\ shortest closing g (ws ++ lit "```" ++ c)
    /\ out = (pos + List.length g + List.length ws + 3,
              Some (pos, pos + List.length g)).
Proof.
  unfold fence_group. cbn [app run]. intros H.
  apply star_lazy_shortest in H.
  destruct H as (g & s' & -> & _ & H & Hmin).
  change (run (GroupClose :: StarGreedy is_js_space :: chars "```")) with (run fence_close) in *.
  apply run_fence_close in H. destruct H as (ws & c & -> & Hws & ->).
  exists g, ws, c. split; [reflexivity |]. split; [exact Hws |]. split.
  - split; [exists ws, c; auto |].
    intros g1 g2 Hg Hn Hc. apply closing_accepts in Hc.
    exact (run_complete _ _ Hc _ _ _ (Hmin g1 g2 Hg Hn)).
  - reflexivity.
Qed.

Lemma accepts_fence_group_tail (x : N) (s : jsstring) :
  is_js_space x = true ->
  accepts fence_group (x :: s) -> accepts fence_group s.
Proof.
  intros Hx. cbn.
  intros (g & s1 & Hs & _ & ws & s2 & -> & Hws & t1 & -> & t2 & -> & t3 & ->
          & _).
  destruct g as [| y g]; simpl in Hs.
  - destruct ws as [| y ws]; simpl in Hs.
    + injection Hs as -> _. discriminate.
    + injection Hs as <- ->. simpl in Hws.
      apply andb_true_iff in Hws. destruct Hws as [_ Hws].
      exists [], (ws ++ 96%N :: 96%N :: 96%N :: t3).
      split; [reflexivity |]. split; [reflexivity |].
      exists ws, (96%N :: 96%N :: 96%N :: t3).
      split; [reflexivity |]. split; [exact Hws |].
      repeat (eexists; split; [reflexivity |]). trivial.
  - injection Hs as <- ->.
    exists g, (ws ++ 96%N :: 96%N :: 96%N :: t3).
    split; [reflexivity |]. split; [apply forallb_any_char |].
    exists ws, (96%N :: 96%N :: 96%N :: t3).
    split; [reflexivity |]. split; [exact Hws |].
    repeat (eexists; split; [reflexivity |]). trivial.
Qed.

(** What a match of the fence pattern at the head of [s] is made of:
    the label, the longest run of white space, the shortest content
    after which the closing fence follows, white space, the closing
    fence.  The group captures the content. *)
Lemma run_fence_re (s : jsstring) (out : outcome) :
  run fence_re s 0 0 None = Some out ->
  exists ws1 g ws2 c,
    s = lit "```json" ++ ws1 ++ g ++ ws2 ++ lit "```" ++ c
    /\ forallb is_js_space ws1 = true
    /\ (forall x r, g ++ ws2 ++ lit "```" ++ c = x :: r ->
                    is_js_space x = false)
    /\ forallb is_js_space ws2 = true
    /\ shortest closing g (ws2 ++ lit "```" ++ c)
    /\ out = (7 + List.length ws1 + List.length g + List.length ws2 + 3,
              Some (7 + List.length ws1,
                    7 + List.length ws1 + List.length g)).
Proof.
  intros H.
  change fence_re
    with (Chr 96 :: Chr 96 :: Chr 96 :: Chr 106 :: Chr 115 :: Chr 111
          :: Chr 110 :: StarGreedy is_js_space :: fence_group) in H.
  do 7 (apply run_Chr in H; destruct H as (? & -> & H)).
  cbn [run] in H.
  apply star_greedy_longest in H.
  - destruct H as (ws1 & r & -> & Hws1 & Hr & H).
    apply run_fence_group in H.
    destruct H as (g & ws2 & c & -> & Hws2 & Hs & ->).
    exists ws1, g, ws2, c. repeat split; try assumption; try apply Hs.
  - intros y t p Hy Hr p'.
    destruct (run fence_group (y :: t) p 0 None) as [o |] eqn:E;
      [| congruence].
    apply run_sound in E. apply (accepts_fence_group_tail y t Hy) in E.
    apply run_complete. exact E.
Qed.

Lemma opening_accepts (s : jsstring) : opening s <-> accepts fence_re s.
Proof.
  split.
  - intros (b & c & ->).
    cbn. repeat (eexists; split; [reflexivity |]).
    exists [], (b ++ lit "```" ++ c).
    split; [reflexivity |]. split; [reflexivity |].
    exists b, (lit "```" ++ c).
    split; [reflexivity |]. split; [apply forallb_any_char |].
    exists [], (lit "```" ++ c).
    split; [reflexivity |]. split; [reflexivity |].
    cbn. repeat (eexists; split; [reflexivity |]). trivial.
  - cbn.
    intros (s1 & -> & s2 & -> & s3 & -> & s4 & -> & s5 & -> & s6 & ->
            & s7 & -> & w1 & t1 & -> & _ & w2 & t2 & -> & _
            & w3 & t3 & -> & _ & t4 & -> & t5 & -> & t6 & -> & _).
    exists (w1 ++ w2 ++ w3), t6. cbn. rewrite <- !app_assoc. reflexivity.
Qed.

Lemma skipn_app_exact {A : Type} (a b : list A) :
  skipn (List.length a) (a ++ b) = b.
Proof. induction a as [| x a IH]; simpl; [reflexivity | exact IH]. Qed.

Lemma firstn_prefix (a b : jsstring) (n : nat) :
  n = List.length a -> firstn n (a ++ b) = a.
Proof. intros ->. apply firstn_app_exact. Qed.

Lemma slice_middle (a g b : jsstring) (i j : nat) :
  i = List.length a -> j = List.length a + List.length g ->
  slice (a ++ g ++ b) i j = g.
Proof.
  intros -> ->. unfold slice.
  replace (List.length a + List.length g - List.length a)
    with (List.length g) by lia.
  rewrite skipn_app_exact. apply firstn_app_exact.
Qed.

(** [text.match(fence)]: the first fence labelled as JSON that is closed
    later, and the content the group captures there. *)
Lemma str_match_fence (s : jsstring) :
  forall idx m,
    str_match fence_re s idx = Some m ->
    exists a ws1 g ws2 c,
      s = a ++ lit "```json" ++ ws1 ++ g ++ ws2 ++ lit "```" ++ c
      /\ shortest opening a
           (lit "```json" ++ ws1 ++ g ++ ws2 ++ lit "```" ++ c)
      /\ forallb is_js_space ws1 = true
      /\ (forall x r, g ++ ws2 ++ lit "```" ++ c = x :: r ->
                      is_js_space x = false)
      /\ forallb is_js_space ws2 = true
      /\ shortest closing g (ws2 ++ lit "```" ++ c)
      /\ m_index m = idx + List.length a
      /\ m_0 m = lit "```json" ++ ws1 ++ g ++ ws2 ++ lit "```"
      /\ m_1 m = Some g.
Proof.
  induction s as [| x s IH]; intros idx m.
  - cbn [str_match].
    destruct (run fence_re [] 0 0 None) as [[e cap] |] eqn:E; [| discriminate].
    apply run_fence_re in E. destruct E as (? & ? & ? & ? & E & _).
    discriminate.
  - cbn [str_match].
    destruct (run fence_re (x :: s) 0 0 None) as [[e cap] |] eqn:E.
    + intros H. injection H as <-.
      apply run_fence_re in E.
      destruct E as (ws1 & g & ws2 & c & Hs & Hws1 & Hr & Hws2 & Hg & Ho).
      injection Ho as -> ->.
      exists [], ws1, g, ws2, c. rewrite Hs. cbn [m_index m_0 m_1 option_map].
      split; [reflexivity |]. split.
      { split; [exists (ws1 ++ g ++ ws2), c; rewrite <- !app_assoc; reflexivity |].
        intros p1 p2 Hp Hn. symmetry in Hp. apply app_eq_nil in Hp.
        destruct Hp as [_ ->]. congruence. }
      split; [exact Hws1 |]. split; [exact Hr |]. split; [exact Hws2 |].
      split; [exact Hg |]. split; [simpl; lia |]. split.
      * replace (lit "```json" ++ ws1 ++ g ++ ws2 ++ lit "```" ++ c)
          with ((lit "```json" ++ ws1 ++ g ++ ws2 ++ lit "```") ++ c)
          by (rewrite <- !app_assoc; reflexivity).
        apply firstn_prefix. rewrite !length_app. simpl. lia.
      * f_equal. cbn [fst snd].
        replace (lit "```json" ++ ws1 ++ g ++ ws2 ++ lit "```" ++ c)
          with ((lit "```json" ++ ws1) ++ g ++ ws2 ++ lit "```" ++ c)
          by (rewrite <- !app_assoc; reflexivity).
        apply slice_middle; rewrite length_app; simpl; lia.
    + intros H.
      destruct (IH _ _ H)
        as (a & ws1 & g & ws2 & c & -> & Ha & Hws1 & Hr & Hws2 & Hg & Hi & H0
            & H1).
      exists (x :: a), ws1, g, ws2, c.
      split; [reflexivity |]. split.
      { split; [apply Ha |].
        intros p1 p2 Hp Hn Ho. destruct p1 as [| y p1]; simpl in Hp.
        - subst p2. apply opening_accepts in Ho.
          exact (run_complete _ _ Ho _ _ _ E).
        - injection Hp as <- ->. exact (proj2 Ha p1 p2 eq_refl Hn Ho). }
      split; [exact Hws1 |]. split; [exact Hr |]. split; [exact Hws2 |].
      split; [exact Hg |]. split; [simpl; rewrite Hi; lia |].
      split; assumption.
Qed.

(** ** JSON.parse *)

Lemma consumed_weaken {A B : Type} (s s' : jsstring) (m : Exc (A * jsstring))
    (f : A * jsstring -> B) :
  List.length s' <= List.length s ->
  consumed s' m ->
  consumed s (p <- m ;; Ok (f p, snd p)).
Proof.
  intros Hl. destruct m as [[a r] | e]; simpl; [lia | trivial].
Qed.

Lemma string_body_consumed_n (n : nat) :
  forall s, List.length s <= n -> consumed s (JSON.string_body s).
Proof.
  induction n as [| n IH]; intros [| c r] Hn; simpl in Hn;
    try exact eq_refl; try lia.
  assert (Hr : forall t u,
             List.length t <= List.length r ->
             consumed (c :: r)
               (p <- JSON.string_body t ;; Ok (u :: fst p, snd p))).
  { intros t u Ht.
    apply (consumed_weaken (c :: r) t _ (fun p => u :: fst p)).
    - simpl. lia.
    - apply IH. lia. }
  simpl JSON.string_body.
  destruct (c =? dq)%N; [simpl; lia |].
  destruct (c <? 32)%N; [exact eq_refl |].
  destruct (c =? bslash)%N; [| apply Hr; lia].
  destruct r as [| e r']; [exact eq_refl |].
  simpl in Hr.
  repeat match goal with
         | |- consumed _ (if ?b then _ else _) =>
             destruct b; [try (apply Hr; lia) |]
         end;
    try exact eq_refl.
  destruct r' as [| h1 [| h2 [| h3 [| h4 r'']]]]; try exact eq_refl.
  match goal with
  | |- consumed _ (if ?b then _ else _) => destruct b; [| exact eq_refl]
  end.
  apply Hr. simpl. lia.
Qed.

Lemma string_body_consumed (s : jsstring) : consumed s (JSON.string_body s).
Proof. apply (string_body_consumed_n (List.length s)). lia. Qed.

Lemma span_digits_length (s : jsstring) :
  List.length (fst (span_digits s)) + List.length (snd (span_digits s))
  = List.length s.
Proof.
  induction s as [| c r IH]; simpl; [exact eq_refl |].
  destruct (is_digit c); [| exact eq_refl].
  destruct (span_digits r) as [ds rest]. simpl in *. lia.
Qed.

Lemma scan_exponent_length (s : jsstring) (e : Z) (r : jsstring) :
  scan_exponent s = Some (e, r) -> List.length r <= List.length s.
Proof.
  unfold scan_exponent. destruct s as [| c t].
  - intros H. injection H as _ <-. lia.
  - destruct ((c =? 101) || (c =? 69))%N.
    + match goal with
      | |- (let (_, _) := ?x in _) = _ -> _ => set (pr := x)
      end.
      assert (Hpr : List.length (snd pr) <= List.length t).
      { subst pr. destruct t as [| sg t1]; simpl; [lia |].
        destruct (sg =? 45)%N; [simpl; lia |].
        destruct (sg =? 43)%N; simpl; lia. }
      destruct pr as [neg t']. simpl in Hpr.
      pose proof (span_digits_length t') as L.
      destruct (span_digits t') as [[| d ds] rest]; [discriminate |].
      intros H. injection H as _ <-. simpl in *. lia.
    + intros H. injection H as _ <-. lia.
Qed.

Lemma parse_number_consumed (s : jsstring) : consumed s (JSON.parse_number s).
Proof.
  unfold JSON.parse_number.
  match goal with
  | |- consumed _ (let (_, _) := ?x in _) => set (p1 := x)
  end.
  assert (H1 : List.length (snd p1) <= List.length s).
  { subst p1. destruct s as [| c r]; simpl; [lia |].
    destruct (c =? 45)%N; simpl; lia. }
  destruct p1 as [neg s1]. simpl in H1.
  match goal with
  | |- consumed _ (let (_, _) := ?x in _) => set (p2 := x)
  end.
  assert (H2 : List.length (fst p2) + List.length (snd p2) = List.length s1).
  { subst p2. destruct s1 as [| c r]; simpl; [lia |].
    destruct (c =? 48)%N; [simpl; lia |].
    apply (span_digits_length (c :: r)). }
  destruct p2 as [ip s2]. simpl in H2.
  destruct ip as [| d ip]; [exact eq_refl |].
  match goal with
  | |- consumed _ (match ?x with _ => _ end) => set (fr := x)
  end.
  assert (H3 : forall fp s3,
             fr = Some (fp, s3) -> List.length s3 <= List.length s2).
  { subst fr. intros fp s3. destruct s2 as [| c r].
    - intros H. injection H as _ <-. lia.
    - destruct (c =? 46)%N.
      + pose proof (span_digits_length r) as L.
        destruct (span_digits r) as [[| f fs] rest]; [discriminate |].
        intros H. injection H as _ <-. simpl in *. lia.
      + intros H. injection H as _ <-. lia. }
  destruct fr as [[fp s3] |]; [| exact eq_refl].
  specialize (H3 _ _ eq_refl).
  destruct (scan_exponent s3) as [[e s4] |] eqn:Ee; [| exact eq_refl].
  apply scan_exponent_length in Ee. simpl in *. lia.
Qed.

Lemma strip_prefix_length (p s r : jsstring) :
  JSON.strip_prefix p s = Some r ->
  List.length s = List.length p + List.length r.
Proof.
  revert s. induction p as [| x p IH]; intros [| y s]; simpl;
    try discriminate.
  - intros H. injection H as <-. reflexivity.
  - intros H. injection H as <-. reflexivity.
  - destruct (x =? y)%N; [| discriminate].
    intros H. rewrite (IH _ H). reflexivity.
Qed.

Lemma parse_word_consumed (w : string) (v : JsValue) (s : jsstring) :
  lit w <> [] -> consumed s (JSON.parse_word w v s).
Proof.
  intros Hw. unfold JSON.parse_word.
  destruct (JSON.strip_prefix (lit w) s) as [r |] eqn:E; [| exact eq_refl].
  apply strip_prefix_length in E. simpl.
  destruct (lit w); [congruence | simpl in E; lia].
Qed.

Lemma skip_ws_length (s : jsstring) :
  List.length (JSON.skip_ws s) <= List.length s.
Proof.
  induction s as [| c r IH]; simpl; [lia |].
  destruct (JSON.is_ws c); simpl; lia.
Qed.

Lemma skip_ws_cons (s : jsstring) (c : N) (r : jsstring) :
  JSON.skip_ws s = c :: r -> List.length r < List.length s.
Proof.
  intros H. pose proof (skip_ws_length s) as L. rewrite H in L.
  simpl in L. lia.
Qed.

Lemma expect_length (c : N) (s r : jsstring) :
  JSON.expect c s = Some r -> List.length r < List.length s.
Proof.
  unfold JSON.expect. destruct (JSON.skip_ws s) as [| x t] eqn:E;
    [discriminate |].
  destruct (x =? c)%N; [| discriminate].
  intros H. injection H as <-. exact (skip_ws_cons _ _ _ E).
Qed.

Section Members.

Variable value : JSON.parser.
Hypothesis value_consumed : forall s, consumed_opt s (value s).

Lemma members_consumed (g : nat) :
  forall r acc, consumed_opt r (JSON.members value g r acc).
Proof.
  induction g as [| g IH]; intros r acc; simpl; [exact I |].
  destruct (JSON.expect dq r) as [r0 |] eqn:E0; [| exact eq_refl].
  apply expect_length in E0.
  pose proof (string_body_consumed r0) as Hs.
  destruct (JSON.string_body r0) as [[k r1] | e]; [| exact Hs].
  simpl in Hs.
  destruct (JSON.expect 58 r1) as [r2 |] eqn:E2; [| exact eq_refl].
  apply expect_length in E2.
  pose proof (value_consumed r2) as Hv.
  destruct (value r2) as [[[v r3] | e] |]; [| exact Hv | exact I].
  simpl in Hv.
  destruct (JSON.expect 44 r3) as [r4 |] eqn:E4.
  - apply expect_length in E4.
    specialize (IH r4 (set_prop k v acc)).
    destruct (JSON.members value g r4 (set_prop k v acc)) as [[[o r5] | e] |];
      simpl in *; [lia | exact IH | exact I].
  - destruct (JSON.expect 125 r3) as [r4 |] eqn:E5; [| exact eq_refl].
    apply expect_length in E5. simpl. lia.
Qed.

Lemma elements_consumed (g : nat) :
  forall r acc, consumed_opt r (JSON.elements value g r acc).
Proof.
  induction g as [| g IH]; intros r acc; simpl; [exact I |].
  pose proof (value_consumed r) as Hv.
  destruct (value r) as [[[v r1] | e] |]; [| exact Hv | exact I].
  simpl in Hv.
  destruct (JSON.expect 44 r1) as [r2 |] eqn:E2.
  - apply expect_length in E2.
    specialize (IH r2 (acc ++ [v])).
    destruct (JSON.elements value g r2 (acc ++ [v])) as [[[o r5] | e] |];
      simpl in *; [lia | exact IH | exact I].
  - destruct (JSON.expect 93 r1) as [r2 |] eqn:E3; [| exact eq_refl].
    apply expect_length in E3. simpl. lia.
Qed.

Variable bound : nat.
Hypothesis value_fuel : forall s, List.length s < bound -> value s <> None.

Lemma members_fuel (g : nat) :
  forall r acc,
    List.length r < g -> List.length r <= bound ->
    JSON.members value g r acc <> None.
Proof.
  induction g as [| g IH]; intros r acc Hg Hb; simpl; [lia |].
  destruct (JSON.expect dq r) as [r0 |] eqn:E0; [| discriminate].
  apply expect_length in E0.
  pose proof (string_body_consumed r0) as Hs.
  destruct (JSON.string_body r0) as [[k r1] | e]; [| discriminate].
  simpl in Hs.
  destruct (JSON.expect 58 r1) as [r2 |] eqn:E2; [| discriminate].
  apply expect_length in E2.
  pose proof (value_consumed r2) as Hv.
  pose proof (value_fuel r2) as Hf.
  destruct (value r2) as [[[v r3] | e] |];
    [| discriminate | apply Hf; lia].
  simpl in Hv.
  destruct (JSON.expect 44 r3) as [r4 |] eqn:E4.
  - apply expect_length in E4. apply IH; lia.
  - destruct (JSON.expect 125 r3); discriminate.
Qed.

Lemma elements_fuel (g : nat) :
  forall r acc,
    List.length r < g -> List.length r < bound ->
    JSON.elements value g r acc <> None.
Proof.
  induction g as [| g IH]; intros r acc Hg Hb; simpl; [lia |].
  pose proof (value_consumed r) as Hv.
  pose proof (value_fuel r) as Hf.
  destruct (value r) as [[[v r1] | e] |];
    [| discriminate | apply Hf; lia].
  simpl in Hv.
  destruct (JSON.expect 44 r1) as [r2 |] eqn:E2.
  - apply expect_length in E2. apply IH; lia.
  - destruct (JSON.expect 93 r1); discriminate.
Qed.

End Members.

Lemma parse_value_consumed (fuel : nat) :
  forall s, consumed_opt s (JSON.parse_value fuel s).
Proof.
  induction fuel as [| f IH]; intros s; simpl; [exact I |].
  destruct (JSON.skip_ws s) as [| c r] eqn:E; [exact eq_refl |].
  pose proof (skip_ws_length s) as L. rewrite E in L. simpl in L.
  assert (W : forall A (m : Exc (A * jsstring)),
             consumed (c :: r) m -> consumed s m).
  { intros A [[a t] | e]; simpl; [lia | trivial]. }
  assert (Wo : forall t (m : option (Exc (JsValue * jsstring))),
             List.length t < List.length s ->
             consumed_opt t m -> consumed_opt s m).
  { intros t [[[a u] | e] |]; simpl; [lia | trivial | trivial]. }
  destruct (c =? 123)%N.
  { destruct (JSON.expect 125 r) as [r' |] eqn:E1.
    - apply expect_length in E1. simpl. lia.
    - apply (Wo r); [lia |]. apply members_consumed. exact IH. }
  destruct (c =? 91)%N.
  { destruct (JSON.expect 93 r) as [r' |] eqn:E1.
    - apply expect_length in E1. simpl. lia.
    - apply (Wo r); [lia |]. apply elements_consumed. exact IH. }
  destruct (c =? dq)%N.
  { simpl. apply (consumed_weaken s r _ (fun p => JStr (fst p))); [lia |].
    apply string_body_consumed. }
  destruct (c =? 116)%N.
  { simpl. apply W. apply parse_word_consumed. discriminate. }
  destruct (c =? 102)%N.
  { simpl. apply W. apply parse_word_consumed. discriminate. }
  destruct (c =? 110)%N.
  { simpl. apply W. apply parse_word_consumed. discriminate. }
  simpl. apply (consumed_weaken s (c :: r) _ (fun p => JNum (fst p)));
    [simpl; lia |].
  apply parse_number_consumed.
Qed.

(** With more fuel than the text has code units the parser never runs
    out of fuel. *)
Lemma parse_value_fuel (fuel : nat) :
  forall s, List.length s < fuel -> JSON.parse_value fuel s <> None.
Proof.
  induction fuel as [| f IH]; intros s Hs; simpl; [lia |].
  destruct (JSON.skip_ws s) as [| c r] eqn:E; [discriminate |].
  pose proof (skip_ws_length s) as L. rewrite E in L. simpl in L.
  destruct (c =? 123)%N.
  { destruct (JSON.expect 125 r); [discriminate |].
    apply (members_fuel (JSON.parse_value f) (parse_value_consumed f) f IH);
      lia. }
  destruct (c =? 91)%N.
  { destruct (JSON.expect 93 r); [discriminate |].
    apply (elements_fuel (JSON.parse_value f) (parse_value_consumed f) f IH);
      lia. }
  repeat match goal with
         | |- (if ?b then _ else _) <> None => destruct b
         end; discriminate.
Qed.

(** [JSON.parse] throws nothing but a SyntaxError, and never for want
    of fuel. *)
Lemma parse_throws (text : jsstring) (e : error) :
  JSON.parse text = Throw e -> e = SyntaxError.
Proof.
  unfold JSON.parse.
  pose proof (parse_value_consumed (S (List.length text)) text) as C.
  destruct (JSON.parse_value (S (List.length text)) text)
    as [[[v rest] | e'] |].
  - destruct (JSON.skip_ws rest); [discriminate |]. congruence.
  - simpl in C. congruence.
  - congruence.
Qed.

Lemma parse_value_enough (text : jsstring) :
  JSON.parse_value (S (List.length text)) text <> None.
Proof. apply parse_value_fuel. lia. Qed.

(** ** What the normalizer throws, and when it returns *)

Lemma type_errors_bind {A B : Type} (m : Exc A) (f : A -> Exc B) :
  type_errors m -> (forall a, type_errors (f a)) -> type_errors (bind m f).
Proof.
  intros Hm Hf e. destruct m as [a | e']; simpl.
  - apply Hf.
  - intros H. injection H as <-. apply Hm. reflexivity.
Qed.

Lemma type_errors_Ok {A : Type} (a : A) : type_errors (Ok a).
Proof. intros e H. discriminate. Qed.

Lemma type_errors_get (v : JsValue) (k : string) : type_errors (get v k).
Proof.
  intros e. destruct v; simpl; try discriminate; try congruence.
  - destruct (String.eqb k "length"); discriminate.
  - destruct (String.eqb k "length"); discriminate.
  - destruct (lookup (lit k) props); discriminate.
Qed.

Lemma type_errors_field_or (v : JsValue) (k : string) (d : JsValue) :
  type_errors (field_or v k d).
Proof.
  apply type_errors_bind; [apply type_errors_get |].
  intros a. apply type_errors_Ok.
Qed.

Lemma type_errors_toNumber (v : JsValue) : type_errors (toNumber v).
Proof.
  intros e. unfold toNumber. destruct (stringifiable v);
    [discriminate | congruence].
Qed.

Lemma type_errors_mapM {A B : Type} (f : A -> Exc B) (l : list A) :
  (forall a, type_errors (f a)) -> type_errors (mapM f l).
Proof.
  intros Hf. induction l as [| x l IH]; simpl; [apply type_errors_Ok |].
  apply type_errors_bind; [apply Hf |]. intros y.
  apply type_errors_bind; [exact IH |]. intros ys. apply type_errors_Ok.
Qed.

Lemma type_errors_js_map {B : Type} (v : JsValue) (f : JsValue -> Exc B) :
  (forall a, type_errors (f a)) -> type_errors (js_map v f).
Proof.
  intros Hf. destruct v; simpl; try (intros e H; congruence).
  apply type_errors_mapM. exact Hf.
Qed.

(** Closes a goal [type_errors m] for [m] built from the steps of the
    normalizer. *)
Ltac type_errors_steps :=
  repeat first
    [ apply type_errors_Ok
    | apply type_errors_field_or
    | apply type_errors_get
    | apply type_errors_toNumber
    | apply type_errors_bind; [| intros ?] ].

Lemma type_errors_toQuestion (q : JsValue) : type_errors (toQuestion q).
Proof. unfold toQuestion. type_errors_steps. Qed.

Lemma type_errors_toMaterial (m : JsValue) : type_errors (toMaterial m).
Proof. unfold toMaterial. type_errors_steps. Qed.

Lemma type_errors_toTool (t : JsValue) : type_errors (toTool t).
Proof. unfold toTool. destruct (is_string t); type_errors_steps. Qed.

Lemma type_errors_keepQuestion (q : JsValue) : type_errors (keepQuestion q).
Proof. unfold keepQuestion. destruct (truthy q); type_errors_steps. Qed.

Lemma type_errors_filterM (l : list JsValue) :
  type_errors (filterM keepQuestion l).
Proof.
  induction l as [| x l IH]; simpl; [apply type_errors_Ok |].
  apply type_errors_bind; [apply type_errors_keepQuestion |]. intros b.
  apply type_errors_bind; [exact IH |]. intros ys. apply type_errors_Ok.
Qed.

Lemma type_errors_normalize (parsed : JsValue) : type_errors (normalize parsed).
Proof.
  unfold normalize.
  repeat first
    [ apply type_errors_Ok
    | apply type_errors_field_or
    | apply type_errors_get
    | apply type_errors_toNumber
    | apply type_errors_js_map;
        first [ exact type_errors_toQuestion
              | exact type_errors_toMaterial
              | exact type_errors_toTool ]
    | match goal with
      | |- type_errors (match ?x with _ => _ end) =>
          destruct x; try apply type_errors_filterM
      end
    | apply type_errors_bind; [| intros ?] ].
Qed.

(** The error of line 339 leaves [parseResponse] exactly when no payload
    was located. *)
Lemma parse_failure_iff (text : jsstring) :
  parseResponse text
  = Throw (Error (lit "Failed to parse JSON from Gemini response"))
  <-> jsonMatch text = None.
Proof.
  unfold parseResponse. destruct (jsonMatch text) as [m |].
  - split; [| discriminate]. intros H. exfalso.
    destruct (JSON.parse (jsonStr m)) as [parsed | e] eqn:E; simpl in H.
    + apply type_errors_normalize in H. discriminate.
    + injection H as ->. apply parse_throws in E. discriminate.
  - split; reflexivity.
Qed.

Lemma mapM_Ok {A B : Type} (f : A -> Exc B) (P : A -> bool) (l : list A) :
  (forall a, P a = true -> exists b, f a = Ok b) ->
  forallb P l = true -> exists bs, mapM f l = Ok bs.
Proof.
  intros Hf. induction l as [| x l IH]; simpl; [eauto |].
  intros H. apply andb_true_iff in H. destruct H as [Hx Hl].
  destruct (Hf x Hx) as [y ->]. destruct (IH Hl) as [ys ->]. simpl. eauto.
Qed.

Lemma toQuestion_Ok (q : JsValue) :
  is_object q = true -> exists c, toQuestion q = Ok c.
Proof.
  destruct q; try discriminate. intros _.
  unfold toQuestion, field_or, get.
  repeat match goal with
         | |- context [lookup ?k props] => destruct (lookup k props)
         end; simpl; eauto.
Qed.

Lemma toMaterial_Ok (m : JsValue) :
  is_object m = true -> exists c, toMaterial m = Ok c.
Proof.
  destruct m; try discriminate. intros _.
  unfold toMaterial, field_or, get.
  repeat match goal with
         | |- context [lookup ?k props] => destruct (lookup k props)
         end; simpl; eauto.
Qed.

Lemma toTool_Ok (t : JsValue) :
  is_string t || is_object t = true -> exists c, toTool t = Ok c.
Proof.
  destruct t; try discriminate; intros _.
  - unfold toTool. simpl. eauto.
  - unfold toTool, field_or, get. simpl.
    repeat match goal with
           | |- context [lookup ?k props] => destruct (lookup k props)
           end; simpl; eauto.
Qed.

Lemma filterM_strings (l : list JsValue) :
  forallb is_string l = true -> exists ys, filterM keepQuestion l = Ok ys.
Proof.
  induction l as [| x l IH]; simpl; [eauto |].
  intros H. apply andb_true_iff in H. destruct H as [Hx Hl].
  destruct (IH Hl) as [ys ->].
  destruct x; try discriminate.
  unfold keepQuestion. destruct (truthy (JStr s)); simpl; eauto.
Qed.

Lemma returns_bind {A B : Type} (m : Exc A) (f : A -> Exc B) :
  (exists a, m = Ok a) ->
  (forall a, m = Ok a -> exists b, f a = Ok b) ->
  exists b, bind m f = Ok b.
Proof.
  intros [a Ha] Hf. rewrite Ha. simpl. apply Hf. exact Ha.
Qed.

Lemma get_obj (props : list (jsstring * JsValue)) (k : string) :
  exists v, get (JObj props) k = Ok v.
Proof. simpl. destruct (lookup (lit k) props); eauto. Qed.

Lemma field_or_obj (props : list (jsstring * JsValue)) (k : string)
    (d : JsValue) :
  exists v, field_or (JObj props) k d = Ok v.
Proof.
  unfold field_or. destruct (get_obj props k) as [v ->]. simpl. eauto.
Qed.

(** What reading a shaped field gives: nothing, or a value of the
    shape. *)
Lemma get_shaped (props : list (jsstring * JsValue)) (k : string)
    (P : JsValue -> bool) (a : JsValue) :
  shaped k P props = true ->
  get (JObj props) k = Ok a -> a = JUndefined \/ P a = true.
Proof.
  unfold shaped. simpl. destruct (lookup (lit k) props) as [v |].
  - intros H E. injection E as <-. right. exact H.
  - intros _ E. injection E as <-. left. reflexivity.
Qed.

Lemma field_or_shaped (props : list (jsstring * JsValue)) (k : string)
    (P : JsValue -> bool) (d a : JsValue) :
  shaped k P props = true ->
  field_or (JObj props) k d = Ok a -> a = d \/ P a = true.
Proof.
  intros H. unfold field_or. intros E.
  apply bind_Ok in E. destruct E as [v [Ev E]]. injection E as <-.
  destruct (get_shaped _ _ _ _ H Ev) as [-> | Hv].
  - left. reflexivity.
  - unfold or_else. destruct (truthy v); [right; exact Hv | left; reflexivity].
Qed.

(** An object whose traversed fields, where present, have the expected
    shapes is normalized without an error: missing keys get defaults. *)
Lemma normalize_well_shaped (props : list (jsstring * JsValue)) :
  well_shaped props = true -> exists r, normalize (JObj props) = Ok r.
Proof.
  unfold well_shaped. intros H.
  apply andb_true_iff in H. destruct H as [H Hsq'].
  apply andb_true_iff in H. destruct H as [H Hts'].
  apply andb_true_iff in H. destruct H as [H Hms'].
  apply andb_true_iff in H. destruct H as [Hc' Hqs'].
  unfold normalize.
  apply returns_bind; [apply field_or_obj | intros c Hc].
  apply returns_bind.
  { destruct (field_or_shaped _ _ _ _ _ Hc' Hc) as [-> | Hn].
    - eexists. reflexivity.
    - destruct c; try discriminate. eexists. reflexivity. }
  intros c' _.
  apply returns_bind; [apply get_obj | intros flag _].
  apply returns_bind; [apply field_or_obj | intros qs Hqs].
  apply returns_bind.
  { destruct (field_or_shaped _ _ _ _ _ Hqs' Hqs) as [-> | Hn].
    - eexists. reflexivity.
    - destruct qs; try discriminate.
      exact (mapM_Ok toQuestion is_object _ toQuestion_Ok Hn). }
  intros questions _.
  do 9 (apply returns_bind; [apply field_or_obj | intros ? _]).
  apply returns_bind; [apply field_or_obj | intros ms Hms].
  apply returns_bind.
  { destruct (field_or_shaped _ _ _ _ _ Hms' Hms) as [-> | Hn].
    - eexists. reflexivity.
    - destruct ms; try discriminate.
      exact (mapM_Ok toMaterial is_object _ toMaterial_Ok Hn). }
  intros materials _.
  apply returns_bind; [apply field_or_obj | intros ts Hts].
  apply returns_bind.
  { destruct (field_or_shaped _ _ _ _ _ Hts' Hts) as [-> | Hn].
    - eexists. reflexivity.
    - destruct ts; try discriminate.
      exact (mapM_Ok toTool _ _ toTool_Ok Hn). }
  intros tools _.
  do 6 (apply returns_bind; [apply field_or_obj | intros ? _]).
  apply returns_bind; [apply get_obj | intros sq Hsq].
  apply returns_bind.
  { destruct sq; try (eexists; reflexivity).
    destruct (get_shaped _ _ _ _ Hsq' Hsq) as [Hn | Hn]; [discriminate |].
    exact (filterM_strings _ Hn). }
  intros suggested _. eexists. reflexivity.
Qed.

(** A result has the default of every key the model output leaves out. *)
Lemma normalize_defaults (props : list (jsstring * JsValue))
    (r : AnalysisResult) :
  normalize (JObj props) = Ok r -> defaulted props r.
Proof.
  unfold normalize, field_or, get, defaulted, missing.
  intros H. peel H. injection H as <-. cbn [confidence confidenceLevel
    needsMoreInfo questions summary problemShort diyFriendly difficulty
    estimatedTime estimatedCost proEstimate immediateActions damage materials
    tools steps cureTimeNotes warnings callAProIf youtubeSearchQuery proType
    suggestedQuestions].
  split.
  { intros A. rewrite A in *. simpl in E. injection E as <-.
    vm_compute in E0. injection E0 as <-.
    split; [reflexivity |]. split; [reflexivity |]. apply orb_true_r. }
  repeat match goal with |- _ /\ _ => split end;
    intros A; rewrite A in *; simpl in *;
    repeat (match goal with
            | E : Ok _ = Ok _ |- _ => injection E as <-
            end; simpl in *);
    reflexivity.
Qed.

(** What the normalizer does with the payload it located. *)
Lemma decoded_intro (text : jsstring) (m : MatchResult) :
  jsonMatch text = Some m -> decoded text (jsonStr m).
Proof.
  intros Hm. split; [exists m; auto |]. unfold parseResponse. rewrite Hm.
  split; [| split].
  - intros Ht.
    destruct (JSON.parse (jsonStr m)) as [v | e] eqn:E; [contradiction |].
    apply parse_throws in E. subst e. reflexivity.
  - intros parsed ->. reflexivity.
  - intros props -> Hw. simpl.
    destruct (normalize_well_shaped props Hw) as [r Hr].
    exists r. split; [exact Hr |]. apply normalize_defaults. exact Hr.
Qed.

(** C6, as amended.  The normalizer fails with the error of line 339
    exactly when the raw text has neither a fenced block labelled as
    JSON nor a brace span.  Otherwise it works on a payload.  For a text
    with a fenced block the payload is the content of the first fence
    labelled as JSON that is closed later: what stands after the label
    and the white space following it, up to the white space before the
    closing fence, the content being the shortest after which the
    closing fence follows; when that content is empty the payload is
    the whole block.  For a text without a fenced block the payload is
    the span from the first opening brace to the last closing brace.
    The normalizer fails if the payload is not valid JSON; otherwise its
    result is the normalization of the parsed value, and it returns a
    result, with the default for every missing key, when that value is
    an object whose confidence, questions, materials, tools and
    suggestedQuestions, where present, have the expected shapes. *)
Theorem normalizer_failure (text : jsstring) :
  (parseResponse text
   = Throw (Error (lit "Failed to parse JSON from Gemini response"))
   <-> ~ fenced text /\ ~ braced text)
  /\ (fenced text ->
      exists a ws1 g ws2 c,
        text = a ++ lit "```json" ++ ws1 ++ g ++ ws2 ++ lit "```" ++ c
        /\ shortest opening a
             (lit "```json" ++ ws1 ++ g ++ ws2 ++ lit "```" ++ c)
        /\ forallb is_js_space ws1 = true
        /\ (forall x r, g ++ ws2 ++ lit "```" ++ c = x :: r ->
                        is_js_space x = false)
        /\ forallb is_js_space ws2 = true
        /\ shortest closing g (ws2 ++ lit "```" ++ c)
        /\ decoded text
             (match g with
              | [] => lit "```json" ++ ws1 ++ ws2 ++ lit "```"
              | _ :: _ => g
              end))
  /\ (~ fenced text -> braced text ->
      exists a w c,
        text = a ++ lit "{" ++ w ++ lit "}" ++ c
        /\ ~ In 123%N a /\ ~ In 125%N c
        /\ decoded text (lit "{" ++ w ++ lit "}")).
Proof.
  split; [| split].
  - rewrite parse_failure_iff. apply jsonMatch_None.
  - intros Hf. apply fence_re_spec in Hf.
    destruct (str_match fence_re text 0) as [m |] eqn:E; [| congruence].
    destruct (str_match_fence _ _ _ E)
      as (a & ws1 & g & ws2 & c & Ht & Ha & Hws1 & Hr & Hws2 & Hg & _ & H0
          & H1).
    exists a, ws1, g, ws2, c.
    repeat (split; [assumption |]).
    assert (Hm : jsonMatch text = Some m) by (unfold jsonMatch; rewrite E; reflexivity).
    pose proof (decoded_intro _ _ Hm) as D.
    unfold jsonStr in D. rewrite H1, H0 in D.
    destruct g as [| x g]; [| exact D].
    simpl app in D. exact D.
  - intros Hf Hb. apply brace_re_spec in Hb.
    assert (Hn : str_match fence_re text 0 = None).
    { destruct (str_match fence_re text 0) eqn:E; [| reflexivity].
      exfalso. apply Hf. apply fence_re_spec. rewrite E. discriminate. }
    destruct (str_match brace_re text 0) as [m |] eqn:E; [| congruence].
    destruct (str_match_brace _ _ _ E)
      as (a & w & c & Ht & Ha & Hc & _ & H0 & H1).
    exists a, w, c. repeat (split; [assumption |]).
    assert (Hm : jsonMatch text = Some m)
      by (unfold jsonMatch; rewrite Hn, E; reflexivity).
    pose proof (decoded_intro _ _ Hm) as D.
    unfold jsonStr in D. rewrite H1, H0 in D. exact D.
Qed.

Lemma normalizer_failure_witness :
  (exists r,
     parseResponse incomplete_object = Ok r
     /\ summary r = str "Leaking trap"
     /\ difficulty r = str "medium"
     /\ diyFriendly r = str "maybe"
     /\ steps r = JArr []
     /\ confidence r = n0_5)
  /\ (exists r,
        parseResponse fenced_text = Ok r
        /\ summary r = str "Unable to determine issue"
        /\ steps r = JArr []).
Proof.
  split.
  - assert (F : ~ fenced incomplete_object).
    { intros F. apply fence_re_spec in F. apply F. vm_compute. reflexivity. }
    assert (B : braced incomplete_object).
    { exists [], (quoted "'summary':'Leaking trap','tools':['wrench']"), [].
      reflexivity. }
    destruct (normalizer_failure incomplete_object) as (_ & _ & H).
    destruct (H F B) as (a & w & c & _ & _ & _ & (m & Hm & Hp) & _ & Hn & Hd).
    vm_compute in Hm. injection Hm as <-.
    destruct (Hd [(lit "summary", str "Leaking trap");
                  (lit "tools", JArr [str "wrench"])])
      as (r & Hr & D).
    + rewrite <- Hp. vm_compute. reflexivity.
    + reflexivity.
    + exists r. split; [exact Hr |].
      assert (S : summary r = str "Leaking trap").
      { rewrite (Hn (JObj [(lit "summary", str "Leaking trap");
                           (lit "tools", JArr [str "wrench"])])) in Hr.
        - vm_compute in Hr. injection Hr as <-. reflexivity.
        - rewrite <- Hp. vm_compute. reflexivity. }
      split; [exact S |].
      destruct D as (Dc & _ & _ & _ & _ & Dd & Df & _ & _ & _ & _ & _ & _ & _
                     & Ds & _).
      split; [apply Df; reflexivity |].
      split; [apply Dd; reflexivity |].
      split; [apply Ds; reflexivity |].
      apply Dc. reflexivity.
  - assert (F : fenced fenced_text).
    { exists (lit "Here you are: "),
        ([nl] ++ quoted "{'confidence':0.4}" ++ [nl]),
        (lit " Anything else?").
      reflexivity. }
    destruct (normalizer_failure fenced_text) as (_ & H & _).
    destruct (H F)
      as (a & ws1 & g & ws2 & c & _ & _ & _ & _ & _ & _ & (m & Hm & Hp) & _
          & _ & Hd).
    vm_compute in Hm. injection Hm as <-.
    destruct (Hd [(lit "confidence", JNum (double_of_Q (4 # 10)))])
      as (r & Hr & D).
    + rewrite <- Hp. vm_compute. reflexivity.
    + reflexivity.
    + exists r. split; [exact Hr |].
      destruct D as (_ & _ & _ & Dsum & _ & _ & _ & _ & _ & _ & _ & _ & _ & _
                     & Ds & _).
      split; [apply Dsum; reflexivity | apply Ds; reflexivity].
Defined.

(** C6, as stated, fails: a payload is located in each of these texts
    and the normalizer raises.  The first has a trailing comma; in the
    second the span from the first opening brace to the last closing
    brace takes in the prose after the object. *)
Lemma located_payload_rejected :
  (braced (quoted "{'confidence':0.9,}")
   /\ parseResponse (quoted "{'confidence':0.9,}") = Throw SyntaxError)
  /\ (braced (quoted "{'confidence':0.9} (see {note})")
      /\ parseResponse (quoted "{'confidence':0.9} (see {note})")
         = Throw SyntaxError).
Proof.
  split; split.
  - exists [], (quoted "'confidence':0.9,"), []. reflexivity.
  - vm_compute. reflexivity.
  - exists [], (quoted "'confidence':0.9"), (quoted " (see {note})").
    reflexivity.
  - vm_compute. reflexivity.
Qed.

(* ================================================================== *)
(** * Further properties of the code *)

(** ** [String.prototype.trim] *)

Lemma drop_space_split (s : jsstring) :
  exists w, s = w ++ drop_space s /\ forallb is_js_space w = true.
Proof.
  induction s as [| c r (w & Hw & Hs)]; simpl.
  - exists []. auto.
  - destruct (is_js_space c) eqn:E.
    + exists (c :: w). simpl. rewrite E, Hs. split; [f_equal; exact Hw | reflexivity].
    + exists []. auto.
Qed.

Lemma drop_space_head (s : jsstring) (c : N) (r : jsstring) :
  drop_space s = c :: r -> is_js_space c = false.
Proof.
  induction s as [| x s IH]; simpl; [discriminate |].
  destruct (is_js_space x) eqn:E; [exact IH |].
  intros H. injection H as <- _. exact E.
Qed.

Lemma drop_space_id (s : jsstring) :
  (forall c r, s = c :: r -> is_js_space c = false) -> drop_space s = s.
Proof.
  destruct s as [| c r]; simpl; [reflexivity |].
  intros H. rewrite (H c r eq_refl). reflexivity.
Qed.

Lemma forallb_rev (P : N -> bool) (l : jsstring) :
  forallb P l = true -> forallb P (rev l) = true.
Proof.
  rewrite !forallb_forall. intros H x Hx. apply H. apply in_rev. exact Hx.
Qed.

(** What [trim] takes off is white space at the two ends, and what it
    leaves has none there. *)
Lemma trim_split (s : jsstring) :
  exists a b,
    s = a ++ trim s ++ b
    /\ forallb is_js_space a = true /\ forallb is_js_space b = true.
Proof.
  unfold trim.
  destruct (drop_space_split s) as (a & Ha & Hsa).
  destruct (drop_space_split (rev (drop_space s))) as (w & Hw & Hsw).
  exists a, (rev w). split; [| split; [exact Hsa | exact (forallb_rev _ _ Hsw)]].
  rewrite <- rev_app_distr, <- Hw, rev_involutive. exact Ha.
Qed.

Lemma trim_trimmed (s : jsstring) : trimmed (trim s).
Proof.
  unfold trimmed, trim. split.
  - intros c r H.
    destruct (drop_space_split (rev (drop_space s))) as (w & Hw & _).
    apply (f_equal (@rev N)) in Hw.
    rewrite rev_involutive, rev_app_distr, H in Hw. simpl in Hw.
    apply (drop_space_head s c (r ++ rev w)). exact Hw.
  - intros c r H.
    apply (f_equal (@rev N)) in H.
    rewrite rev_involutive, rev_app_distr in H. simpl in H.
    exact (drop_space_head _ _ _ H).
Qed.

Lemma trimmed_trim (s : jsstring) : trimmed s -> trim s = s.
Proof.
  intros [Hh Hl]. unfold trim.
  rewrite (drop_space_id s Hh).
  rewrite drop_space_id; [apply rev_involutive |].
  intros c r H. apply (Hl c (rev r)).
  apply (f_equal (@rev N)) in H. rewrite rev_involutive in H.
  rewrite H. reflexivity.
Qed.

Lemma trim_blank (s : jsstring) :
  trim s = [] <-> forallb is_js_space s = true.
Proof.
  split.
  - intros H. destruct (trim_split s) as (a & b & Hs & Ha & Hb).
    rewrite H in Hs. rewrite Hs. simpl. rewrite forallb_app, Ha, Hb.
    reflexivity.
  - intros H. unfold trim.
    assert (D : forall t, forallb is_js_space t = true -> drop_space t = []).
    { induction t as [| c t IH]; simpl; [reflexivity |].
      intros X. apply andb_true_iff in X. destruct X as [-> X]. auto. }
    rewrite (D s H). reflexivity.
Qed.

(** ** The chat responder *)

Lemma contains_join (sep : jsstring) (l : list jsstring) (x : jsstring) :
  In x l -> contains (join sep l) x.
Proof.
  induction l as [| y l IH]; simpl; [contradiction |].
  intros [-> | H].
  - destruct l; [apply contains_refl | apply contains_head].
  - destruct l as [| z l]; [contradiction |].
    apply contains_app_l, contains_app_l. exact (IH H).
Qed.

Lemma map_index_length {A B : Type} (f : A -> nat -> B) (l : list A) :
  forall start, List.length (map_index f l start) = List.length l.
Proof.
  induction l as [| x l IH]; intros start; simpl; [reflexivity |].
  rewrite IH. reflexivity.
Qed.

Lemma map_index_nth {A B : Type} (f : A -> nat -> B) (l : list A) :
  forall start i x,
    nth_error l i = Some x ->
    nth_error (map_index f l start) i = Some (f x (start + i)).
Proof.
  induction l as [| y l IH]; intros start [| i] x; simpl; try discriminate.
  - intros H. injection H as <-. rewrite Nat.add_0_r. reflexivity.
  - intros H. rewrite (IH (S start) i x H). f_equal. f_equal. lia.
Qed.

Lemma join_nil_inv (sep : jsstring) (l : list jsstring) :
  join sep l = [] -> Forall (fun x => x = []) l.
Proof.
  induction l as [| x l IH]; simpl; [constructor |].
  destruct l as [| y l].
  - intros ->. repeat constructor.
  - intros H. apply app_eq_nil in H. destruct H as [-> H].
    apply app_eq_nil in H. destruct H as [_ H].
    constructor; [reflexivity | exact (IH H)].
Qed.

(** X1. The analysis block of the chat prompt is empty exactly when the
    context has nothing to show: no problem, no summary and no
    materials, tools, steps or warnings. *)
Theorem analysis_section_empty (context : AnalysisContext) :
  buildAnalysisSection context = []
  <-> ctx_problemShort context = [] /\ ctx_summary context = []
      /\ ctx_materials context = [] /\ ctx_tools context = []
      /\ ctx_steps context = [] /\ ctx_warnings context = [].
Proof.
  unfold buildAnalysisSection, analysisParts. split.
  - intros H. apply join_nil_inv in H.
    destruct (ctx_problemShort context);
      [| simpl in H; inversion H; discriminate].
    destruct (ctx_summary context);
      [| simpl in H; inversion H; discriminate].
    destruct (ctx_materials context);
      [| simpl in H; inversion H; discriminate].
    destruct (ctx_tools context);
      [| simpl in H; inversion H; discriminate].
    destruct (ctx_steps context);
      [| simpl in H; inversion H; discriminate].
    destruct (ctx_warnings context);
      [| simpl in H; inversion H; discriminate].
    repeat split.
  - intros (-> & -> & -> & -> & -> & ->). reflexivity.
Qed.

(** X2. When the context has steps, the analysis block has one "Steps:"
    line listing every step in order, the i-th one (counting from 0)
    written as the decimal of i+1, a dot, a space and the step. *)
Theorem steps_numbered (context : AnalysisContext) :
  ctx_steps context <> [] ->
  exists items,
    contains (buildAnalysisSection context)
      (lit "Steps: " ++ join (lit " ") items)
    /\ List.length items = List.length (ctx_steps context)
    /\ forall i s,
         nth_error (ctx_steps context) i = Some s ->
         nth_error items i = Some (nat_to_string (i + 1) ++ lit ". " ++ s).
Proof.
  intros Hs. exists (map_index numberedStep (ctx_steps context) 0).
  split; [| split].
  - unfold buildAnalysisSection, analysisParts. apply contains_join.
    apply in_or_app. right. apply in_or_app. right.
    apply in_or_app. right. apply in_or_app. right.
    apply in_or_app. left.
    unfold listPart.
    destruct (ctx_steps context) as [| s0 ss]; [congruence |].
    simpl map_index. left. reflexivity.
  - apply map_index_length.
  - intros i s Hi. rewrite (map_index_nth numberedStep _ 0 i s Hi).
    reflexivity.
Qed.

Lemma steps_numbered_witness :
  exists items,
    contains
      (buildAnalysisSection sample_context)
      (lit "Steps: " ++ join (lit " ") items)
    /\ List.length items = 2
    /\ forall i s,
         nth_error (ctx_steps sample_context) i = Some s ->
         nth_error items i = Some (nat_to_string (i + 1) ++ lit ". " ++ s).
Proof.
  apply (steps_numbered sample_context). discriminate.
Defined.

(** X3. Every earlier turn of the chat is in the prompt: with a
    non-empty history the prompt has the block "CONVERSATION SO FAR:"
    with one line per message in the order of the history, "User: ..."
    for a message of the user and "You: ..." for one of the assistant. *)
Theorem chat_history_in_prompt (CHAT_SYSTEM_PROMPT originalDescription : jsstring)
    (analysisContext : AnalysisContext)
    (conversationHistory : list ChatMessageDTO) (newMessage : jsstring) :
  conversationHistory <> [] ->
  exists lines,
    contains
      (chatPrompt CHAT_SYSTEM_PROMPT originalDescription analysisContext
         conversationHistory newMessage)
      (lit "CONVERSATION SO FAR:" ++ [nl] ++ join [nl] lines ++ [nl])
    /\ List.length lines = List.length conversationHistory
    /\ forall i msg,
         nth_error conversationHistory i = Some msg ->
         nth_error lines i
         = Some (match msg_role msg with
                 | role_user => lit "User: " ++ msg_content msg
                 | role_assistant => lit "You: " ++ msg_content msg
                 end).
Proof.
  intros Hh. exists (map historyLine conversationHistory).
  split; [| split].
  - unfold chatPrompt. do 18 apply contains_app_l.
    unfold buildHistorySection.
    destruct conversationHistory as [| m h]; [congruence |].
    apply contains_head.
  - apply length_map.
  - intros i msg Hi. rewrite nth_error_map, Hi. simpl. f_equal.
    unfold historyLine. destruct (msg_role msg); reflexivity.
Qed.

Lemma chat_history_in_prompt_witness :
  exists lines,
    contains
      (chatPrompt (lit "Be brief.") (lit "Leaking trap") sample_context
         sample_chat (lit "Can I use tape?"))
      (lit "CONVERSATION SO FAR:" ++ [nl] ++ join [nl] lines ++ [nl])
    /\ List.length lines = 2
    /\ forall i msg,
         nth_error sample_chat i = Some msg ->
         nth_error lines i
         = Some (match msg_role msg with
                 | role_user => lit "User: " ++ msg_content msg
                 | role_assistant => lit "You: " ++ msg_content msg
                 end).
Proof.
  apply (chat_history_in_prompt (lit "Be brief.") (lit "Leaking trap")
           sample_context sample_chat (lit "Can I use tape?")).
  discriminate.
Defined.

(** X4. What [chatWithExpert] returns is the text of the model without
    the white space at its two ends: the text is the response between
    two runs of white space, and the response neither starts nor ends
    with white space. *)
Theorem chat_response_trimmed (CHAT_SYSTEM_PROMPT : jsstring)
    (generateText : jsstring -> Exc jsstring)
    (GEMINI_API_KEY : option jsstring) (genAI genAI' : bool)
    (originalDescription : jsstring) (analysisContext : AnalysisContext)
    (conversationHistory : list ChatMessageDTO) (newMessage response : jsstring) :
  chatWithExpert CHAT_SYSTEM_PROMPT generateText GEMINI_API_KEY genAI
    originalDescription analysisContext conversationHistory newMessage
  = (genAI', Ok response) ->
  exists text a b,
    generateText (chatPrompt CHAT_SYSTEM_PROMPT originalDescription
                    analysisContext conversationHistory newMessage) = Ok text
    /\ text = a ++ response ++ b
    /\ forallb is_js_space a = true /\ forallb is_js_space b = true
    /\ trimmed response.
Proof.
  unfold chatWithExpert.
  destruct (getGenAI GEMINI_API_KEY genAI) as [g | e0]; [| discriminate].
  intros H. injection H as _ H.
  destruct (generateText _) as [text | e] eqn:E; simpl in H; [| discriminate].
  injection H as <-.
  destruct (trim_split text) as (a & b & Hs & Ha & Hb).
  exists text, a, b. repeat split; try assumption; apply trim_trimmed.
Qed.

Lemma chat_response_trimmed_witness :
  exists text a b,
    padded_reply
      (chatPrompt (lit "Be brief.") (lit "Leaking trap") sample_context
         sample_chat (lit "Can I use tape?")) = Ok text
    /\ text = a ++ lit "Yes, tape works." ++ b
    /\ forallb is_js_space a = true /\ forallb is_js_space b = true
    /\ trimmed (lit "Yes, tape works.").
Proof.
  apply (chat_response_trimmed (lit "Be brief.") padded_reply
           (Some (lit "key")) false true (lit "Leaking trap") sample_context
           sample_chat (lit "Can I use tape?")).
  vm_compute. reflexivity.
Defined.

(** ** More on the result normalizer *)

Lemma Forall2_Forall_r {A B : Type} (R : A -> B -> Prop) (P : B -> Prop)
    (l : list A) (ys : list B) :
  (forall x y, R x y -> P y) -> Forall2 R l ys -> Forall P ys.
Proof.
  intros H F. induction F; constructor; eauto.
Qed.

Lemma Forall2_nth {A B : Type} (R : A -> B -> Prop) (l : list A)
    (ys : list B) :
  Forall2 R l ys ->
  forall i x, nth_error l i = Some x ->
              exists y, nth_error ys i = Some y /\ R x y.
Proof.
  intros F. induction F as [| a b l ys Hab F IH]; intros [| i] x; simpl;
    try discriminate.
  - intros H. injection H as <-. eauto.
  - apply IH.
Qed.

Lemma or_else_defined (v d : JsValue) :
  nullish d = false -> nullish (or_else v d) = false.
Proof.
  intros H. unfold or_else. destruct (truthy v) eqn:E; [| exact H].
  destruct v; simpl in E; try discriminate; reflexivity.
Qed.

Lemma field_or_defined (p : JsValue) (k : string) (d v : JsValue) :
  nullish d = false -> field_or p k d = Ok v -> nullish v = false.
Proof.
  intros Hd H. unfold field_or in H. apply bind_Ok in H.
  destruct H as [x [_ H]]. injection H as <-. apply or_else_defined. exact Hd.
Qed.

(** X6. No consumer of a result meets an absent value: every value
    field of every result is neither [undefined] nor [null], and so is
    every field of every clarifying question, material and tool. *)
Theorem result_fields_defined (parsed : JsValue) (r : AnalysisResult) :
  normalize parsed = Ok r ->
  Forall (fun v => nullish v = false)
    [summary r; problemShort r; diyFriendly r; difficulty r;
     estimatedTime r; estimatedCost r; proEstimate r; immediateActions r;
     damage r; steps r; cureTimeNotes r; warnings r; callAProIf r;
     youtubeSearchQuery r; proType r]
  /\ Forall (fun q => nullish (question q) = false) (questions r)
  /\ Forall (fun m => Forall (fun v => nullish v = false)
                        [mat_item m; mat_spec m; mat_qty m;
                         mat_description m; mat_howToUse m;
                         mat_estimatedCost m])
       (materials r)
  /\ Forall (fun t => Forall (fun v => nullish v = false)
                        [tool_name t; tool_description t; tool_howToUse t])
       (tools r).
Proof.
  intros H.
  destruct (normalize_lists _ _ H)
    as (qs & ms & ts & sq & _ & Hq & _ & Hm & _ & Ht & _ & _).
  split; [| split; [| split]].
  - unfold normalize in H. peel H. injection H as <-. simpl.
    repeat constructor;
      (eapply field_or_defined; [| eassumption]; reflexivity).
  - destruct qs; try discriminate. simpl in Hq.
    apply mapM_Forall2 in Hq.
    refine (Forall2_Forall_r _ _ _ _ _ Hq).
    intros x y Hxy. unfold toQuestion in Hxy. peel Hxy.
    injection Hxy as <-. simpl.
    eapply field_or_defined; [| eassumption]. reflexivity.
  - destruct ms; try discriminate. simpl in Hm.
    apply mapM_Forall2 in Hm.
    refine (Forall2_Forall_r _ _ _ _ _ Hm).
    intros x y Hxy. unfold toMaterial in Hxy. peel Hxy.
    injection Hxy as <-. simpl.
    repeat constructor;
      (eapply field_or_defined; [| eassumption]; reflexivity).
  - destruct ts; try discriminate. simpl in Ht.
    apply mapM_Forall2 in Ht.
    refine (Forall2_Forall_r _ _ _ _ _ Ht).
    intros x y Hxy. unfold toTool in Hxy.
    destruct (is_string x) eqn:Es.
    + simpl in Hxy. injection Hxy as <-. simpl.
      destruct x; try discriminate. repeat constructor.
    + peel Hxy. injection Hxy as <-. simpl.
      repeat constructor;
        (eapply field_or_defined; [| eassumption]; reflexivity).
Qed.

Lemma result_fields_defined_witness :
  exists r,
    parseResponse
      (quoted "{'summary':null,'steps':null,'tools':[{'name':null},'tape']}")
    = Ok r
    /\ nullish (summary r) = false /\ nullish (steps r) = false
    /\ Forall (fun t => Forall (fun v => nullish v = false)
                          [tool_name t; tool_description t; tool_howToUse t])
         (tools r).
Proof.
  eexists. split; [vm_compute; reflexivity |].
  pose proof (result_fields_defined
                (JObj [(lit "summary", JNull); (lit "steps", JNull);
                       (lit "tools",
                        JArr [JObj [(lit "name", JNull)]; str "tape"])])
                _ eq_refl) as (F & _ & _ & T).
  split; [| split; [| exact T]].
  - inversion F. assumption.
  - repeat match goal with
           | X : Forall _ (_ :: _) |- _ => inversion X; clear X; subst
           end; assumption.
Defined.

(** X7. The mapping neither drops nor adds entries: when the model
    output lists questions, materials or tools as an array, the result
    has as many of them, each made from the entry at its place. *)
Theorem entries_preserved (parsed : JsValue) (r : AnalysisResult) :
  normalize parsed = Ok r ->
  (forall l, get parsed "questions" = Ok (JArr l) ->
             Forall2 (fun q c => toQuestion q = Ok c) l (questions r)
             /\ List.length (questions r) = List.length l)
  /\ (forall l, get parsed "materials" = Ok (JArr l) ->
                Forall2 (fun m c => toMaterial m = Ok c) l (materials r)
                /\ List.length (materials r) = List.length l)
  /\ (forall l, get parsed "tools" = Ok (JArr l) ->
                Forall2 (fun t c => toTool t = Ok c) l (tools r)
                /\ List.length (tools r) = List.length l).
Proof.
  intros H.
  destruct (normalize_lists _ _ H)
    as (qs & ms & ts & sq & Eq & Hq & Em & Hm & Et & Ht & _ & _).
  split; [| split]; intros l Hl.
  - rewrite (field_or_array _ _ _ _ Hl Eq) in Hq. simpl in Hq.
    apply mapM_Forall2 in Hq. split; [exact Hq |].
    symmetry. exact (Forall2_length Hq).
  - rewrite (field_or_array _ _ _ _ Hl Em) in Hm. simpl in Hm.
    apply mapM_Forall2 in Hm. split; [exact Hm |].
    symmetry. exact (Forall2_length Hm).
  - rewrite (field_or_array _ _ _ _ Hl Et) in Ht. simpl in Ht.
    apply mapM_Forall2 in Ht. split; [exact Ht |].
    symmetry. exact (Forall2_length Ht).
Qed.

Lemma entries_preserved_witness :
  exists r,
    normalize (JObj [(lit "tools", JArr [str "sponge"; JObj []])]) = Ok r
    /\ List.length (tools r) = 2.
Proof.
  eexists. split; [vm_compute; reflexivity |].
  destruct (entries_preserved
              (JObj [(lit "tools", JArr [str "sponge"; JObj []])]) _ eq_refl)
    as (_ & _ & T).
  exact (proj2 (T _ eq_refl)).
Defined.

(** X8. Tools of either form come out in the one shape: a tool the
    model gave as a plain string becomes the tool of that name with
    empty description and usage, at the same place in the list; a tool
    given as an object keeps its name, description and usage, each
    replaced by the empty string when missing or falsy. *)
Theorem tools_normalized (parsed : JsValue) (r : AnalysisResult)
    (l : list JsValue) :
  normalize parsed = Ok r ->
  get parsed "tools" = Ok (JArr l) ->
  forall i t,
    nth_error l i = Some t ->
    exists tool,
      nth_error (tools r) i = Some tool
      /\ (forall s, t = JStr s ->
            tool = {| tool_name := JStr s; tool_description := str "";
                      tool_howToUse := str "" |})
      /\ (forall props, t = JObj props ->
            forall name desc how,
              get t "name" = Ok name ->
              get t "description" = Ok desc ->
              get t "howToUse" = Ok how ->
              tool = {| tool_name := or_else name (str "");
                        tool_description := or_else desc (str "");
                        tool_howToUse := or_else how (str "") |}).
Proof.
  intros H Hl i t Hi.
  destruct (normalize_lists _ _ H)
    as (qs & ms & ts & sq & _ & _ & _ & _ & Et & Ht & _ & _).
  rewrite (field_or_array _ _ _ _ Hl Et) in Ht. simpl in Ht.
  apply mapM_Forall2 in Ht.
  destruct (Forall2_nth _ _ _ Ht i t Hi) as (tool & Hn & Htool).
  exists tool. split; [exact Hn |]. split.
  - intros s ->. unfold toTool in Htool. simpl in Htool.
    injection Htool as <-. reflexivity.
  - intros props -> name desc how En Ed Eh.
    unfold toTool, field_or in Htool. simpl is_string in Htool.
    cbv iota in Htool. rewrite En, Ed, Eh in Htool. simpl in Htool.
    injection Htool as <-. reflexivity.
Qed.

Lemma tools_normalized_witness :
  exists r tool,
    parseResponse
      (quoted "{'tools':['sponge',{'name':'wrench','description':'loosen fitting'}]}")
    = Ok r
    /\ nth_error (tools r) 0 = Some tool
    /\ tool = {| tool_name := str "sponge"; tool_description := str "";
                 tool_howToUse := str "" |}.
Proof.
  eexists.
  destruct (tools_normalized
              (JObj [(lit "tools",
                      JArr [str "sponge";
                            JObj [(lit "name", str "wrench");
                                  (lit "description", str "loosen fitting")]])])
              _ _ eq_refl eq_refl 0 (str "sponge") eq_refl)
    as (tool & Hn & Hs & _).
  exists tool. split; [vm_compute; reflexivity |].
  split; [exact Hn | exact (Hs _ eq_refl)].
Defined.

Lemma filterM_filter (l : list JsValue) :
  forall ys,
    filterM keepQuestion l = Ok ys ->
    ys = filter (fun q => match keepQuestion q with
                          | Ok b => b
                          | Throw _ => false
                          end) l.
Proof.
  induction l as [| x l IH]; simpl; intros ys H.
  - injection H as <-. reflexivity.
  - apply bind_Ok in H. destruct H as [b [Hb H]].
    apply bind_Ok in H. destruct H as [ys' [Hys H]].
    injection H as <-. rewrite Hb, (IH _ Hys). reflexivity.
Qed.

Lemma keepQuestion_string (s : jsstring) :
  keepQuestion (JStr s) = Ok (match s with [] => false | _ => true end).
Proof.
  destruct s as [| c s]; [reflexivity |].
  unfold keepQuestion. simpl. unfold toNumber, num_gt. simpl. f_equal.
Qed.

(** X9. The suggested questions of a result are those of the model
    output that pass the filter, in their order: nothing falsy stays,
    no empty string stays, and every non-empty string stays.  A model
    output whose [suggestedQuestions] is not an array gives none. *)
Theorem suggestedQuestions_filtered (parsed : JsValue) (r : AnalysisResult) :
  normalize parsed = Ok r ->
  (forall l,
     get parsed "suggestedQuestions" = Ok (JArr l) ->
     exists keep,
       suggestedQuestions r = filter keep l
       /\ (forall q, keep q = true -> truthy q = true)
       /\ (forall s, keep (JStr s) = true <-> s <> []))
  /\ (forall v,
        get parsed "suggestedQuestions" = Ok v ->
        (forall l, v <> JArr l) -> suggestedQuestions r = []).
Proof.
  intros H.
  destruct (normalize_lists _ _ H)
    as (qs & ms & ts & sq & _ & _ & _ & _ & _ & _ & Es & Hs).
  split.
  - intros l Hl. rewrite Hl in Es. injection Es as <-.
    eexists. split; [exact (filterM_filter _ _ Hs) |]. split.
    + intros q. unfold keepQuestion. destruct (truthy q); [trivial |].
      discriminate.
    + intros s. rewrite keepQuestion_string.
      destruct s; split; congruence.
  - intros v Hv Hn. rewrite Hv in Es. injection Es as <-.
    destruct v; try (injection Hs as <-; reflexivity).
    exfalso. exact (Hn _ eq_refl).
Qed.

Lemma suggestedQuestions_filtered_witness :
  exists r,
    parseResponse
      (quoted "{'suggestedQuestions':['','How long will it last?',null]}")
    = Ok r
    /\ suggestedQuestions r = [str "How long will it last?"].
Proof.
  destruct (suggestedQuestions_filtered
              (JObj [(lit "suggestedQuestions",
                      JArr [str ""; str "How long will it last?"; JNull])])
              _ eq_refl) as [K _].
  destruct (K _ eq_refl) as (keep & Hf & Ht & Hs).
  eexists. split; [vm_compute; reflexivity |].
  etransitivity; [exact Hf |]. simpl filter.
  destruct (keep (str "")) eqn:E1;
    [apply Hs in E1; exfalso; apply E1; reflexivity |].
  assert (E2 : keep (str "How long will it last?") = true)
    by (apply Hs; discriminate).
  rewrite E2.
  destruct (keep JNull) eqn:E3; [| reflexivity].
  apply Ht in E3. discriminate.
Defined.

Lemma confidence_clamped_witness :
  exists r,
    parseResponse (quoted "{'confidence':1.7}") = Ok r
    /\ confidence r = n1 /\ in_unit_interval (confidence r).
Proof.
  eexists. split; [vm_compute; reflexivity |].
  destruct (confidence_clamped
              (JObj [(lit "confidence", JNum (double_of_Q (17 # 10)))])
              _ eq_refl) as (s & c & Hs & Hc & Hr & _ & Hi & _).
  vm_compute in Hs. injection Hs as <-.
  vm_compute in Hc. injection Hc as <-.
  split; [reflexivity |]. apply Hi. discriminate.
Defined.

(** X11. The level never goes down when the confidence goes up. *)
Theorem getConfidenceLevel_monotone (a b : number) :
  num_ge b a = true ->
  level_rank (getConfidenceLevel a) <= level_rank (getConfidenceLevel b).
Proof.
  intros H. unfold getConfidenceLevel.
  destruct (num_ge a n0_8) eqn:A8.
  - rewrite (num_ge_trans _ _ _ H A8). simpl. lia.
  - destruct (num_ge a n0_6) eqn:A6.
    + rewrite (num_ge_trans _ _ _ H A6).
      destruct (num_ge b n0_8); simpl; lia.
    + simpl. lia.
Qed.

Lemma getConfidenceLevel_monotone_witness :
  level_rank (getConfidenceLevel (double_of_Q (65 # 100)))
  <= level_rank (getConfidenceLevel (double_of_Q (9 # 10))).
Proof.
  apply getConfidenceLevel_monotone. vm_compute. reflexivity.
Defined.

(** X12. The flag and the level agree, the confidence being a number: a
    result that asks for nothing more is never labelled "low", and a
    result labelled "low" always asks for more.  And at level "high"
    the result asks for more only if the model's own flag said so. *)
Theorem flag_and_level (parsed : JsValue) (r : AnalysisResult) :
  normalize parsed = Ok r ->
  (confidence r <> NaN ->
   (needsMoreInfo r = false -> confidenceLevel r <> low)
   /\ (confidenceLevel r = low -> needsMoreInfo r = true))
  /\ (confidenceLevel r = high ->
      needsMoreInfo r = true -> get parsed "needsMoreInfo" = Ok (JBool true)).
Proof.
  intros H.
  destruct (normalize_Ok _ _ H)
    as (s & c & flag & _ & _ & Hf & _ & Hl & Hn & _).
  pose proof (getConfidenceLevel_cases (confidence r)) as (Hh & _ & Hlow).
  rewrite <- Hl in Hh, Hlow.
  split.
  - intros Hnan.
    assert (A : needsMoreInfo r = false -> confidenceLevel r <> low).
    { intros Hm Hlo. rewrite Hn in Hm. apply orb_false_iff in Hm.
      destruct Hm as [_ Hlt].
      rewrite num_lt_ge in Hlt; [| exact Hnan | discriminate].
      apply negb_false_iff in Hlt.
      apply Hlow in Hlo.
      assert (X : num_ge (confidence r) n0_6 = true).
      { apply (num_ge_trans _ n0_7 _ Hlt). reflexivity. }
      congruence. }
    split; [exact A |].
    intros Hlo. destruct (needsMoreInfo r) eqn:E; [reflexivity |].
    exfalso. exact (A eq_refl Hlo).
  - intros Hhi Hm. apply Hh in Hhi.
    assert (Hlt : num_lt (confidence r) n0_7 = false).
    { rewrite num_lt_ge;
        [| exact (num_ge_not_NaN _ _ Hhi) | discriminate].
      apply negb_false_iff.
      apply (num_ge_trans _ n0_8 _ Hhi). reflexivity. }
    rewrite Hn, Hlt, orb_false_r in Hm.
    rewrite Hf. destruct flag as [| | [|] | | | |]; try discriminate.
    reflexivity.
Qed.

Lemma flag_and_level_witness :
  exists r,
    parseResponse (quoted "{'confidence':0.75}") = Ok r
    /\ needsMoreInfo r = false /\ confidenceLevel r <> low.
Proof.
  eexists. split; [vm_compute; reflexivity |].
  split; [reflexivity |].
  apply (flag_and_level
           (JObj [(lit "confidence", JNum (double_of_Q (75 # 100)))])
           _ eq_refl).
  - discriminate.
  - reflexivity.
Defined.

(** ** More on the engine *)

Lemma imageParts_nth (Buffer : Type) (base64 : Buffer -> jsstring)
    (imageBuffers : list Buffer) (imageMimeTypes : list jsstring) :
  forall start i b,
    nth_error imageBuffers i = Some b ->
    nth_error (imageParts Buffer base64 imageBuffers imageMimeTypes start) i
    = Some (InlineData (base64 b)
              (match present (nth_error imageMimeTypes (start + i)) with
               | Some t => t
               | None => lit "image/jpeg"
               end)).
Proof.
  induction imageBuffers as [| x l IH]; intros start [| i] b; simpl;
    try discriminate.
  - intros H. injection H as <-. rewrite Nat.add_0_r. reflexivity.
  - intros H. rewrite (IH (S start) i b H).
    replace (S start + i) with (start + S i) by lia. reflexivity.
Qed.

Lemma imageParts_length (Buffer : Type) (base64 : Buffer -> jsstring)
    (imageBuffers : list Buffer) (imageMimeTypes : list jsstring) :
  forall start,
    List.length (imageParts Buffer base64 imageBuffers imageMimeTypes start)
    = List.length imageBuffers.
Proof.
  induction imageBuffers as [| x l IH]; intros start; simpl;
    [reflexivity | rewrite IH; reflexivity].
Qed.

(** X14. What the model is sent.  Once the client exists, the
    generation call gets the system prompt, then one image part per
    buffer in the order of the buffers, then the user prompt, whose
    note says whether there are photos.  Each image part carries the
    mime type given at its place, or "image/jpeg" when none or an empty
    one is given; no image part has an empty mime type. *)
Theorem generation_request (SYSTEM_PROMPT : jsstring) (Buffer : Type)
    (base64 : Buffer -> jsstring) (generateContent : list Part -> Exc jsstring)
    (GEMINI_API_KEY : option jsstring)
    (imageBuffers : list Buffer) (imageMimeTypes : list jsstring)
    (metadata : RepairMetadata) :
  exists images,
    analyzeRepair SYSTEM_PROMPT Buffer base64 generateContent GEMINI_API_KEY
      true imageBuffers imageMimeTypes metadata
    = (true,
       try_catch
         (text <- generateContent
                    ([TextPart SYSTEM_PROMPT] ++ images
                     ++ [TextPart
                           (buildUserPrompt metadata
                              (negb (List.length imageBuffers =? 0)))]) ;;
          parseResponse text))
    /\ List.length images = List.length imageBuffers
    /\ forall i b,
         nth_error imageBuffers i = Some b ->
         exists mime,
           nth_error images i = Some (InlineData (base64 b) mime)
           /\ mime <> []
           /\ (forall t, nth_error imageMimeTypes i = Some t -> t <> [] ->
                         mime = t)
           /\ (nth_error imageMimeTypes i = None -> mime = lit "image/jpeg")
           /\ (nth_error imageMimeTypes i = Some [] ->
               mime = lit "image/jpeg").
Proof.
  exists (imageParts Buffer base64 imageBuffers imageMimeTypes 0).
  split; [| split].
  - unfold analyzeRepair. simpl getGenAI. cbv iota.
    replace (0 <? List.length imageBuffers)
      with (negb (List.length imageBuffers =? 0))
      by (destruct imageBuffers; reflexivity).
    reflexivity.
  - apply imageParts_length.
  - intros i b Hi. eexists. split; [exact (imageParts_nth _ _ _ _ 0 i b Hi) |].
    simpl. destruct (nth_error imageMimeTypes i) as [[| c t] |]; simpl.
    + repeat split; try discriminate; congruence.
    + repeat split; try discriminate; congruence.
    + repeat split; try discriminate; congruence.
Qed.

(** ** More on the prompt composer *)

Lemma no_keys_no_lines (p : HomeProfile) :
  has_keys p = false -> profileLines p = [].
Proof.
  unfold has_keys, profileLines, line, aged_line. simpl existsb.
  destruct (email p); [discriminate |].
  destruct (nickname p); [discriminate |].
  destruct (homeType p); [discriminate |].
  destruct (yearBuilt p); [discriminate |].
  destruct (pipeType p); [discriminate |].
  destruct (waterHeaterType p); [discriminate |].
  destruct (hvacType p); [discriminate |].
  destruct (hvacAge p); [discriminate |].
  destruct (roofType p); [discriminate |].
  destruct (roofAge p); [discriminate |].
  destruct (mainFlooring p); [discriminate |].
  reflexivity.
Qed.

(** The section is made from the lines alone. *)
Lemma profileSection_lines (m : RepairMetadata) (p : HomeProfile) :
  homeProfile m = Some p ->
  profileSection m
  = match profileLines p with
    | [] => []
    | ls =>
        [nl] ++ lit "HOME PROFILE:" ++ [nl] ++ join [nl] ls ++ [nl]
        ++ lit "(Use this info to personalize advice - e.g., old galvanized pipes need different approach than PEX, older homes may have lead paint, etc.)"
        ++ [nl]
    end.
Proof.
  intros H. unfold profileSection. rewrite H.
  destruct (has_keys p) eqn:K; [reflexivity |].
  rewrite (no_keys_no_lines p K). reflexivity.
Qed.

Lemma same_home_lines (p p' : HomeProfile) :
  same_home p p' -> profileLines p = profileLines p'.
Proof.
  intros (H1 & H2 & H3 & H4 & H5 & H6 & H7 & H8 & H9).
  unfold profileLines. rewrite H1, H2, H3, H4, H5, H6, H7, H8, H9.
  reflexivity.
Qed.

(** X15. The prompt never carries the e-mail address or the nickname of
    the home profile: two requests that differ only there get the same
    prompt, code unit for code unit. *)
Theorem prompt_without_identity (m m' : RepairMetadata) (hasImages : bool) :
  same_request m m' ->
  buildUserPrompt m hasImages = buildUserPrompt m' hasImages.
Proof.
  intros (Hd & Hc & Hp).
  assert (S : profileSection m = profileSection m').
  { destruct (homeProfile m) as [p |] eqn:E;
      destruct (homeProfile m') as [p' |] eqn:E'; try contradiction.
    - rewrite (profileSection_lines m p E), (profileSection_lines m' p' E').
      rewrite (same_home_lines p p' Hp). reflexivity.
    - unfold profileSection. rewrite E, E'. reflexivity. }
  unfold buildUserPrompt, conversationSection, instruction, roundNumber,
    hasConversation, history.
  rewrite Hd, Hc, S. reflexivity.
Qed.

Lemma prompt_without_identity_witness :
  buildUserPrompt
    (sample_request (Some (lit "ann@example.org")) (Some (lit "Cabin"))) false
  = buildUserPrompt (sample_request None None) false.
Proof.
  apply prompt_without_identity.
  repeat split.
Defined.

(** X16. The prompt has a home profile block exactly when the profile
    names the home type, the year built, the pipe type, the water
    heater, the HVAC type, the roof type or the main flooring with a
    non-empty text; the age of the HVAC or of the roof shows only beside
    its type and does not make a block by itself. *)
Theorem profile_block_iff (m : RepairMetadata) :
  profileSection m <> []
  <-> exists p,
        homeProfile m = Some p
        /\ (present (homeType p) <> None \/ present (yearBuilt p) <> None
            \/ present (pipeType p) <> None
            \/ present (waterHeaterType p) <> None
            \/ present (hvacType p) <> None \/ present (roofType p) <> None
            \/ present (mainFlooring p) <> None).
Proof.
  split.
  - intros H. destruct (homeProfile m) as [p |] eqn:E.
    + exists p. split; [reflexivity |].
      rewrite (profileSection_lines m p E) in H.
      unfold profileLines, line, aged_line in H.
      destruct (present (homeType p)); [left; discriminate |].
      destruct (present (yearBuilt p)); [right; left; discriminate |].
      destruct (present (pipeType p)); [do 2 right; left; discriminate |].
      destruct (present (waterHeaterType p));
        [do 3 right; left; discriminate |].
      destruct (present (hvacType p)); [do 4 right; left; discriminate |].
      destruct (present (roofType p)); [do 5 right; left; discriminate |].
      destruct (present (mainFlooring p)); [do 6 right; discriminate |].
      exfalso. apply H. reflexivity.
    + exfalso. apply H. unfold profileSection. rewrite E. reflexivity.
  - intros (p & E & H). rewrite (profileSection_lines m p E).
    assert (L : profileLines p <> []).
    { unfold profileLines, line, aged_line.
      destruct (present (homeType p)); [discriminate |].
      destruct (present (yearBuilt p)); [discriminate |].
      destruct (present (pipeType p)); [discriminate |].
      destruct (present (waterHeaterType p)); [discriminate |].
      destruct (present (hvacType p)); [discriminate |].
      destruct (present (roofType p)); [discriminate |].
      destruct (present (mainFlooring p)); [discriminate |].
      exfalso. repeat (destruct H as [H | H]; [apply H; reflexivity |]).
      apply H. reflexivity. }
    destruct (profileLines p); [congruence | discriminate].
Qed.

(** X17. The mode of the instruction by the length of the history: the
    round-1 instruction with no history, the continuation instruction of
    round 2 with one to three entries, and the final instruction from
    four entries on. *)
Theorem instruction_by_length (m : RepairMetadata) :
  let n := List.length (history m) in
  (n = 0 -> instruction m = initialInstruction)
  /\ (1 <= n <= 3 -> instruction m = continuationInstruction 2)
  /\ (4 <= n ->
      3 <= roundNumber m /\ instruction m = finalInstruction (roundNumber m)).
Proof.
  intros n. subst n.
  pose proof (roundNumber_eq m) as E.
  pose proof (ceil_third_spec (List.length (history m))) as [L U].
  pose proof (hasConversation_length m) as C.
  split; [| split].
  - intros H. rewrite H in *. unfold instruction.
    replace (roundNumber m) with 1 by lia. rewrite C. reflexivity.
  - intros H. unfold instruction.
    replace (roundNumber m) with 2 by lia. rewrite C.
    destruct (List.length (history m)); [lia | reflexivity].
  - intros H. assert (R : 3 <= roundNumber m) by lia.
    split; [exact R | exact (instruction_final m R)].
Qed.

Lemma instruction_by_length_witness :
  instruction skipped_answer = continuationInstruction 2.
Proof.
  apply (instruction_by_length skipped_answer). simpl. lia.
Defined.

(** ** Image checks *)

Lemma existsb_str_eqb (x : jsstring) (l : list jsstring) :
  existsb (str_eqb x) l = true <-> In x l.
Proof.
  rewrite existsb_exists. split.
  - intros (y & Hy & E). apply str_eqb_eq in E. subst. exact Hy.
  - intros H. exists x. split; [exact H | apply str_eqb_refl].
Qed.

(** X18. The type check does not look at the case of the letters: a
    mime type of ASCII characters is valid exactly when its lower-case
    form is one of the six accepted types, so two spellings that differ
    only in case are both valid or both invalid. *)
Theorem image_type_ignores_case (toLowerCase : jsstring -> jsstring)
    (mimeType : jsstring) :
  lowers_ascii toLowerCase ->
  is_ascii mimeType = true ->
  (isValidImageType toLowerCase mimeType = true
   <-> In (map ascii_lower mimeType) validTypes)
  /\ (forall other,
        is_ascii other = true ->
        map ascii_lower other = map ascii_lower mimeType ->
        isValidImageType toLowerCase other
        = isValidImageType toLowerCase mimeType).
Proof.
  intros L A. unfold isValidImageType. split.
  - rewrite (L _ A). apply existsb_str_eqb.
  - intros other Ao E. rewrite (L _ A), (L _ Ao), E. reflexivity.
Qed.

Lemma image_type_ignores_case_witness :
  isValidImageType (map ascii_lower) (lit "Image/PNG") = true
  <-> In (map ascii_lower (lit "Image/PNG")) validTypes.
Proof.
  apply (image_type_ignores_case (map ascii_lower) (lit "Image/PNG")).
  - intros s _. reflexivity.
  - reflexivity.
Defined.

Lemma default_limit :
  num_mul (num_mul n20 n1024) n1024 = num_of_N max_bytes.
Proof. vm_compute. reflexivity. Qed.

Lemma size_check (size : N) :
  isValidFileSize (num_of_N size) None = true <-> (size <= max_bytes)%N.
Proof.
  unfold isValidFileSize. rewrite default_limit.
  unfold num_le, num_of_N, num_ge. rewrite Qle_bool_iff.
  rewrite <- Zle_Qle. lia.
Qed.

(** X19. With the default limit a file passes the size check exactly
    when it has at most 20 * 1024 * 1024 = 20971520 bytes: a file of
    exactly that size passes, one byte more does not. *)
Theorem file_size_limit (size : N) :
  (isValidFileSize (num_of_N size) None = true <-> (size <= max_bytes)%N)
  /\ isValidFileSize (num_of_N max_bytes) None = true
  /\ isValidFileSize (num_of_N (max_bytes + 1)) None = false.
Proof.
  split; [apply size_check |]. split; reflexivity.
Qed.

(** X20. The pipeline of [processImage] starts by rotating and ends by
    encoding as JPEG at quality 75, and it asks for a resize to fit
    inside 1600 x 1600 exactly when a reported dimension is above 1600;
    an image whose dimensions are not reported is not resized. *)
Theorem pipeline_shape (width height : option nat) :
  exists middle,
    pipelineOps (width, height) = [OpRotate] ++ middle ++ [OpJpeg 75]
    /\ ((middle = [OpResizeInside 1600 1600]
         /\ exists d, (width = Some d \/ height = Some d) /\ 1600 < d)
        \/ (middle = []
            /\ forall d, width = Some d \/ height = Some d -> d <= 1600)).
Proof.
  unfold pipelineOps, MAX_DIMENSION, JPEG_QUALITY. simpl fst. simpl snd.
  set (w := match width with Some w => w | None => 0 end).
  set (h := match height with Some h => h | None => 0 end).
  destruct (Nat.ltb_spec 1600 (Nat.max w h)) as [Hlt | Hle].
  - eexists. split; [reflexivity |]. left. split; [reflexivity |].
    destruct (Nat.max_spec w h) as [[_ E] | [_ E]]; rewrite E in Hlt.
    + subst h. destruct height as [d |]; [| lia]. exists d. auto.
    + subst w. destruct width as [d |]; [| lia]. exists d. auto.
  - eexists. split; [reflexivity |]. right. split; [reflexivity |].
    intros d [-> | ->]; subst w h; simpl in *; lia.
Qed.

(** ** The client key *)

Lemma before_comma_no_comma (s : jsstring) : ~ In 44%N (before_comma s).
Proof.
  induction s as [| c r IH]; simpl; [tauto |].
  destruct (N.eqb_spec c 44); simpl; [tauto |].
  intros [H | H]; [congruence | exact (IH H)].
Qed.

Lemma before_comma_prefix (s : jsstring) :
  exists rest, s = before_comma s ++ rest
               /\ (rest = [] \/ exists t, rest = 44%N :: t).
Proof.
  induction s as [| c r (rest & Hr & Ht)]; simpl.
  - exists []. auto.
  - destruct (N.eqb_spec c 44) as [-> |].
    + exists (44%N :: r). split; [reflexivity | right; eauto].
    + exists rest. split; [simpl; f_equal; exact Hr | exact Ht].
Qed.

(** X21. The key requests are counted and logged under is never empty.
    When the first entry of the forwarding header, white space aside,
    is not empty, the key is that entry: it has no comma and no white
    space at its ends.  Otherwise the key is the address of the
    connection, and "unknown" when there is none. *)
Theorem clientKey_spec (forwardedFor ip : option jsstring) :
  clientKey forwardedFor ip <> []
  /\ (forall h,
        forwardedFor = Some h -> trim (before_comma h) <> [] ->
        clientKey forwardedFor ip = trim (before_comma h)
        /\ trimmed (clientKey forwardedFor ip)
        /\ ~ In 44%N (clientKey forwardedFor ip))
  /\ ((forwardedFor = None
       \/ exists h, forwardedFor = Some h /\ trim (before_comma h) = []) ->
      (forall a, ip = Some a -> a <> [] -> clientKey forwardedFor ip = a)
      /\ (ip = None \/ ip = Some [] ->
          clientKey forwardedFor ip = lit "unknown")).
Proof.
  unfold clientKey. split; [| split].
  - destruct forwardedFor as [h |]; simpl.
    + destruct (trim (before_comma h)) as [| c k]; simpl; [| discriminate].
      destruct ip as [[| c a] |]; simpl; discriminate.
    + destruct ip as [[| c a] |]; simpl; discriminate.
  - intros h -> Hk. simpl.
    destruct (trim (before_comma h)) as [| c k] eqn:E; [congruence |].
    simpl. split; [reflexivity |]. split.
    + rewrite <- E. apply trim_trimmed.
    + intros Hin. apply (before_comma_no_comma h).
      destruct (trim_split (before_comma h)) as (a & b & Hs & _).
      rewrite Hs, E. apply in_or_app. right. apply in_or_app. left.
      exact Hin.
  - intros H.
    assert (P : present (option_map (fun h => trim (before_comma h))
                           forwardedFor) = None).
    { destruct H as [-> | (h & -> & E)]; simpl; [reflexivity |].
      rewrite E. reflexivity. }
    rewrite P. split.
    + intros a -> Ha. destruct a; [congruence | reflexivity].
    + intros [-> | ->]; reflexivity.
Qed.

Lemma clientKey_spec_witness :
  clientKey (Some (lit " 203.0.113.7 , 10.0.0.1")) (Some (lit "10.0.0.1"))
  = lit "203.0.113.7".
Proof.
  destruct (clientKey_spec (Some (lit " 203.0.113.7 , 10.0.0.1"))
              (Some (lit "10.0.0.1"))) as (_ & H & _).
  destruct (H _ eq_refl) as (E & _).
  - vm_compute. discriminate.
  - rewrite E. vm_compute. reflexivity.
Defined.

(** ** The database switch *)

Lemma getPool_disabled (h : option jsstring) (st : DbState) :
  dbEnabled st = false -> dbEnabled (fst (getPool h st)) = false.
Proof.
  unfold getPool. destruct (present h); simpl; auto.
Qed.

(** X22. The switch only goes off.  A call of [getPool] while [DB_HOST]
    is not set turns the database features off for good: whatever the
    later calls and whatever [DB_HOST] becomes, [isDatabaseEnabled] is
    false, the user routes answer 503 and the health check reports
    "disabled". *)
Theorem database_switch_latches (unset : option jsstring) (st : DbState)
    (hosts : list (option jsstring)) (DB_HOST : option jsstring)
    (ping : Exc unit) :
  present unset = None ->
  let st' := getPool_run hosts (fst (getPool unset st)) in
  isDatabaseEnabled DB_HOST st' = false
  /\ requireDatabase DB_HOST st'
     = Some (failure 503
               (lit "Database not configured. User features are disabled."))
  /\ healthDatabase DB_HOST ping st' = (st', lit "disabled").
Proof.
  intros Hu st'.
  assert (D : dbEnabled st' = false).
  { subst st'.
    assert (D0 : dbEnabled (fst (getPool unset st)) = false)
      by (unfold getPool; rewrite Hu; reflexivity).
    revert D0. generalize (fst (getPool unset st)).
    induction hosts as [| h hosts IH]; intros s D0; simpl; [exact D0 |].
    apply IH. apply getPool_disabled. exact D0. }
  assert (E : isDatabaseEnabled DB_HOST st' = false)
    by (unfold isDatabaseEnabled; rewrite D; reflexivity).
  unfold requireDatabase, healthDatabase. rewrite E. auto.
Qed.

Lemma database_switch_latches_witness :
  isDatabaseEnabled (Some (lit "db.internal"))
    (getPool_run [Some (lit "db.internal")] (fst (getPool None db_initial)))
  = false.
Proof.
  apply (database_switch_latches None db_initial [Some (lit "db.internal")]
           (Some (lit "db.internal")) (Ok tt)).
  reflexivity.
Defined.

(** X23. The guard of the user routes is enough for the pool: whenever
    [requireDatabase] lets a request through, [getPool] returns the
    pool for that request instead of throwing, and leaves the switch
    on; the pool, once created, stays. *)
Theorem guard_gives_pool (DB_HOST : option jsstring) (st : DbState) :
  requireDatabase DB_HOST st = None ->
  snd (getPool DB_HOST st) = Ok tt
  /\ pool (fst (getPool DB_HOST st)) = true
  /\ isDatabaseEnabled DB_HOST (fst (getPool DB_HOST st)) = true
  /\ forall ping,
       healthDatabase DB_HOST ping st
       = (fst (getPool DB_HOST st),
          match ping with
          | Ok _ => lit "connected"
          | Throw _ => lit "disconnected"
          end).
Proof.
  unfold requireDatabase.
  destruct (isDatabaseEnabled DB_HOST st) eqn:E; [| discriminate].
  intros _. unfold healthDatabase, testConnection. rewrite E.
  unfold isDatabaseEnabled in *. unfold getPool.
  apply andb_true_iff in E. destruct E as [Ed Eh].
  destruct (present DB_HOST); [| discriminate]. simpl.
  rewrite Ed. repeat split.
  intros [[] | e]; reflexivity.
Qed.

Lemma guard_gives_pool_witness :
  snd (getPool (Some (lit "db.internal")) db_initial) = Ok tt.
Proof.
  apply (guard_gives_pool (Some (lit "db.internal")) db_initial).
  reflexivity.
Defined.

(** ** The endpoints *)

Lemma blank_spec (v : JsValue) :
  (truthy v = false -> blank v = Ok true)
  /\ (forall s, v = JStr s ->
        blank v = Ok (match trim s with [] => true | _ => false end))
  /\ (truthy v = true -> is_string v = false -> blank v = Throw TypeError).
Proof.
  unfold blank. split; [| split].
  - intros ->. reflexivity.
  - intros s ->. destruct s as [| c s]; [reflexivity |]. reflexivity.
  - intros -> Hs. destruct v; try discriminate; reflexivity.
Qed.

Lemma validateFiles_None (toLowerCase : jsstring -> jsstring) (Buffer D : Type)
    (files : list (UploadedFile Buffer)) :
  @validateFiles toLowerCase Buffer D files = None ->
  Forall (fun f => isValidImageType toLowerCase (file_mimetype f) = true
                   /\ (file_size f <= max_bytes)%N) files.
Proof.
  induction files as [| f files IH]; simpl; [constructor |].
  destruct (isValidImageType toLowerCase (file_mimetype f)) eqn:Et;
    simpl; [| discriminate].
  destruct (isValidFileSize (num_of_N (file_size f)) None) eqn:Es;
    simpl; [| discriminate].
  intros H. constructor; [| exact (IH H)].
  split; [exact Et | apply size_check; exact Es].
Qed.

Lemma processImage_mime (Buffer : Type)
    (sharp_metadata : Buffer -> Exc (option nat * option nat))
    (sharp_toBuffer : list SharpOp -> Buffer -> Exc Buffer)
    (buffer : Buffer) (p : ProcessedImage Buffer) :
  processImage sharp_metadata sharp_toBuffer buffer = Ok p ->
  img_mimeType p = lit "image/jpeg".
Proof.
  unfold processImage.
  destruct (sharp_metadata buffer) as [md | e]; simpl; [| discriminate].
  destruct (sharp_toBuffer (pipelineOps md) buffer) as [b | e]; simpl;
    [| discriminate].
  intros H. injection H as <-. reflexivity.
Qed.

(** X24. A 400 of the analyze endpoint is sent before any work is done:
    the response is the same whatever the image library and the engine
    would have answered, and it carries no data. *)
Theorem analyze_rejects_first (toLowerCase : jsstring -> jsstring)
    (Buffer : Type)
    (sharp_metadata : Buffer -> Exc (option nat * option nat))
    (sharp_toBuffer : list SharpOp -> Buffer -> Exc Buffer)
    (analyzeRepair_call :
       list Buffer -> list jsstring -> JsValue -> Exc AnalysisResult)
    (files : option (list (UploadedFile Buffer)))
    (metadataStr : option jsstring) :
  res_status (analyzeHandler toLowerCase sharp_metadata sharp_toBuffer
                analyzeRepair_call files metadataStr) = 400 ->
  res_data (analyzeHandler toLowerCase sharp_metadata sharp_toBuffer
              analyzeRepair_call files metadataStr) = None
  /\ forall sharp_metadata' sharp_toBuffer' analyzeRepair_call',
       analyzeHandler toLowerCase sharp_metadata' sharp_toBuffer'
         analyzeRepair_call' files metadataStr
       = analyzeHandler toLowerCase sharp_metadata sharp_toBuffer
           analyzeRepair_call files metadataStr.
Proof.
  unfold analyzeHandler.
  set (fs := match files with Some l => l | None => [] end).
  destruct (4 <? List.length fs); [intros _; split; reflexivity |].
  destruct (validateFiles toLowerCase fs) as [r |] eqn:V.
  { intros H. split; [| reflexivity].
    clear - V. induction fs as [| f fs IH]; simpl in V; [discriminate |].
    destruct (negb (isValidImageType toLowerCase (file_mimetype f)));
      [injection V as <-; reflexivity |].
    destruct (negb (isValidFileSize (num_of_N (file_size f)) None));
      [injection V as <-; reflexivity |].
    exact (IH V). }
  destruct (JSON.parse _) as [metadata | e];
    [| intros _; split; reflexivity].
  destruct (get metadata "description") as [d | e]; simpl;
    [| discriminate].
  destruct (blank d) as [[|] | e]; simpl;
    [intros _; split; reflexivity | | discriminate].
  destruct (mapM _ fs) as [processed | e]; simpl; [| discriminate].
  destruct (analyzeRepair_call _ _ metadata) as [result | e]; simpl;
    discriminate.
Qed.

Lemma analyze_rejects_first_witness :
  res_data
    (analyzeHandler (map ascii_lower)
       (fun _ : jsstring => Ok (None, None)) (fun _ b => Ok b)
       (fun _ _ _ => Throw TypeError) (Some [])
       (Some (quoted "{'description':'   '}"))) = None.
Proof.
  apply (analyze_rejects_first (map ascii_lower) jsstring
           (fun _ => Ok (None, None)) (fun _ b => Ok b)
           (fun _ _ _ => Throw TypeError) (Some [])
           (Some (quoted "{'description':'   '}"))).
  vm_compute. reflexivity.
Defined.

(** X25. What a 200 of the analyze endpoint stands for: at most four
    files, each of a valid type and of at most 20971520 bytes; metadata
    that parsed, with a description that is a string with more than
    white space in it; every image processed; and the data is what the
    engine returned for the processed buffers, each announced as
    "image/jpeg", and the parsed metadata. *)
Theorem analyze_success (toLowerCase : jsstring -> jsstring)
    (Buffer : Type)
    (sharp_metadata : Buffer -> Exc (option nat * option nat))
    (sharp_toBuffer : list SharpOp -> Buffer -> Exc Buffer)
    (analyzeRepair_call :
       list Buffer -> list jsstring -> JsValue -> Exc AnalysisResult)
    (files : option (list (UploadedFile Buffer)))
    (metadataStr : option jsstring) :
  res_status (analyzeHandler toLowerCase sharp_metadata sharp_toBuffer
                analyzeRepair_call files metadataStr) = 200 ->
  exists fs text metadata s processed result,
    (files = Some fs \/ (files = None /\ fs = []))
    /\ List.length fs <= 4
    /\ Forall (fun f => isValidImageType toLowerCase (file_mimetype f) = true
                        /\ (file_size f <= max_bytes)%N) fs
    /\ metadataStr = Some text
    /\ JSON.parse text = Ok metadata
    /\ get metadata "description" = Ok (JStr s)
    /\ trim s <> []
    /\ mapM (fun f => processImage sharp_metadata sharp_toBuffer
                        (file_buffer f)) fs = Ok processed
    /\ map img_mimeType processed
       = repeat (lit "image/jpeg") (List.length fs)
    /\ analyzeRepair_call (map img_buffer processed)
         (map img_mimeType processed) metadata = Ok result
    /\ analyzeHandler toLowerCase sharp_metadata sharp_toBuffer
         analyzeRepair_call files metadataStr = sent result.
Proof.
  unfold analyzeHandler.
  set (fs := match files with Some l => l | None => [] end).
  destruct (Nat.ltb_spec 4 (List.length fs)) as [| Hlen]; [discriminate |].
  destruct (validateFiles toLowerCase fs) as [r |] eqn:V.
  { intros H. exfalso.
    clear - V H. induction fs as [| f fs IH]; simpl in V; [discriminate |].
    destruct (negb (isValidImageType toLowerCase (file_mimetype f)));
      [injection V as <-; discriminate |].
    destruct (negb (isValidFileSize (num_of_N (file_size f)) None));
      [injection V as <-; discriminate |].
    exact (IH V). }
  apply validateFiles_None in V.
  destruct metadataStr as [text |]; [| discriminate].
  destruct (JSON.parse text) as [metadata | e] eqn:Pj; [| discriminate].
  destruct (get metadata "description") as [d | e] eqn:Ed; simpl;
    [| discriminate].
  destruct (blank d) as [[|] | e] eqn:Eb; simpl; try discriminate.
  destruct (mapM _ fs) as [processed | e] eqn:Ep; simpl; [| discriminate].
  destruct (analyzeRepair_call _ _ metadata) as [result | e] eqn:Er; simpl;
    [| discriminate].
  intros _.
  assert (Hs : exists s, d = JStr s /\ trim s <> []).
  { destruct (blank_spec d) as (B1 & B2 & B3).
    destruct (truthy d) eqn:T; [| rewrite (B1 eq_refl) in Eb; discriminate].
    destruct d; try (rewrite (B3 eq_refl eq_refl) in Eb; discriminate).
    exists s. split; [reflexivity |].
    rewrite (B2 s eq_refl) in Eb. injection Eb as Eb.
    destruct (trim s); [discriminate | discriminate]. }
  destruct Hs as (s & -> & Hs).
  assert (Hm : map img_mimeType processed
               = repeat (lit "image/jpeg") (List.length fs)).
  { apply mapM_Forall2 in Ep. clear - Ep.
    induction Ep as [| f p fs ps Hfp F IH]; simpl; [reflexivity |].
    rewrite IH, (processImage_mime _ _ _ _ _ Hfp). reflexivity. }
  exists fs, text, metadata, s, processed, result.
  split; [subst fs; destruct files; auto |].
  repeat split; try assumption; reflexivity.
Qed.

Lemma analyze_success_witness :
  exists result,
    analyzeHandler (map ascii_lower)
      (fun _ : jsstring => Ok (Some 4000, Some 3000)) (fun _ b => Ok b)
      (fun _ _ _ => parseResponse (quoted "{'confidence':0.9}"))
      (Some [{| file_mimetype := lit "image/PNG"; file_size := 1000;
                file_buffer := lit "raw" |}])
      (Some (quoted "{'description':'Water under the sink'}"))
    = sent result.
Proof.
  destruct (analyze_success (map ascii_lower) jsstring
              (fun _ => Ok (Some 4000, Some 3000)) (fun _ b => Ok b)
              (fun _ _ _ => parseResponse (quoted "{'confidence':0.9}"))
              (Some [{| file_mimetype := lit "image/PNG"; file_size := 1000;
                        file_buffer := lit "raw" |}])
              (Some (quoted "{'description':'Water under the sink'}")))
    as (fs & text & metadata & s & processed & result & H).
  - vm_compute. reflexivity.
  - exists result. apply H.
Defined.

(** X26. The description check of the analyze endpoint.  With files
    that pass and metadata that parses, a description that is missing,
    falsy, or a string of nothing but white space is answered with 400
    "Description is required"; a description that is a truthy value
    other than a string, or metadata that is [null], is answered with
    the 500 of the catch-all instead. *)
Theorem analyze_description_check (toLowerCase : jsstring -> jsstring)
    (Buffer : Type)
    (sharp_metadata : Buffer -> Exc (option nat * option nat))
    (sharp_toBuffer : list SharpOp -> Buffer -> Exc Buffer)
    (analyzeRepair_call :
       list Buffer -> list jsstring -> JsValue -> Exc AnalysisResult)
    (fs : list (UploadedFile Buffer)) (text : jsstring)
    (metadata : JsValue) :
  List.length fs <= 4 ->
  @validateFiles toLowerCase Buffer AnalysisResult fs = None ->
  JSON.parse text = Ok metadata ->
  let response := analyzeHandler toLowerCase sharp_metadata sharp_toBuffer
                    analyzeRepair_call (Some fs) (Some text) in
  (forall d, get metadata "description" = Ok d ->
     (truthy d = false \/ exists s, d = JStr s /\ forallb is_js_space s = true) ->
     response = failure 400 (lit "Description is required"))
  /\ (forall d, get metadata "description" = Ok d ->
        truthy d = true -> is_string d = false ->
        response = failure 500 (lit "Analysis failed. Please try again."))
  /\ (metadata = JNull ->
      response = failure 500 (lit "Analysis failed. Please try again.")).
Proof.
  intros Hlen V P response. subst response. unfold analyzeHandler.
  destruct (Nat.ltb_spec 4 (List.length fs)); [lia |].
  rewrite V, P.
  split; [| split].
  - intros d Hd Hb. rewrite Hd. simpl.
    destruct (blank_spec d) as (B1 & B2 & _).
    destruct Hb as [Hf | (s & -> & Hs)].
    + rewrite (B1 Hf). reflexivity.
    + rewrite (B2 s eq_refl). apply trim_blank in Hs. rewrite Hs.
      reflexivity.
  - intros d Hd Ht Hs. rewrite Hd. simpl.
    destruct (blank_spec d) as (_ & _ & B3). rewrite (B3 Ht Hs). reflexivity.
  - intros ->. reflexivity.
Qed.

Lemma analyze_description_check_witness :
  analyzeHandler (map ascii_lower)
    (fun _ : jsstring => Ok (None, None)) (fun _ b => Ok b)
    (fun _ _ _ => Throw TypeError) (Some []) (Some (lit "null"))
  = failure 500 (lit "Analysis failed. Please try again.").
Proof.
  apply (analyze_description_check (map ascii_lower) jsstring
           (fun _ => Ok (None, None)) (fun _ b => Ok b)
           (fun _ _ _ => Throw TypeError) [] (lit "null") JNull);
    try reflexivity.
  simpl. lia.
Defined.



(** ** The payload of the brace pattern *)

(** X28. Where the payload of an unfenced text begins and ends: when the
    text has no fenced block and a payload is located, the payload
    handed to [JSON.parse] runs from the first opening brace of the
    text to its last closing brace, both included. *)
Theorem brace_payload (text : jsstring) (m : MatchResult) :
  ~ fenced text ->
  jsonMatch text = Some m ->
  exists a w c,
    text = a ++ [123%N] ++ w ++ [125%N] ++ c
    /\ ~ In 123%N a /\ ~ In 125%N c
    /\ jsonStr m = [123%N] ++ w ++ [125%N].
Proof.
  intros Hf. unfold jsonMatch.
  destruct (str_match fence_re text 0) as [m' |] eqn:E.
  - exfalso. apply Hf. apply fence_re_spec. rewrite E. discriminate.
  - intros H. destruct (str_match_brace _ _ _ H)
      as (a & w & c & Ht & Ha & Hc & _ & H0 & H1).
    exists a, w, c. repeat split; try assumption.
    unfold jsonStr. rewrite H1. exact H0.
Qed.

Lemma brace_payload_witness :
  exists m a w c,
    jsonMatch (quoted "Sure: {'confidence':0.9} (see {note})") = Some m
    /\ quoted "Sure: {'confidence':0.9} (see {note})"
       = a ++ [123%N] ++ w ++ [125%N] ++ c
    /\ ~ In 123%N a /\ ~ In 125%N c
    /\ jsonStr m = [123%N] ++ w ++ [125%N].
Proof.
  eexists.
  assert (F : ~ fenced (quoted "Sure: {'confidence':0.9} (see {note})")).
  { intros F. apply fence_re_spec in F. apply F. vm_compute. reflexivity. }
  destruct (brace_payload (quoted "Sure: {'confidence':0.9} (see {note})")
              _ F eq_refl) as (a & w & c & H).
  exists a, w, c. split; [vm_compute; reflexivity | exact H].
Defined.

(* ================================================================== *)
(** * The two services on unchecked input *)

Local Open Scope Z_scope.

(** ** Arithmetic on array lengths *)

Lemma Qred_inject_Z (z : Z) : Qred (inject_Z z) = inject_Z z.
Proof.
  pose proof (Qred_correct (inject_Z z)) as E.
  pose proof (gcd_Qred (inject_Z z)) as G.
  destruct (Qred (inject_Z z)) as [a b].
  unfold Qeq, inject_Z in *. simpl in *.
  assert (A : a = z * Z.pos b) by lia.
  rewrite A in G. rewrite Z.gcd_comm, Z.mul_comm in G.
  rewrite Z.gcd_mul_diag_l in G by lia.
  assert (B : b = 1%positive) by lia.
  subst b. f_equal. lia.
Qed.

(** Rounding [z * P / 3] to an integer stays strictly above [(k-1) * P]
    and at most [k * P], where [k] is the ceiling of [z / 3]. *)
Lemma round_third (z k P : Z) :
  3 <= P -> z <= 3 * k < z + 3 ->
  (k - 1) * P < round_half_even (z * P) 3 <= k * P.
Proof.
  intros HP Hk. unfold round_half_even.
  pose proof (Z.div_mod (z * P) 3 ltac:(discriminate)) as D.
  pose proof (Z.mod_pos_bound (z * P) 3 ltac:(reflexivity)) as B.
  set (q := z * P / 3) in *. set (r := (z * P) mod 3) in *.
  assert (L : (k - 1) * P < q) by nia.
  assert (U : r = 0 -> q <= k * P) by nia.
  assert (U' : 0 < r -> q + 1 <= k * P) by nia.
  destruct (Z.ltb_spec (2 * r) 3).
  - assert (r = 0 \/ r = 1) as [R | R] by lia.
    + split; [exact L | exact (U R)].
    + split; [exact L |]. lia.
  - destruct (Z.ltb_spec 3 (2 * r)).
    + split; [lia | apply U'; lia].
    + lia.
Qed.

Lemma ceiling_between (m k : Z) (P : positive) :
  (k - 1) * Z.pos P < m <= k * Z.pos P -> Qceiling (m # P) = k.
Proof.
  intros H. unfold Qceiling, Qfloor, Qopp. simpl.
  assert (E : - m / Z.pos P = - k).
  { symmetry. apply (Z.div_unique (- m) (Z.pos P) (- k) (k * Z.pos P - m));
      lia. }
  rewrite E. lia.
Qed.

Lemma double_of_third (z : Z) :
  0 < z < 2 ^ 32 ->
  exists s,
    2 <= s
    /\ double_of_Q (inject_Z z / inject_Z 3)
       = Fin (Qred (round_half_even (z * 2 ^ s) 3 # Z.to_pos (2 ^ s))).
Proof.
  intros Hz.
  change (inject_Z z / inject_Z 3)%Q with (z * 1 # 3)%Q.
  unfold double_of_Q. cbn [Qnum Qden]. rewrite Z.mul_1_r.
  replace (z =? 0) with false by (symmetry; apply Z.eqb_neq; lia).
  rewrite Z.abs_eq by lia.
  change (Z.log2 3) with 1.
  pose proof (Z.log2_nonneg z) as L0.
  assert (L1 : Z.log2 z < 32) by (apply Z.log2_lt_pow2; lia).
  set (e := if scale_le z 3 (Z.log2 z - 1) then Z.log2 z - 1
            else Z.log2 z - 1 - 1).
  assert (He : -2 <= e <= 30)
    by (subst e; destruct (scale_le z 3 (Z.log2 z - 1)); lia).
  cbv zeta. fold e.
  rewrite Z.max_l by lia.
  replace (0 <=? e - 52) with false by (symmetry; apply Z.leb_gt; lia).
  replace (971 <=? e - 52) with false by (symmetry; apply Z.leb_gt; lia).
  replace (z <? 0) with false by (symmetry; apply Z.ltb_ge; lia).
  cbn [andb]. exists (- (e - 52)). split; [lia | reflexivity].
Qed.

Lemma double_of_integer (q : Q) (w : Z) :
  0 < w < 2 ^ 52 -> Qnum q = w -> Qden q = 1%positive ->
  double_of_Q q = Fin (inject_Z w).
Proof.
  intros Hw Hn Hd. unfold double_of_Q. rewrite Hn, Hd.
  replace (w =? 0) with false by (symmetry; apply Z.eqb_neq; lia).
  rewrite Z.abs_eq by lia.
  change (Z.log2 1) with 0. rewrite Z.sub_0_r.
  pose proof (Z.log2_nonneg w) as L0.
  assert (L1 : Z.log2 w < 52) by (apply Z.log2_lt_pow2; lia).
  pose proof (Z.log2_spec w ltac:(lia)) as [S1 _].
  unfold scale_le.
  replace (0 <=? Z.log2 w) with true by (symmetry; apply Z.leb_le; lia).
  replace (1 * 2 ^ Z.log2 w <=? w) with true
    by (symmetry; apply Z.leb_le; lia).
  cbv zeta.
  rewrite Z.max_l by lia.
  replace (0 <=? Z.log2 w - 52) with false by (symmetry; apply Z.leb_gt; lia).
  replace (971 <=? Z.log2 w - 52) with false
    by (symmetry; apply Z.leb_gt; lia).
  replace (w <? 0) with false by (symmetry; apply Z.ltb_ge; lia).
  cbn [andb]. f_equal.
  rewrite <- (Qred_inject_Z w). apply Qred_complete.
  set (s := - (Z.log2 w - 52)).
  assert (P : 0 < 2 ^ s) by (apply Z.pow_pos_nonneg; lia).
  unfold round_half_even. rewrite Z.mod_1_r, Z.div_1_r. simpl (2 * 0 <? 1).
  cbv iota. unfold Qeq, inject_Z. cbn [Qnum Qden].
  rewrite Z2Pos.id by exact P.
  change (0 <? 1) with true. cbv iota. lia.
Qed.

(** [Math.ceil(n / 3) + 1] on doubles is the integer it is on paper,
    for every length an array can have. *)
Lemma third_exact (n : nat) :
  (0 < n)%nat -> Z.of_nat n < 2 ^ 32 ->
  Untyped.num_add (Untyped.Math_ceil (Untyped.num_div (num_of_nat n) 3)) n1
  = num_of_nat (ceil_third n + 1).
Proof.
  intros Hn Hb. unfold num_of_nat, Untyped.num_div.
  destruct (double_of_third (Z.of_nat n) ltac:(lia)) as (s & Hs & ->).
  unfold Untyped.Math_ceil.
  rewrite (Qceiling_comp _ _ (Qred_correct _)).
  assert (P : 4 <= 2 ^ s).
  { change 4 with (2 ^ 2). apply Z.pow_le_mono_r; lia. }
  pose proof (ceil_third_spec n) as [L U].
  rewrite (ceiling_between _ (Z.of_nat (ceil_third n))).
  - unfold Untyped.num_add, n1.
    rewrite (double_of_integer _ (Z.of_nat (ceil_third n) + 1)).
    + f_equal. f_equal. lia.
    + lia.
    + simpl. lia.
    + reflexivity.
  - rewrite Z2Pos.id by lia. apply round_third; lia.
Qed.

Local Close Scope Z_scope.

(** ** The typed services are the untyped ones on typed values *)

Lemma mapM_map {A B C : Type} (f : B -> Exc C) (g : A -> B) (h : A -> C)
    (l : list A) :
  (forall x, f (g x) = Ok (h x)) -> mapM f (map g l) = Ok (map h l).
Proof.
  intros H. induction l as [| x l IH]; simpl; [reflexivity |].
  rewrite H, IH. reflexivity.
Qed.

Lemma num_gt_length (n : nat) : num_gt (num_of_nat n) n0 = negb (n =? 0).
Proof.
  unfold num_gt, num_lt, num_of_nat, n0, Qlt_bool.
  destruct n as [| n]; [reflexivity |].
  simpl Nat.eqb. simpl negb.
  destruct (Qle_bool (inject_Z (Z.of_nat (S n))) 0) eqn:E; [| reflexivity].
  apply Qle_bool_iff in E. unfold Qle, inject_Z in E. simpl in E. lia.
Qed.

Lemma nonempty_array (l : list JsValue) :
  Untyped.nonempty (JArr l) = Ok (negb (List.length l =? 0)).
Proof.
  change (Untyped.nonempty (JArr l))
    with (Ok (num_gt (num_of_nat (List.length l)) n0)).
  rewrite num_gt_length. reflexivity.
Qed.

Section Refinement.

Variable Number_toString : number -> jsstring.

Lemma join_strings (l : list jsstring) (sep : jsstring) :
  Untyped.js_join Number_toString (JArr (map JStr l)) sep = Ok (join sep l).
Proof.
  unfold Untyped.js_join.
  assert (E : Untyped.elements (Untyped.ToString Number_toString) (map JStr l)
              = Ok l).
  { induction l as [| s l IH]; [reflexivity |].
    simpl. simpl in IH. rewrite IH. reflexivity. }
  rewrite E. reflexivity.
Qed.

Lemma steps_strings (l : list jsstring) (i : nat) :
  Untyped.mapM_index (Untyped.numberedStep Number_toString) (map JStr l) i
  = Ok (map_index numberedStep l i).
Proof.
  revert i. induction l as [| s l IH]; intros i; simpl; [reflexivity |].
  rewrite IH. reflexivity.
Qed.

Lemma listPart_strings (label sep : jsstring) (c : JsValue) (k : string)
    (l : list jsstring) :
  get c k = Ok (JArr (map JStr l)) ->
  Untyped.listPart Number_toString label sep c k
  = Ok (listPart label sep l).
Proof.
  intros H. unfold Untyped.listPart. rewrite H. cbn [bind].
  rewrite nonempty_array. cbn [bind]. rewrite length_map.
  destruct l as [| x l]; [reflexivity |].
  simpl Nat.eqb. simpl negb. cbv iota.
  rewrite join_strings. reflexivity.
Qed.

Lemma textPart_string (label : jsstring) (c : JsValue) (k : string)
    (s : jsstring) :
  get c k = Ok (JStr s) ->
  Untyped.textPart Number_toString label c k = Ok (textPart label s).
Proof.
  intros H. unfold Untyped.textPart. rewrite H. cbn [bind].
  destruct s; reflexivity.
Qed.

Lemma buildAnalysisSection_typed (c : AnalysisContext) :
  Untyped.buildAnalysisSection Number_toString (encode_context c)
  = Ok (buildAnalysisSection c).
Proof.
  unfold Untyped.buildAnalysisSection.
  rewrite (textPart_string _ _ _ (ctx_problemShort c)) by reflexivity.
  rewrite (textPart_string _ _ _ (ctx_summary c)) by reflexivity.
  rewrite (listPart_strings _ _ _ _ (ctx_materials c)) by reflexivity.
  rewrite (listPart_strings _ _ _ _ (ctx_tools c)) by reflexivity.
  rewrite (listPart_strings _ _ _ _ (ctx_warnings c)) by reflexivity.
  assert (S : Untyped.stepsPart Number_toString (encode_context c)
              = Ok (listPart (lit "Steps: ") (lit " ")
                      (map_index numberedStep (ctx_steps c) 0))).
  { unfold Untyped.stepsPart.
    change (get (encode_context c) "steps")
      with (Ok (A := JsValue) (JArr (map JStr (ctx_steps c)))).
    cbn [bind]. rewrite nonempty_array. cbn [bind]. rewrite length_map.
    destruct (ctx_steps c) as [| s l]; [reflexivity |].
    simpl Nat.eqb. simpl negb. cbv iota.
    unfold Untyped.js_map_index. rewrite steps_strings. reflexivity. }
  rewrite S. reflexivity.
Qed.

Lemma historyLine_typed (msg : ChatMessageDTO) :
  Untyped.historyLine Number_toString (encode_message msg)
  = Ok (historyLine msg).
Proof.
  unfold Untyped.historyLine, historyLine, encode_message.
  destruct (msg_role msg); reflexivity.
Qed.

Lemma buildHistorySection_typed (h : list ChatMessageDTO) :
  Untyped.buildHistorySection Number_toString (encode_history h)
  = Ok (buildHistorySection h).
Proof.
  unfold Untyped.buildHistorySection, encode_history. simpl negb. cbv iota.
  simpl get. cbn [bind]. rewrite length_map.
  destruct h as [| msg h]; [reflexivity |].
  replace (Untyped.is_zero (JNum (num_of_nat (List.length (msg :: h)))))
    with false.
  - unfold js_map.
    rewrite (mapM_map _ encode_message historyLine)
      by apply historyLine_typed.
    reflexivity.
  - symmetry. unfold Untyped.is_zero, num_of_nat.
    destruct (Qeq_bool (inject_Z (Z.of_nat (List.length (msg :: h)))) 0) eqn:E;
      [| reflexivity].
    apply Qeq_bool_iff in E. unfold Qeq, inject_Z in E. simpl in E. lia.
Qed.

Lemma chatPrompt_typed (CHAT_SYSTEM_PROMPT originalDescription : jsstring)
    (analysisContext : AnalysisContext)
    (conversationHistory : list ChatMessageDTO) (newMessage : jsstring) :
  Untyped.chatPrompt Number_toString CHAT_SYSTEM_PROMPT
    (JStr originalDescription) (encode_context analysisContext)
    (encode_history conversationHistory) (JStr newMessage)
  = Ok (chatPrompt CHAT_SYSTEM_PROMPT originalDescription analysisContext
          conversationHistory newMessage).
Proof.
  unfold Untyped.chatPrompt.
  rewrite buildAnalysisSection_typed, buildHistorySection_typed.
  reflexivity.
Qed.

End Refinement.

Lemma lookup_opt_hit (k : string) (o : option jsstring)
    (rest : list (jsstring * JsValue)) :
  lookup (lit k) (opt_prop k o ++ rest)
  = match o with
    | Some s => Some (JStr s)
    | None => lookup (lit k) rest
    end.
Proof.
  destruct o as [s |]; [| reflexivity]. simpl. rewrite str_eqb_refl.
  reflexivity.
Qed.

Lemma lookup_opt_miss (k k' : string) (o : option jsstring)
    (rest : list (jsstring * JsValue)) :
  str_eqb (lit k) (lit k') = false ->
  lookup (lit k) (opt_prop k' o ++ rest) = lookup (lit k) rest.
Proof.
  intros H. destruct o as [s |]; [| reflexivity]. simpl. rewrite H.
  reflexivity.
Qed.

Lemma lookup_opt_hit_last (k : string) (o : option jsstring) :
  lookup (lit k) (opt_prop k o)
  = match o with
    | Some s => Some (JStr s)
    | None => None
    end.
Proof.
  destruct o as [s |]; [| reflexivity]. simpl. rewrite str_eqb_refl.
  reflexivity.
Qed.

Lemma lookup_opt_miss_last (k k' : string) (o : option jsstring) :
  str_eqb (lit k) (lit k') = false -> lookup (lit k) (opt_prop k' o) = None.
Proof.
  intros H. destruct o as [s |]; [| reflexivity]. simpl. rewrite H.
  reflexivity.
Qed.

Ltac read_attribute o :=
  unfold encode_profile, get;
  repeat (rewrite lookup_opt_miss by reflexivity);
  first [rewrite lookup_opt_hit | rewrite lookup_opt_hit_last];
  destruct o; [reflexivity |];
  repeat (rewrite lookup_opt_miss by reflexivity);
  try (rewrite lookup_opt_miss_last by reflexivity);
  reflexivity.

Lemma get_homeType (p : HomeProfile) :
  get (encode_profile p) "homeType" = Ok (attribute (homeType p)).
Proof. read_attribute (homeType p). Qed.

Lemma get_yearBuilt (p : HomeProfile) :
  get (encode_profile p) "yearBuilt" = Ok (attribute (yearBuilt p)).
Proof. read_attribute (yearBuilt p). Qed.

Lemma get_pipeType (p : HomeProfile) :
  get (encode_profile p) "pipeType" = Ok (attribute (pipeType p)).
Proof. read_attribute (pipeType p). Qed.

Lemma get_waterHeaterType (p : HomeProfile) :
  get (encode_profile p) "waterHeaterType"
  = Ok (attribute (waterHeaterType p)).
Proof. read_attribute (waterHeaterType p). Qed.

Lemma get_hvacType (p : HomeProfile) :
  get (encode_profile p) "hvacType" = Ok (attribute (hvacType p)).
Proof. read_attribute (hvacType p). Qed.

Lemma get_hvacAge (p : HomeProfile) :
  get (encode_profile p) "hvacAge" = Ok (attribute (hvacAge p)).
Proof. read_attribute (hvacAge p). Qed.

Lemma get_roofType (p : HomeProfile) :
  get (encode_profile p) "roofType" = Ok (attribute (roofType p)).
Proof. read_attribute (roofType p). Qed.

Lemma get_roofAge (p : HomeProfile) :
  get (encode_profile p) "roofAge" = Ok (attribute (roofAge p)).
Proof. read_attribute (roofAge p). Qed.

Lemma get_mainFlooring (p : HomeProfile) :
  get (encode_profile p) "mainFlooring" = Ok (attribute (mainFlooring p)).
Proof. read_attribute (mainFlooring p). Qed.

Section PromptRefinement.

Variable Number_toString : number -> jsstring.

Lemma line_typed (label : jsstring) (profile : JsValue) (k : string)
    (o : option jsstring) :
  get profile k = Ok (attribute o) ->
  Untyped.line Number_toString label profile k = Ok (line label o).
Proof.
  intros H. unfold Untyped.line, line. rewrite H. cbn [bind].
  destruct o as [[| c s] |]; reflexivity.
Qed.

Lemma aged_line_typed (label : jsstring) (profile : JsValue) (k age : string)
    (o a : option jsstring) :
  get profile k = Ok (attribute o) ->
  get profile age = Ok (attribute a) ->
  Untyped.aged_line Number_toString label profile k age
  = Ok (aged_line label o a).
Proof.
  intros H Ha. unfold Untyped.aged_line, aged_line. rewrite H. cbn [bind].
  destruct o as [[| c s] |]; try reflexivity.
  cbn [attribute truthy present Untyped.ToString bind].
  rewrite Ha. cbn [bind].
  destruct a as [[| d t] |]; reflexivity.
Qed.

Lemma profileLines_typed (p : HomeProfile) :
  Untyped.profileLines Number_toString (encode_profile p)
  = Ok (profileLines p).
Proof.
  unfold Untyped.profileLines, profileLines.
  rewrite (line_typed _ _ _ _ (get_homeType p)). cbn [bind].
  rewrite (line_typed _ _ _ _ (get_yearBuilt p)). cbn [bind].
  rewrite (line_typed _ _ _ _ (get_pipeType p)). cbn [bind].
  rewrite (line_typed _ _ _ _ (get_waterHeaterType p)). cbn [bind].
  rewrite (aged_line_typed _ _ _ _ _ _ (get_hvacType p) (get_hvacAge p)).
  cbn [bind].
  rewrite (aged_line_typed _ _ _ _ _ _ (get_roofType p) (get_roofAge p)).
  cbn [bind].
  rewrite (line_typed _ _ _ _ (get_mainFlooring p)). cbn [bind].
  reflexivity.
Qed.

Lemma keys_typed (p : HomeProfile) :
  exists n,
    Untyped.keys_length (encode_profile p) = Ok n
    /\ (0 <? n) = has_keys p.
Proof.
  unfold encode_profile, Untyped.keys_length, has_keys. eexists.
  split; [reflexivity |].
  destruct (email p); [reflexivity |].
  destruct (nickname p); [reflexivity |].
  destruct (homeType p); [reflexivity |].
  destruct (yearBuilt p); [reflexivity |].
  destruct (pipeType p); [reflexivity |].
  destruct (waterHeaterType p); [reflexivity |].
  destruct (hvacType p); [reflexivity |].
  destruct (hvacAge p); [reflexivity |].
  destruct (roofType p); [reflexivity |].
  destruct (roofAge p); [reflexivity |].
  destruct (mainFlooring p); reflexivity.
Qed.

Lemma get_conversationHistory (m : RepairMetadata) :
  get (encode_metadata m) "conversationHistory"
  = Ok (match conversationHistory m with
        | Some h => JArr (map encode_qa h)
        | None => JUndefined
        end).
Proof.
  unfold encode_metadata.
  destruct (conversationHistory m); [reflexivity |].
  destruct (homeProfile m); reflexivity.
Qed.

Lemma get_homeProfile (m : RepairMetadata) :
  get (encode_metadata m) "homeProfile"
  = Ok (match homeProfile m with
        | Some p => encode_profile p
        | None => JUndefined
        end).
Proof.
  unfold encode_metadata.
  destruct (conversationHistory m); destruct (homeProfile m); reflexivity.
Qed.

Lemma profileSection_typed (m : RepairMetadata) :
  Untyped.profileSection Number_toString (encode_metadata m)
  = Ok (profileSection m).
Proof.
  unfold Untyped.profileSection, profileSection.
  rewrite get_homeProfile. cbn [bind].
  destruct (homeProfile m) as [p |]; [| reflexivity].
  change (truthy (encode_profile p)) with true. cbv iota.
  destruct (keys_typed p) as (n & -> & Hn). cbn [bind]. rewrite Hn.
  destruct (has_keys p); [| reflexivity].
  rewrite profileLines_typed. cbn [bind].
  destruct (profileLines p); reflexivity.
Qed.

Lemma qaLine_typed (qa : QuestionAnswer) :
  Untyped.qaLine Number_toString (encode_qa qa) = Ok (qaLine qa).
Proof.
  unfold Untyped.qaLine, qaLine, encode_qa.
  destruct (qa_answer qa); reflexivity.
Qed.

Lemma number_to_string_nat (k : nat) :
  (Z.of_nat k < 2 ^ 53)%Z ->
  Untyped.number_to_string Number_toString (num_of_nat k) = nat_to_string k.
Proof.
  intros H. unfold Untyped.number_to_string, num_of_nat.
  rewrite Qred_inject_Z. cbn [Qnum Qden inject_Z].
  replace (0 <=? Z.of_nat k)%Z with true by (symmetry; apply Z.leb_le; lia).
  replace (Z.of_nat k <? 2 ^ 53)%Z with true
    by (symmetry; apply Z.ltb_lt; exact H).
  change (Z.pos 1 =? 1)%Z with true. cbn [andb]. rewrite Nat2Z.id.
  reflexivity.
Qed.

Lemma num_ge_nat (a b : nat) :
  num_ge (num_of_nat a) (num_of_nat b) = (b <=? a).
Proof.
  unfold num_ge, num_of_nat.
  destruct (Qle_bool (inject_Z (Z.of_nat b)) (inject_Z (Z.of_nat a))) eqn:E.
  - apply Qle_bool_iff in E. rewrite <- Zle_Qle in E.
    symmetry. apply Nat.leb_le. lia.
  - symmetry. apply Nat.leb_gt.
    destruct (Nat.lt_ge_cases a b) as [L | G]; [exact L |].
    exfalso. assert (T : Qle_bool (inject_Z (Z.of_nat b)) (inject_Z (Z.of_nat a)) = true).
    { apply Qle_bool_iff. rewrite <- Zle_Qle. lia. }
    congruence.
Qed.

Lemma instruction_typed (m : RepairMetadata) :
  (Z.of_nat (List.length (history m)) < 2 ^ 32)%Z ->
  Untyped.instruction Number_toString (num_of_nat (roundNumber m))
    (hasConversation m)
  = instruction m.
Proof.
  intros Hb. unfold Untyped.instruction, instruction.
  rewrite num_ge_nat.
  assert (R : (Z.of_nat (roundNumber m) < 2 ^ 53)%Z).
  { rewrite roundNumber_eq.
    pose proof (ceil_third_spec (List.length (history m))) as [L U].
    assert (2 ^ 32 < 2 ^ 53)%Z by reflexivity. lia. }
  rewrite (number_to_string_nat _ R).
  reflexivity.
Qed.

Lemma roundNumber_typed (m : RepairMetadata) :
  (Z.of_nat (List.length (history m)) < 2 ^ 32)%Z ->
  Untyped.roundNumber
    (match conversationHistory m with
     | Some h => JArr (map encode_qa h)
     | None => JUndefined
     end) (hasConversation m)
  = Ok (num_of_nat (roundNumber m)).
Proof.
  intros Hb. unfold Untyped.roundNumber, roundNumber, hasConversation, history in *.
  destruct (conversationHistory m) as [[| qa h] |]; try reflexivity.
  change (get (JArr (map encode_qa (qa :: h))) "length")
    with (Ok (A := JsValue)
            (JNum (num_of_nat (List.length (map encode_qa (qa :: h)))))).
  cbn [bind].
  change (toNumber (JNum (num_of_nat (List.length (map encode_qa (qa :: h))))))
    with (Ok (num_of_nat (List.length (map encode_qa (qa :: h))))).
  cbn [bind]. rewrite length_map.
  rewrite third_exact; [reflexivity | simpl; lia | exact Hb].
Qed.

(** On metadata of the declared type the prompt is built without an
    error, and it is the prompt of the typed composer. *)
Lemma buildUserPrompt_typed (m : RepairMetadata) (hasImages : bool) :
  (Z.of_nat (List.length (history m)) < 2 ^ 32)%Z ->
  Untyped.buildUserPrompt Number_toString (encode_metadata m) hasImages
  = Ok (buildUserPrompt m hasImages).
Proof.
  intros Hb. unfold Untyped.buildUserPrompt.
  rewrite get_conversationHistory. cbn [bind].
  assert (N : Untyped.nonempty
                (match conversationHistory m with
                 | Some h => JArr (map encode_qa h)
                 | None => JUndefined
                 end) = Ok (hasConversation m)).
  { unfold hasConversation.
    destruct (conversationHistory m) as [h |]; [| reflexivity].
    rewrite nonempty_array, length_map. destruct h; reflexivity. }
  rewrite N. cbn [bind].
  rewrite (roundNumber_typed m Hb). cbn [bind].
  rewrite profileSection_typed. cbn [bind].
  assert (C : Untyped.conversationSection Number_toString
                (match conversationHistory m with
                 | Some h => JArr (map encode_qa h)
                 | None => JUndefined
                 end) (hasConversation m)
              = Ok (conversationSection m)).
  { unfold Untyped.conversationSection, conversationSection, history,
      hasConversation.
    destruct (conversationHistory m) as [[| qa h] |]; try reflexivity.
    unfold js_map.
    rewrite (mapM_map _ encode_qa qaLine) by apply qaLine_typed.
    reflexivity. }
  rewrite C. cbn [bind].
  change (get (encode_metadata m) "description")
    with (Ok (A := JsValue) (JStr (description m))).
  cbn [bind Untyped.ToString].
  rewrite (instruction_typed m Hb). reflexivity.
Qed.

End PromptRefinement.

(** ** What building a prompt throws *)

Lemma JsValue_nested_ind (P : JsValue -> Prop) :
  P JUndefined -> P JNull -> (forall b, P (JBool b)) ->
  (forall n, P (JNum n)) -> (forall s, P (JStr s)) ->
  (forall l, Forall P l -> P (JArr l)) ->
  (forall props, P (JObj props)) ->
  forall v, P v.
Proof.
  intros Hu Hn Hb Hm Hs Ha Ho.
  fix IH 1. intros [| | b | n | s | l | props].
  - exact Hu.
  - exact Hn.
  - apply Hb.
  - apply Hm.
  - apply Hs.
  - apply Ha. induction l as [| x l IHl]; constructor; [apply IH | exact IHl].
  - apply Ho.
Qed.

Lemma type_errors_Throw {A : Type} : type_errors (Throw (A := A) TypeError).
Proof. intros e H. congruence. Qed.

Section TypeErrors.

Variable Number_toString : number -> jsstring.

Lemma type_errors_elements (f : JsValue -> Exc jsstring) (l : list JsValue) :
  Forall (fun x => type_errors (f x)) l ->
  type_errors (Untyped.elements f l).
Proof.
  intros H. induction H as [| x l Hx Hl IH]; [apply type_errors_Ok |].
  cbn [Untyped.elements]. fold (Untyped.elements f).
  apply type_errors_bind.
  - destruct x; try apply type_errors_Ok; exact Hx.
  - intros s. apply type_errors_bind; [exact IH |].
    intros ss. apply type_errors_Ok.
Qed.

Lemma type_errors_ToString (v : JsValue) :
  type_errors (Untyped.ToString Number_toString v).
Proof.
  induction v using JsValue_nested_ind; try apply type_errors_Ok.
  - cbn [Untyped.ToString]. apply type_errors_bind.
    + apply type_errors_elements. assumption.
    + intros ss. apply type_errors_Ok.
  - cbn [Untyped.ToString]. destruct (has_key "toString" props);
      [apply type_errors_Throw | apply type_errors_Ok].
Qed.

Lemma type_errors_js_join (v : JsValue) (sep : jsstring) :
  type_errors (Untyped.js_join Number_toString v sep).
Proof.
  destruct v; try apply type_errors_Throw.
  cbn [Untyped.js_join]. apply type_errors_bind.
  - apply type_errors_elements. apply Forall_forall.
    intros x _. apply type_errors_ToString.
  - intros ss. apply type_errors_Ok.
Qed.

Lemma type_errors_nonempty (v : JsValue) : type_errors (Untyped.nonempty v).
Proof.
  unfold Untyped.nonempty, Untyped.length_positive.
  destruct (truthy v); [| apply type_errors_Ok].
  type_errors_steps.
Qed.

Lemma type_errors_keys_length (v : JsValue) :
  type_errors (Untyped.keys_length v).
Proof.
  destruct v; try apply type_errors_Ok; apply type_errors_Throw.
Qed.

Lemma type_errors_mapM_index {B : Type} (f : JsValue -> nat -> Exc B)
    (l : list JsValue) :
  (forall x i, type_errors (f x i)) ->
  forall i, type_errors (Untyped.mapM_index f l i).
Proof.
  intros Hf. induction l as [| x l IH]; intros i; simpl;
    [apply type_errors_Ok |].
  apply type_errors_bind; [apply Hf |]. intros y.
  apply type_errors_bind; [apply IH |]. intros ys. apply type_errors_Ok.
Qed.

(** Closes a goal [type_errors m] for [m] built from the steps of the
    prompt builders. *)
Ltac prompt_steps :=
  repeat first
    [ apply type_errors_Ok
    | apply type_errors_Throw
    | apply type_errors_get
    | apply type_errors_toNumber
    | apply type_errors_ToString
    | apply type_errors_js_join
    | apply type_errors_nonempty
    | apply type_errors_keys_length
    | match goal with
      | |- type_errors (if ?b then _ else _) => destruct b
      | |- type_errors (match ?x with [] => _ | _ :: _ => _ end) => destruct x
      end
    | apply type_errors_bind; [| intros ?] ].

Lemma type_errors_line (label : jsstring) (p : JsValue) (k : string) :
  type_errors (Untyped.line Number_toString label p k).
Proof. unfold Untyped.line. prompt_steps. Qed.

Lemma type_errors_aged_line (label : jsstring) (p : JsValue) (k a : string) :
  type_errors (Untyped.aged_line Number_toString label p k a).
Proof. unfold Untyped.aged_line. prompt_steps. Qed.

Lemma type_errors_qaLine (qa : JsValue) :
  type_errors (Untyped.qaLine Number_toString qa).
Proof. unfold Untyped.qaLine. prompt_steps. Qed.

Lemma type_errors_buildUserPrompt (metadata : JsValue) (hasImages : bool) :
  type_errors (Untyped.buildUserPrompt Number_toString metadata hasImages).
Proof.
  unfold Untyped.buildUserPrompt, Untyped.roundNumber,
    Untyped.profileSection, Untyped.profileLines,
    Untyped.conversationSection.
  repeat first
    [ apply type_errors_line
    | apply type_errors_aged_line
    | apply type_errors_js_map; exact type_errors_qaLine
    | progress prompt_steps ].
Qed.

Lemma type_errors_historyLine (msg : JsValue) :
  type_errors (Untyped.historyLine Number_toString msg).
Proof. unfold Untyped.historyLine. prompt_steps. Qed.

Lemma type_errors_numberedStep (s : JsValue) (i : nat) :
  type_errors (Untyped.numberedStep Number_toString s i).
Proof. unfold Untyped.numberedStep. prompt_steps. Qed.

Lemma type_errors_chatPrompt (CHAT_SYSTEM_PROMPT : jsstring)
    (originalDescription analysisContext conversationHistory
       newMessage : JsValue) :
  type_errors
    (Untyped.chatPrompt Number_toString CHAT_SYSTEM_PROMPT
       originalDescription analysisContext conversationHistory newMessage).
Proof.
  unfold Untyped.chatPrompt, Untyped.buildAnalysisSection,
    Untyped.buildHistorySection, Untyped.textPart, Untyped.listPart,
    Untyped.stepsPart, Untyped.js_map_index.
  repeat first
    [ apply type_errors_js_map; exact type_errors_historyLine
    | apply type_errors_mapM_index; exact type_errors_numberedStep
    | match goal with
      | |- type_errors (match ?x with JArr _ => _ | _ => _ end) => destruct x
      end
    | progress prompt_steps ].
Qed.

End TypeErrors.

(** ** The errors of the two services *)

(** X13. The errors of [analyzeRepair], on whatever the route passes as
    metadata.  Without a client and without an API key it throws the
    configuration error before anything else: the client stays absent,
    and neither the metadata nor the model matter.  Otherwise the client
    exists afterwards.  An error of building the prompt, which is
    always a TypeError, then leaves the function as it is, without the
    model being asked: the prompt is built before the [try] block.
    Once the prompt is built, every failure - of the generation call,
    of the extraction, of [JSON.parse], of the mapping - leaves as the
    one error "Failed to analyze images with AI".  On metadata of the
    declared type, with a history shorter than 2^32, the function is
    the typed [analyzeRepair]. *)
Theorem analyzeRepair_errors (Number_toString : number -> jsstring)
    (SYSTEM_PROMPT : jsstring) (Buffer : Type)
    (base64 : Buffer -> jsstring) (generateContent : list Part -> Exc jsstring)
    (GEMINI_API_KEY : option jsstring) (genAI : bool)
    (imageBuffers : list Buffer) (imageMimeTypes : list jsstring)
    (metadata : JsValue) :
  (genAI = false -> present GEMINI_API_KEY = None ->
   forall other other_metadata,
     Untyped.analyzeRepair Number_toString SYSTEM_PROMPT Buffer base64 other
       GEMINI_API_KEY genAI imageBuffers imageMimeTypes other_metadata
     = (false,
        Throw (Error (lit "GEMINI_API_KEY environment variable is not set"))))
  /\ (genAI = true \/ present GEMINI_API_KEY <> None ->
      exists outcome,
        Untyped.analyzeRepair Number_toString SYSTEM_PROMPT Buffer base64
          generateContent GEMINI_API_KEY genAI imageBuffers imageMimeTypes
          metadata
        = (true, outcome)
        /\ (throws (Untyped.buildUserPrompt Number_toString metadata
                      (0 <? List.length imageBuffers)) ->
            outcome = Throw TypeError
            /\ forall other,
                 Untyped.analyzeRepair Number_toString SYSTEM_PROMPT Buffer
                   base64 other GEMINI_API_KEY genAI imageBuffers
                   imageMimeTypes metadata
                 = (true, Throw TypeError))
        /\ (forall userPrompt,
              Untyped.buildUserPrompt Number_toString metadata
                (0 <? List.length imageBuffers) = Ok userPrompt ->
              outcome
              = try_catch
                  (text <- generateContent
                             ([TextPart SYSTEM_PROMPT]
                              ++ imageParts Buffer base64 imageBuffers
                                   imageMimeTypes 0
                              ++ [TextPart userPrompt]) ;;
                   parseResponse text)
              /\ forall e, outcome = Throw e ->
                           e = Error (lit "Failed to analyze images with AI")))
  /\ (forall m,
        (Z.of_nat (List.length (history m)) < 2 ^ 32)%Z ->
        Untyped.analyzeRepair Number_toString SYSTEM_PROMPT Buffer base64
          generateContent GEMINI_API_KEY genAI imageBuffers imageMimeTypes
          (encode_metadata m)
        = analyzeRepair SYSTEM_PROMPT Buffer base64 generateContent
            GEMINI_API_KEY genAI imageBuffers imageMimeTypes m).
Proof.
  split; [| split].
  - intros -> Hk other other_metadata.
    unfold Untyped.analyzeRepair, getGenAI. rewrite Hk. reflexivity.
  - intros Hc.
    assert (G : getGenAI GEMINI_API_KEY genAI = Ok true).
    { unfold getGenAI. destruct genAI; [reflexivity |].
      destruct (present GEMINI_API_KEY); [reflexivity |].
      destruct Hc; congruence. }
    unfold Untyped.analyzeRepair. rewrite G.
    pose proof (type_errors_buildUserPrompt Number_toString metadata
                  (0 <? List.length imageBuffers)) as T.
    destruct (Untyped.buildUserPrompt Number_toString metadata
                (0 <? List.length imageBuffers)) as [userPrompt | e].
    + eexists. split; [reflexivity |]. split; [intros [] |].
      intros p Hp. injection Hp as <-. split; [reflexivity |].
      intros e He. unfold try_catch in He.
      match type of He with
      | match ?b with _ => _ end = _ => destruct b; congruence
      end.
    + rewrite (T e eq_refl). eexists. split; [reflexivity |].
      split; [| intros p Hp; discriminate].
      intros _. split; reflexivity.
  - intros m Hb. unfold Untyped.analyzeRepair, analyzeRepair.
    rewrite (buildUserPrompt_typed Number_toString m _ Hb). reflexivity.
Qed.

Lemma analyzeRepair_errors_witness :
  Untyped.analyzeRepair no_digits (lit "Be brief.") unit (fun _ => [])
    (fun _ => Ok (quoted "{'confidence':0.9}")) None false [] []
    null_history
  = (false,
     Throw (Error (lit "GEMINI_API_KEY environment variable is not set")))
  /\ Untyped.analyzeRepair no_digits (lit "Be brief.") unit (fun _ => [])
       (fun _ => Ok (quoted "{'confidence':0.9}")) (Some (lit "key")) false
       [] [] null_history
     = (true, Throw TypeError)
  /\ Untyped.analyzeRepair no_digits (lit "Be brief.") unit (fun _ => [])
       (fun _ => Ok (quoted "{'confidence':0.9}")) (Some (lit "key")) false
       [] [] (encode_metadata six_answers)
     = analyzeRepair (lit "Be brief.") unit (fun _ => [])
         (fun _ => Ok (quoted "{'confidence':0.9}")) (Some (lit "key")) false
         [] [] six_answers.
Proof.
  split; [| split].
  - destruct (analyzeRepair_errors no_digits (lit "Be brief.") unit
                (fun _ => []) (fun _ => Ok (quoted "{'confidence':0.9}"))
                None false [] [] null_history)
      as (H & _ & _).
    apply H; reflexivity.
  - destruct (analyzeRepair_errors no_digits (lit "Be brief.") unit
                (fun _ => []) (fun _ => Ok (quoted "{'confidence':0.9}"))
                (Some (lit "key")) false [] [] null_history)
      as (_ & H & _).
    destruct H as (outcome & Ho & Ht & _); [right; discriminate |].
    destruct Ht as (-> & _); [vm_compute; exact I |].
    exact Ho.
  - destruct (analyzeRepair_errors no_digits (lit "Be brief.") unit
                (fun _ => []) (fun _ => Ok (quoted "{'confidence':0.9}"))
                (Some (lit "key")) false [] [] null_history)
      as (_ & _ & H).
    apply H. vm_compute. reflexivity.
Defined.

(** X5. The errors of [chatWithExpert], on whatever the route passes.
    Without a client and without an API key it throws the configuration
    error before anything else: the client stays absent, and neither
    the arguments nor the model matter.  Otherwise the client exists
    afterwards.  An error of building the prompt, which is always a
    TypeError, then leaves the function as it is, without the model
    being asked: the two sections and the prompt are built before the
    [try] block.  Once the prompt is built the function returns the
    trimmed text of the model, and whatever the generation call throws
    leaves as the one error "Failed to get chat response".  On
    arguments of the declared types the function is the typed
    [chatWithExpert]. *)
Theorem chat_errors (Number_toString : number -> jsstring)
    (CHAT_SYSTEM_PROMPT : jsstring)
    (generateText : jsstring -> Exc jsstring)
    (GEMINI_API_KEY : option jsstring) (genAI : bool)
    (originalDescription analysisContext conversationHistory
       newMessage : JsValue) :
  (genAI = false -> present GEMINI_API_KEY = None ->
   forall other d c h n,
     Untyped.chatWithExpert Number_toString CHAT_SYSTEM_PROMPT other
       GEMINI_API_KEY genAI d c h n
     = (false,
        Throw (Error (lit "GEMINI_API_KEY environment variable is not set"))))
  /\ (genAI = true \/ present GEMINI_API_KEY <> None ->
      exists outcome,
        Untyped.chatWithExpert Number_toString CHAT_SYSTEM_PROMPT
          generateText GEMINI_API_KEY genAI originalDescription
          analysisContext conversationHistory newMessage
        = (true, outcome)
        /\ (throws (Untyped.chatPrompt Number_toString CHAT_SYSTEM_PROMPT
                      originalDescription analysisContext
                      conversationHistory newMessage) ->
            outcome = Throw TypeError
            /\ forall other,
                 Untyped.chatWithExpert Number_toString CHAT_SYSTEM_PROMPT
                   other GEMINI_API_KEY genAI originalDescription
                   analysisContext conversationHistory newMessage
                 = (true, Throw TypeError))
        /\ (forall prompt,
              Untyped.chatPrompt Number_toString CHAT_SYSTEM_PROMPT
                originalDescription analysisContext conversationHistory
                newMessage = Ok prompt ->
              (forall text, generateText prompt = Ok text ->
                            outcome = Ok (trim text))
              /\ forall e, outcome = Throw e ->
                           e = Error (lit "Failed to get chat response")))
  /\ (forall d c h n,
        Untyped.chatWithExpert Number_toString CHAT_SYSTEM_PROMPT
          generateText GEMINI_API_KEY genAI (JStr d) (encode_context c)
          (encode_history h) (JStr n)
        = chatWithExpert CHAT_SYSTEM_PROMPT generateText GEMINI_API_KEY
            genAI d c h n).
Proof.
  split; [| split].
  - intros -> Hk other d c h n.
    unfold Untyped.chatWithExpert, getGenAI. rewrite Hk. reflexivity.
  - intros Hc.
    assert (G : getGenAI GEMINI_API_KEY genAI = Ok true).
    { unfold getGenAI. destruct genAI; [reflexivity |].
      destruct (present GEMINI_API_KEY); [reflexivity |].
      destruct Hc; congruence. }
    unfold Untyped.chatWithExpert. rewrite G.
    pose proof (type_errors_chatPrompt Number_toString CHAT_SYSTEM_PROMPT
                  originalDescription analysisContext conversationHistory
                  newMessage) as T.
    destruct (Untyped.chatPrompt Number_toString CHAT_SYSTEM_PROMPT
                originalDescription analysisContext conversationHistory
                newMessage) as [prompt | e].
    + eexists. split; [reflexivity |]. split; [intros [] |].
      intros p Hp. injection Hp as <-. split.
      * intros text ->. reflexivity.
      * intros e. destruct (generateText prompt); simpl; congruence.
    + rewrite (T e eq_refl). eexists. split; [reflexivity |].
      split; [| intros p Hp; discriminate].
      intros _. split; reflexivity.
  - intros d c h n. unfold Untyped.chatWithExpert, chatWithExpert.
    rewrite chatPrompt_typed. reflexivity.
Qed.

Lemma chat_errors_witness :
  Untyped.chatWithExpert no_digits (lit "Be brief.") padded_reply None false
    (str "Leaking trap") JUndefined (JArr []) (str "Can I use tape?")
  = (false,
     Throw (Error (lit "GEMINI_API_KEY environment variable is not set")))
  /\ Untyped.chatWithExpert no_digits (lit "Be brief.") padded_reply
       (Some (lit "key")) false (str "Leaking trap") JUndefined (JArr [])
       (str "Can I use tape?")
     = (true, Throw TypeError).
Proof.
  split.
  - destruct (chat_errors no_digits (lit "Be brief.") padded_reply None false
                (str "Leaking trap") JUndefined (JArr [])
                (str "Can I use tape?"))
      as (H & _ & _).
    apply H; reflexivity.
  - destruct (chat_errors no_digits (lit "Be brief.") padded_reply
                (Some (lit "key")) false (str "Leaking trap") JUndefined
                (JArr []) (str "Can I use tape?"))
      as (_ & H & _).
    destruct H as (outcome & Ho & Ht & _); [right; discriminate |].
    destruct Ht as (-> & _); [vm_compute; exact I |].
    exact Ho.
Defined.
